(** * Universal Project Builder: CodeExtractor and FileOrganizer

    A shallow embedding of the two core classes of the repository,
    [CodeExtractor] (js/core/CodeExtractor.js) and [FileOrganizer]
    (js/core/FileOrganizer.js), together with the part of the
    ECMAScript string and regular-expression library they call, and
    the properties of extraction and organization proved about them.

    Conventions of the embedding.
    - A JavaScript string is a [string]: a sequence of code units.  Code
      units are restricted to the range 0..255 (Latin-1), so [\s] is the
      set 9, 10, 11, 12, 13, 32, 160 and the line terminators are 10, 13.
    - A JavaScript object used as a record is a [Record]; a field that may
      be [undefined] is an [option].
    - A JavaScript object used as a dictionary and walked with
      [Object.entries] is the list of its entries, in iteration order.
    - A lookup in a dictionary finds the entries of the dictionary only.
      The code looks names up in object literals, which also answer to
      the names inherited from [Object.prototype] ([constructor],
      [toString], ...): the statements about the counters of the
      statistics and about the table of extensions are made for the
      names that are not inherited ([ExtractorNotions.inherited]).
    - The configuration of the organizer is typed: every section holds
      values of the shape that its operation reads (strings, lists of
      strings, rule objects), and [linesPerFile] is an integer.  The
      checks of [validateAndNormalizeConfig] that a section is an object
      and that the destinations of a copy rule are an array are always
      passed by a typed configuration and are not embedded.
    - [Date], [Math.random], [JSON.stringify] and the [RegExp] constructor
      applied to run-time strings belong to the platform: they are fields
      of an environment record [Env].  The regular expressions that the
      source writes as literals are embedded as syntax trees and run by
      the backtracking matcher of module [RegExp].
    - A method that mutates [this] is a function in a state-and-exception
      monad over the fields of [this]; [console] output is left out.

    Layout: the library ([Str], [RegExp], [Method]), the records, the two
    classes ([CodeExtractor], [FileOrganizer]), a platform ([Platform]),
    the notions of the statements ([Spec], [Samples], [Logic], and the
    modules from [Invariants] to [NumberedText], which also hold
    [exportConfigTemplate], [guessProjectType] and [exportToCsv]), then
    the examples and the proofs ([Examples], [ExtractorProofs],
    [OrganizerProofs], and the modules from [RecordLaws] to
    [NumberedTextLaws]). *)

From Stdlib Require Import String Ascii ZArith Lia Bool DecimalString Sorted.
From stdpp Require Import base option list strings gmap.

Local Open Scope Z_scope.

(** ** ECMAScript strings *)

Module Str.

Definition LF : ascii := ascii_of_nat 10.
Definition CR : ascii := ascii_of_nat 13.
Definition nl : string := String LF EmptyString.

Definition code (c : ascii) : nat := nat_of_ascii c.

Definition ascii_eqb (a b : ascii) : bool := Ascii.eqb a b.

Definition isLineTerminator (c : ascii) : bool :=
  (code c =? 10)%nat || (code c =? 13)%nat.

(** [\s], and the characters removed by [String.prototype.trim]. *)
Definition isWhiteSpace (c : ascii) : bool :=
  ((9 <=? code c)%nat && (code c <=? 13)%nat)
  || (code c =? 32)%nat || (code c =? 160)%nat.

Definition isDigit (c : ascii) : bool :=
  (48 <=? code c)%nat && (code c <=? 57)%nat.

Definition isUpper (c : ascii) : bool :=
  (65 <=? code c)%nat && (code c <=? 90)%nat.

Definition isLower (c : ascii) : bool :=
  (97 <=? code c)%nat && (code c <=? 122)%nat.

Definition isAlpha (c : ascii) : bool := isUpper c || isLower c.

Definition isAlnum (c : ascii) : bool := isAlpha c || isDigit c.

(** [\w] *)
Definition isWord (c : ascii) : bool := isAlnum c || (code c =? 95)%nat.

(** [.] without the [s] flag *)
Definition isDot (c : ascii) : bool := negb (isLineTerminator c).

Definition lowerChar (c : ascii) : ascii :=
  if isUpper c
     || ((192 <=? code c)%nat && (code c <=? 222)%nat
         && negb (code c =? 215)%nat)
  then ascii_of_nat (code c + 32) else c.

Definition upperChar (c : ascii) : ascii :=
  if isLower c
     || ((224 <=? code c)%nat && (code c <=? 254)%nat
         && negb (code c =? 247)%nat)
  then ascii_of_nat (code c - 32) else c.

Fixpoint toLowerCase (s : string) : string :=
  match s with
  | EmptyString => EmptyString
  | String c r => String (lowerChar c) (toLowerCase r)
  end.

Definition len (s : string) : nat := String.length s.

Fixpoint take (n : nat) (s : string) : string :=
  match n, s with
  | S k, String c r => String c (take k r)
  | _, _ => EmptyString
  end.

Fixpoint drop (n : nat) (s : string) : string :=
  match n, s with
  | S k, String _ r => drop k r
  | _, _ => s
  end.

(** [s.substring(a, b)]: both bounds are clamped to [0 .. length] and
    swapped when they come in the wrong order. *)
Definition clamp (s : string) (i : Z) : nat :=
  Z.to_nat (Z.min (Z.max i 0) (Z.of_nat (len s))).

Definition substring (s : string) (a b : Z) : string :=
  let lo := Nat.min (clamp s a) (clamp s b) in
  let hi := Nat.max (clamp s a) (clamp s b) in
  take (hi - lo) (drop lo s).

Fixpoint trimStart (s : string) : string :=
  match s with
  | String c r => if isWhiteSpace c then trimStart r else s
  | EmptyString => EmptyString
  end.

(** [trimEnd] keeps a character when it is not white space or when
    something remains after it. *)
Fixpoint trimEnd (s : string) : string :=
  match s with
  | EmptyString => EmptyString
  | String c r =>
      match trimEnd r with
      | EmptyString => if isWhiteSpace c then EmptyString
                       else String c EmptyString
      | r' => String c r'
      end
  end.

Definition trim (s : string) : string := trimEnd (trimStart s).

Definition isEmpty (s : string) : bool :=
  match s with EmptyString => true | _ => false end.

(** Truthiness of a string value: [!!s]. *)
Definition truthy (s : string) : bool := negb (isEmpty s).

Fixpoint startsWith (s p : string) : bool :=
  match p, s with
  | EmptyString, _ => true
  | String a p', String b s' => ascii_eqb a b && startsWith s' p'
  | String _ _, EmptyString => false
  end.

Fixpoint includes (s p : string) : bool :=
  startsWith s p ||
  match s with
  | EmptyString => false
  | String _ r => includes r p
  end.

Definition endsWith (s p : string) : bool :=
  (len p <=? len s)%nat && String.eqb (drop (len s - len p) s) p.

(** [s.indexOf(p)] and [s.lastIndexOf(p)], [-1] when absent. *)
Fixpoint indexOfFrom (s p : string) (i : nat) : Z :=
  if startsWith s p then Z.of_nat i
  else match s with
       | EmptyString => -1
       | String _ r => indexOfFrom r p (S i)
       end.

Definition indexOf (s p : string) : Z := indexOfFrom s p 0.

Fixpoint lastIndexOfFrom (s p : string) (i : nat) : Z :=
  let later := match s with
               | EmptyString => -1
               | String _ r => lastIndexOfFrom r p (S i)
               end in
  if (0 <=? later) then later
  else if startsWith s p then Z.of_nat i else -1.

Definition lastIndexOf (s p : string) : Z := lastIndexOfFrom s p 0.

(** [s.split(c)] for a one-character separator. *)
Fixpoint splitChar (c : ascii) (s : string) : list string :=
  match s with
  | EmptyString => [EmptyString]
  | String x r =>
      if ascii_eqb x c then EmptyString :: splitChar c r
      else match splitChar c r with
           | w :: ws => String x w :: ws
           | [] => [String x EmptyString]
           end
  end.

(** [xs.join(sep)] *)
Fixpoint join (sep : string) (xs : list string) : string :=
  match xs with
  | [] => EmptyString
  | [x] => x
  | x :: rest => x +:+ sep +:+ join sep rest
  end.

(** [new Blob([s]).size]: the length of the UTF-8 encoding. *)
Fixpoint blobSize (s : string) : nat :=
  match s with
  | EmptyString => 0%nat
  | String c r => ((if (code c <? 128)%nat then 1 else 2) + blobSize r)%nat
  end.

(** [String(n)] for a non-negative integer. *)
Definition ofNat (n : nat) : string :=
  NilZero.string_of_uint (Nat.to_uint n).

(** Occurrences of a line in a text: the number of its lines equal to
    the given one. *)
Definition lineCount (line text : string) : nat :=
  length (List.filter (String.eqb line) (splitChar LF text)).

End Str.

(** ** ECMAScript regular expressions

    The syntax trees cover what the regular-expression literals of the two
    classes use: literals, character classes, sequence, alternation,
    greedy and lazy repetition of a one-character atom, the optional
    atom, one capturing group, and the assertions [^] and [$].  The
    matcher is the backtracking matcher of the language specification,
    written in continuation-passing style. *)

Module RegExp.
Import Str.

Inductive regex : Type :=
| Eps                                            (* the empty pattern *)
| Chr (c : ascii)                                (* a literal character *)
| Cls (p : ascii -> bool)                        (* a class: [..] \d \s \w . *)
| Seq (a b : regex)                              (* ab *)
| Alt (a b : regex)                              (* a|b *)
| Rep (p : ascii -> bool) (min : nat) (greedy : bool)
                                                 (* X* X+ X*? X+? for a class X *)
| Opt (a : regex)                                (* a? *)
| Grp (a : regex)                                (* ( a ), capture 1 *)
| Bol                                            (* ^ *)
| Eol.                                           (* $ *)

Record Flags := { ignoreCase : bool; multiline : bool }.

Definition noFlags : Flags := {| ignoreCase := false; multiline := false |}.
Definition flagI : Flags := {| ignoreCase := true; multiline := false |}.
Definition flagM : Flags := {| ignoreCase := false; multiline := true |}.

(** The literal sequence of the characters of a string. *)
Fixpoint lit (s : string) : regex :=
  match s with
  | EmptyString => Eps
  | String c EmptyString => Chr c
  | String c r => Seq (Chr c) (lit r)
  end.

Fixpoint seqs (rs : list regex) : regex :=
  match rs with
  | [] => Eps
  | [r] => r
  | r :: rest => Seq r (seqs rest)
  end.

Fixpoint alts (rs : list regex) : regex :=
  match rs with
  | [] => Eps
  | [r] => r
  | r :: rest => Alt r (alts rest)
  end.

Definition oneOf (s : string) (c : ascii) : bool :=
  existsb (ascii_eqb c) (list_ascii_of_string s).

Definition noneOf (s : string) (c : ascii) : bool := negb (oneOf s c).

(** A match state: the character before the current position (none at
    index 0), the rest of the subject, the number of characters matched
    so far and the extent of capture 1 relative to the match start. *)
Definition Capture : Type := option (nat * nat).
Definition Outcome : Type := option (nat * Capture).
Definition Cont : Type := option ascii -> string -> nat -> Capture -> Outcome.

Definition orElse (a b : Outcome) : Outcome :=
  match a with Some _ => a | None => b end.

Definition charMatches (fl : Flags) (c x : ascii) : bool :=
  if ignoreCase fl then ascii_eqb (upperChar c) (upperChar x)
  else ascii_eqb c x.

Fixpoint repGreedy (p : ascii -> bool) (min : nat)
    (prev : option ascii) (rest : string) (n : nat) (g : Capture)
    (k : Cont) : Outcome :=
  let stop := match min with O => k prev rest n g | S _ => None end in
  match rest with
  | String x rest' =>
      if p x
      then orElse (repGreedy p (Nat.pred min) (Some x) rest' (S n) g k) stop
      else stop
  | EmptyString => stop
  end.

Fixpoint repLazy (p : ascii -> bool) (min : nat)
    (prev : option ascii) (rest : string) (n : nat) (g : Capture)
    (k : Cont) : Outcome :=
  let more := match rest with
              | String x rest' =>
                  if p x
                  then repLazy p (Nat.pred min) (Some x) rest' (S n) g k
                  else None
              | EmptyString => None
              end in
  match min with
  | O => orElse (k prev rest n g) more
  | S _ => more
  end.

Definition atLineStart (fl : Flags) (prev : option ascii) : bool :=
  match prev with
  | None => true
  | Some c => multiline fl && isLineTerminator c
  end.

Definition atLineEnd (fl : Flags) (rest : string) : bool :=
  match rest with
  | EmptyString => true
  | String c _ => multiline fl && isLineTerminator c
  end.

Fixpoint run (fl : Flags) (r : regex)
    (prev : option ascii) (rest : string) (n : nat) (g : Capture)
    (k : Cont) : Outcome :=
  match r with
  | Eps => k prev rest n g
  | Chr c =>
      match rest with
      | String x rest' =>
          if charMatches fl c x then k (Some x) rest' (S n) g else None
      | EmptyString => None
      end
  | Cls p =>
      match rest with
      | String x rest' => if p x then k (Some x) rest' (S n) g else None
      | EmptyString => None
      end
  | Seq a b =>
      run fl a prev rest n g (fun prev' rest' n' g' => run fl b prev' rest' n' g' k)
  | Alt a b => orElse (run fl a prev rest n g k) (run fl b prev rest n g k)
  | Rep p min true => repGreedy p min prev rest n g k
  | Rep p min false => repLazy p min prev rest n g k
  | Opt a => orElse (run fl a prev rest n g k) (k prev rest n g)
  | Grp a =>
      run fl a prev rest n g
          (fun prev' rest' n' _ => k prev' rest' n' (Some (n, (n' - n)%nat)))
  | Bol => if atLineStart fl prev then k prev rest n g else None
  | Eol => if atLineEnd fl rest then k prev rest n g else None
  end.

(** One attempt at the current position. *)
Definition execAt (fl : Flags) (r : regex)
    (prev : option ascii) (rest : string) : Outcome :=
  run fl r prev rest 0%nat None (fun _ _ n g => Some (n, g)).

(** A successful match, as the properties of a match array. *)
Record Match := {
  index : nat;                 (* match.index *)
  text : string;               (* match[0] *)
  group1 : option string       (* match[1] *)
}.

Definition mkMatch (i : nat) (rest : string) (o : nat * Capture) : Match :=
  {| index := i;
     text := take (fst o) rest;
     group1 := match snd o with
               | Some (a, l) => Some (take l (drop a rest))
               | None => None
               end |}.

(** [r.exec(s)] without the [g] flag: the leftmost match. *)
Fixpoint searchFrom (fl : Flags) (r : regex)
    (prev : option ascii) (rest : string) (i : nat) : option Match :=
  match execAt fl r prev rest with
  | Some o => Some (mkMatch i rest o)
  | None =>
      match rest with
      | String x rest' => searchFrom fl r (Some x) rest' (S i)
      | EmptyString => None
      end
  end.

Definition search (fl : Flags) (r : regex) (s : string) : option Match :=
  searchFrom fl r None s 0%nat.

Definition test (fl : Flags) (r : regex) (s : string) : bool :=
  match search fl r s with Some _ => true | None => false end.

(** All matches of a [g] pattern, left to right.  [skip] counts the
    characters that the previous match still covers; after an empty
    match the scan moves on by one character. *)
Fixpoint scan (fl : Flags) (r : regex)
    (prev : option ascii) (rest : string) (i skip : nat) : list Match :=
  match skip with
  | S skip' =>
      match rest with
      | String x rest' => scan fl r (Some x) rest' (S i) skip'
      | EmptyString => []
      end
  | O =>
      match execAt fl r prev rest with
      | Some o =>
          mkMatch i rest o ::
          match rest with
          | String x rest' => scan fl r (Some x) rest' (S i) (Nat.pred (fst o))
          | EmptyString => []
          end
      | None =>
          match rest with
          | String x rest' => scan fl r (Some x) rest' (S i) 0%nat
          | EmptyString => []
          end
      end
  end.

Definition matchAll (fl : Flags) (r : regex) (s : string) : list Match :=
  scan fl r None s 0%nat 0%nat.

(** The replacement text of one match.  The patterns [$$], [$&],
    [$`] and [$'] are expanded; [$1] .. [$99] stay as they are, since
    no pattern used with [replace] has a capturing group. *)
Fixpoint expand (repl matched before after : string) : string :=
  match repl with
  | EmptyString => EmptyString
  | String c r =>
      if ascii_eqb c "$" then
        match r with
        | String d r' =>
            if ascii_eqb d "$" then String "$" (expand r' matched before after)
            else if ascii_eqb d "&" then matched +:+ expand r' matched before after
            else if ascii_eqb d "`" then before +:+ expand r' matched before after
            else if ascii_eqb d "'" then after +:+ expand r' matched before after
            else String c (expand r matched before after)
        | EmptyString => String c EmptyString
        end
      else String c (expand r matched before after)
  end.

Definition substitute (subject repl : string) (m : Match) : string :=
  expand repl (text m) (take (index m) subject)
         (drop (index m + len (text m)) subject).

(** The subject with every listed match replaced; [pos] is the index in
    the subject of the first character of [s]. *)
Fixpoint splice (subject repl : string) (s : string) (pos : nat)
    (ms : list Match) : string :=
  match ms with
  | [] => s
  | m :: ms' =>
      take (index m - pos) s +:+ substitute subject repl m +:+
      splice subject repl (drop (index m - pos + len (text m)) s)
             (index m + len (text m)) ms'
  end.

(** [s.replace(r, repl)] for a pattern without and with the [g] flag. *)
Definition replaceFirst (fl : Flags) (r : regex) (s repl : string) : string :=
  match search fl r s with
  | Some m => splice s repl s 0%nat [m]
  | None => s
  end.

Definition replaceAll (fl : Flags) (r : regex) (s repl : string) : string :=
  splice s repl s 0%nat (matchAll fl r s).

End RegExp.

(** ** The platform, exceptions and the monad of methods *)

#[local] Set Warnings "-register-all".

(** JSON values, as far as the manifest needs them. *)
Inductive json : Type :=
| JNull
| JNum (n : nat)
| JStr (s : string)
| JArr (items : list json)
| JObj (fields : list (string * json)).

(** Every [throw] of the two classes, and the two exceptions that the
    platform raises in them. *)
Inductive Exn : Type :=
| EmptyInput                         (* Error('Input vuoto o non valido') *)
| NoHeadersFound                     (* Error('Nessuna intestazione numerata trovata! ...') *)
| InvalidConfig (messages : list string)
                                     (* Error('Configurazione non valida: ' + ...) *)
| ConfigNotLoaded                    (* Error('Configurazione non caricata o non valida') *)
| TypeError (callee : string)        (* x.map is not a function *)
| SyntaxError (pattern : string)     (* new RegExp(pattern): invalid pattern *)
| OutsideFragment (pattern : string)
                                     (* not an exception of the program: a pattern
                                        that [Platform.parse] does not cover *)
| Hangs (loop : string).             (* not an exception of the program: a loop
                                        that does not end *)

Inductive Result (A : Type) : Type :=
| Ok (a : A)
| Throw (e : Exn).
Arguments Ok {A} a.
Arguments Throw {A} e.

(** What the platform supplies.  The clock and the random generator are
    read through a counter of readings kept in the state, so that two
    readings may differ. *)
Record Env := {
  dateNow : nat -> string;           (* String(Date.now()) *)
  isoNow : nat -> string;            (* new Date().toISOString() *)
  random36 : nat -> string;          (* Math.random().toString(36).substr(2, 9) *)
  JSON_stringify : json -> string;   (* JSON.stringify(v, null, 2) *)
  dateParse : string -> Z;           (* new Date(s).getTime() *)
  RegExp_replace : string -> string -> string -> Result string
                                     (* subject.replace(new RegExp(pattern, 'g'), repl),
                                        as a function of pattern, subject, repl *)
}.

Module Method.

Definition M (St A : Type) : Type := St -> Result A * St.

Definition ret {St A} (a : A) : M St A := fun s => (Ok a, s).

Definition bind {St A B} (m : M St A) (f : A -> M St B) : M St B :=
  fun s =>
    match m s with
    | (Ok a, s') => f a s'
    | (Throw e, s') => (Throw e, s')
    end.

Definition throw {St A} (e : Exn) : M St A := fun s => (Throw e, s).

Definition get {St} : M St St := fun s => (Ok s, s).

Definition gets {St A} (f : St -> A) : M St A := fun s => (Ok (f s), s).

Definition modify {St} (f : St -> St) : M St unit := fun s => (Ok tt, f s).

Definition lift {St A} (r : Result A) : M St A := fun s => (r, s).

(** [xs.forEach(body)] *)
Fixpoint forEach {St A} (xs : list A) (body : A -> M St unit) : M St unit :=
  match xs with
  | [] => ret tt
  | x :: rest => bind (body x) (fun _ => forEach rest body)
  end.

(** [xs.forEach((x, index) => body)] *)
Fixpoint forEachIndexed {St A} (i : nat) (xs : list A)
    (body : nat -> A -> M St unit) : M St unit :=
  match xs with
  | [] => ret tt
  | x :: rest => bind (body i x) (fun _ => forEachIndexed (S i) rest body)
  end.

Definition when {St} (b : bool) (m : M St unit) : M St unit :=
  if b then m else ret tt.

End Method.

Declare Scope method_scope.
Delimit Scope method_scope with method.
Notation "x <- c1 ;; c2" := (Method.bind c1 (fun x => c2))
  (at level 100, c1 at next level, right associativity) : method_scope.
Notation "c1 ;; c2" := (Method.bind c1 (fun _ => c2))
  (at level 100, right associativity) : method_scope.

(** ** File records *)

Inductive Complexity : Type := low | medium | high | very_high.

Record Metadata := {
  hasPackageDeclaration : bool;
  hasImports : bool;
  isExecutable : bool;
  complexity : Complexity
}.

Inductive Status : Type :=
| pending | renamed | moved | extension_changed | copied | merged
| merged_source | split_result | split_source | content_updated.

Record Replacement := { find : string; replace : string }.

(** A rule of [contentUpdates]. *)
Record ContentUpdate := {
  replacements : option (list Replacement);
  addImports : option (list string);
  updatePackage : option string
}.

(** The value of a key of [mergeFiles]: the list of source names, or a
    string such as the value of the key [mergeStrategy]. *)
Inductive MergeValue : Type :=
| MSources (names : list string)
| MString (s : string).

(** The objects pushed on [file.operations] and, with two more fields,
    on the organization log. *)
Inductive Operation : Type :=
| OpRename (from to timestamp : string)
| OpChangeExtension (from to oldExtension newExtension timestamp : string)
| OpMove (from to folder timestamp : string)
| OpUpdateContent (file : string) (changes : ContentUpdate)
                  (sizeBefore sizeAfter : nat) (timestamp : string)
| OpCopy (originalFile copyPath copyId timestamp : string)
| OpMerge (sourceFiles : list string) (mergedFile : string)
          (strategy : option MergeValue) (timestamp : string)
| OpSplit (sourceFile : string) (splitFiles : list string)
          (strategy : option string) (timestamp : string)
| OpMergedInto (mergedFile timestamp : string)
| OpSplitInto (splitFiles : list string) (timestamp : string)
| OpSplitFromClass (sourceFile className timestamp : string)
| OpSplitFromPart (sourceFile : string) (partNumber : nat) (timestamp : string).

(** One record type serves both classes.  The extractor fills the first
    ten fields; [loadFiles] and the operations of the organizer fill the
    others. *)
Record FileRecord := {
  id : string;
  originalTitle : option string;
  fileName : string;
  extension : string;
  language : option string;
  content : string;
  size : nat;
  lines : nat;
  created : option string;
  metadata : option Metadata;
  originalPath : option string;
  currentPath : string;
  folderPath : option string;
  operations : list Operation;
  status : option Status;
  isCopy : bool;
  originalFileId : option string;
  isMerged : bool;
  sourceFileIds : list string;
  isSplit : bool;
  sourceFileId : option string
}.

(** ** CodeExtractor *)

Module CodeExtractor.
Import Str RegExp Method.
Local Open Scope method_scope.
Local Open Scope nat_scope.

(** *** The patterns of the constructor and of the methods *)

Definition ws1 : regex := Rep isWhiteSpace 1 true.     (* \s+ *)
Definition ws0 : regex := Rep isWhiteSpace 0 true.     (* \s* *)
Definition word1 : regex := Rep isWord 1 true.         (* \w+ *)
Definition isWordDash (c : ascii) : bool := isWord c || oneOf "-" c.  (* [\w-] *)
Definition isNameChar (c : ascii) : bool := isAlnum c || oneOf "_.-" c.
                                                       (* [A-Za-z0-9_.-] *)
Definition isStemChar (c : ascii) : bool := isAlnum c || oneOf "_-" c.
                                                       (* [A-Za-z0-9_-] *)
Definition isPackageChar (c : ascii) : bool := isAlnum c || oneOf "_." c.
                                                       (* [a-zA-Z0-9_.] *)

(** [/^\d+\.\s*(.+?)$/gm] *)
Definition numbered : regex :=
  seqs [Bol; Rep isDigit 1 true; Chr "."; ws0; Grp (Rep isDot 1 false); Eol].

(** [/([A-Za-z0-9_.-]+\.[a-zA-Z0-9]+)/] *)
Definition filename : regex :=
  Grp (seqs [Rep isNameChar 1 true; Chr "."; Rep isAlnum 1 true]).

(** [patterns.languages], in the order of the object literal; the flag
    is [i] for html and sql, [m] for yaml. *)
Definition languages : list (string * (Flags * regex)) :=
  [ ("kotlin", (noFlags,
       alts [Seq (lit "package") ws1;
             seqs [lit "class"; ws1; word1];
             Seq (lit "fun") ws1]));
    ("java", (noFlags,
       alts [seqs [lit "package"; ws1; Rep isDot 0 false; Chr ";"];
             seqs [lit "public"; ws1; lit "class"; ws1];
             Seq (lit "import") ws1]));
    ("javascript", (noFlags,
       alts [Seq (lit "function") ws1; Seq (lit "const") ws1;
             Seq (lit "let") ws1; Seq (lit "var") ws1;
             Seq (lit "=>") ws0]));
    ("html", (flagI,
       alts [lit "<!DOCTYPE"; lit "<html"; lit "<head"; lit "<body"]));
    ("css", (noFlags,
       alts [seqs [Chr "."; Rep isWordDash 1 true; ws0; Chr "{"];
             lit "@media"; lit "@import"]));
    ("json", (noFlags, seqs [Bol; ws0; Cls (oneOf "{[")]));
    ("xml", (noFlags,
       alts [seqs [Bol; ws0; lit "<?xml"];
             seqs [Chr "<"; Rep isWordDash 1 true;
                   Cls (fun c => isWhiteSpace c || oneOf ">" c)]]));
    ("sql", (flagI,
       Seq (alts [lit "SELECT"; lit "INSERT"; lit "UPDATE"; lit "DELETE";
                  lit "CREATE"; lit "ALTER"]) ws1));
    ("python", (noFlags,
       alts [Seq (lit "def") ws1; Seq (lit "import") ws1;
             seqs [lit "from"; ws1; Rep isDot 0 true; lit "import"];
             Seq (lit "class") ws1]));
    ("php", (noFlags,
       alts [lit "<?php"; Seq (lit "namespace") ws1;
             seqs [lit "class"; ws1; word1]]));
    ("yaml", (flagM,
       alts [seqs [Bol; Rep isWordDash 1 true; Chr ":"; ws0; Eol];
             seqs [Bol; ws0; Chr "-"; ws1]])) ].

(** [/^(KOTLIN|JAVA|...|TYPESCRIPT)\s*\n/i] *)
Definition languageMarkers : regex :=
  seqs [Bol;
        Grp (alts (map lit
          ["KOTLIN"; "JAVA"; "JAVASCRIPT"; "HTML"; "CSS"; "JSON"; "XML";
           "YAML"; "SQL"; "PYTHON"; "PHP"; "C++"; "C#"; "SWIFT"; "GO";
           "RUST"; "TYPESCRIPT"]));
        ws0; Chr LF].

(** [/^```[\w]*\n/] and [/\n```$/] *)
Definition fenceOpen : regex :=
  seqs [Bol; lit "```"; Rep isWord 0 true; Chr LF].
Definition fenceClose : regex := seqs [Chr LF; lit "```"; Eol].

(** The ten patterns of [specificPatterns], all with the flag [i]. *)
Definition specificPatterns : list regex :=
  map (fun ext => Grp (seqs [Rep isStemChar 1 true; Chr "."; lit ext]))
      ["kt"; "java"; "js"; "html"; "css"; "json"; "xml"; "sql"; "py"; "php"].

(** [/package\s+[a-zA-Z][a-zA-Z0-9_.]*/] *)
Definition packagePattern : regex :=
  seqs [lit "package"; ws1; Cls isAlpha; Rep isPackageChar 0 true].

(** *** State *)

Record ComplexityCounts := {
  n_low : nat; n_medium : nat; n_high : nat; n_very_high : nat
}.

Record Stats := {
  totalFiles : nat;
  totalSize : nat;
  byLanguage : gmap string nat;
  byExtension : gmap string nat;
  byComplexity : ComplexityCounts
}.

(** The fields of [this], and the number of readings of the clock and
    of the random generator made so far. *)
Record Extractor := {
  extractedFiles : list FileRecord;
  stats : Stats;
  readings : nat
}.

(** The state that the constructor sets up. *)
Definition newExtractor : Extractor :=
  {| extractedFiles := [];
     stats := {| totalFiles := 0; totalSize := 0;
                 byLanguage := ∅; byExtension := ∅;
                 byComplexity := {| n_low := 0; n_medium := 0;
                                    n_high := 0; n_very_high := 0 |} |};
     readings := 0 |}.

Record Options := {
  autoDetectLanguage : bool;
  generateConfig : bool;
  cleanCodeOpt : bool;
  validateSyntaxOpt : bool
}.

(** The defaults of the destructuring in [extractFiles]. *)
Definition defaultOptions : Options :=
  {| autoDetectLanguage := true; generateConfig := true;
     cleanCodeOpt := true; validateSyntaxOpt := false |}.

(** An entry of the array built by [findHeaders]. *)
Record Header := {
  title : string;
  hIndex : nat;
  fullMatch : string
}.

(** *** Methods *)

Definition resetStats : M Extractor unit :=
  modify (fun this =>
    {| extractedFiles := extractedFiles this;
       stats := {| totalFiles := 0; totalSize := 0;
                   byLanguage := ∅; byExtension := ∅;
                   byComplexity := {| n_low := 0; n_medium := 0;
                                      n_high := 0; n_very_high := 0 |} |};
       readings := readings this |}).

Definition bump (k : string) (m : gmap string nat) : gmap string nat :=
  <[k := default 0 (m !! k) + 1]> m.

Definition bumpComplexity (c : Complexity) (n : ComplexityCounts)
    : ComplexityCounts :=
  match c with
  | low => {| n_low := n_low n + 1; n_medium := n_medium n;
              n_high := n_high n; n_very_high := n_very_high n |}
  | medium => {| n_low := n_low n; n_medium := n_medium n + 1;
                 n_high := n_high n; n_very_high := n_very_high n |}
  | high => {| n_low := n_low n; n_medium := n_medium n;
               n_high := n_high n + 1; n_very_high := n_very_high n |}
  | very_high => {| n_low := n_low n; n_medium := n_medium n;
                    n_high := n_high n; n_very_high := n_very_high n + 1 |}
  end.

Definition fileComplexity (f : FileRecord) : Complexity :=
  match metadata f with Some m => complexity m | None => low end.

Definition updateStats (fileData : FileRecord) : M Extractor unit :=
  modify (fun this =>
    let s := stats this in
    {| extractedFiles := extractedFiles this;
       stats :=
         {| totalFiles := totalFiles s + 1;
            totalSize := totalSize s + size fileData;
            byLanguage :=
              match language fileData with
              | Some l => if truthy l then bump l (byLanguage s)
                          else byLanguage s
              | None => byLanguage s
              end;
            byExtension := bump (extension fileData) (byExtension s);
            byComplexity :=
              bumpComplexity (fileComplexity fileData) (byComplexity s) |};
       readings := readings this |}).

Definition push (fileData : FileRecord) : M Extractor unit :=
  modify (fun this =>
    {| extractedFiles := extractedFiles this ++ [fileData];
       stats := stats this;
       readings := readings this |}).

(** A reading of the clock or of the random generator. *)
Definition tick : M Extractor nat :=
  fun this =>
    (Ok (readings this),
     {| extractedFiles := extractedFiles this;
        stats := stats this;
        readings := readings this + 1 |}).

Definition generateFileId (E : Env) : M Extractor string :=
  t <- tick ;;
  ret ("file_" +:+ dateNow E t +:+ "_" +:+ random36 E t).

Definition newDateISO (E : Env) : M Extractor string :=
  t <- tick ;; ret (isoNow E t).

(** [headers.sort((a, b) => a.index - b.index)]: a stable sort. *)
Fixpoint insertHeader (h : Header) (hs : list Header) : list Header :=
  match hs with
  | [] => [h]
  | x :: rest =>
      if hIndex h <=? hIndex x then h :: x :: rest
      else x :: insertHeader h rest
  end.

Definition sortHeaders (hs : list Header) : list Header :=
  foldr insertHeader [] hs.

Definition findHeaders (input : string) : list Header :=
  let numberedMatches := matchAll flagM numbered input in
  let headers :=
    map (fun m => {| title := trim (default "" (group1 m));
                     hIndex := index m;
                     fullMatch := text m |}) numberedMatches in
  sortHeaders headers.

Definition cleanCode (content : string) : string :=
  let content := replaceFirst flagI languageMarkers content "" in
  let content := replaceFirst noFlags fenceClose
                   (replaceFirst noFlags fenceOpen content "") "" in
  trim content.

Definition firstGroup (fl : Flags) (r : regex) (s : string) : option string :=
  match search fl r s with
  | Some m => group1 m
  | None => None
  end.

Fixpoint firstSpecific (ps : list regex) (title : string) : option string :=
  match ps with
  | [] => None
  | p :: rest =>
      match firstGroup flagI p title with
      | Some n => Some n
      | None => firstSpecific rest title
      end
  end.

Definition orDefault (s d : string) : string := if truthy s then s else d.

Definition extractFileName (title : string) : string :=
  match firstGroup noFlags filename title with
  | Some n => n
  | None =>
      match firstSpecific specificPatterns title with
      | Some n => n
      | None =>
          orDefault
            (toLowerCase
               (replaceAll noFlags ws1
                  (replaceAll noFlags (Cls (fun c => negb (isNameChar c)))
                              title "")
                  "_"))
            "file"
      end
  end.

Definition detectLanguage (content : string) : option string :=
  match list_find (fun e => test (fst (snd e)) (snd (snd e)) content = true)
                  languages with
  | Some (_, (language, _)) => Some language
  | None =>
      if includes content "<?xml" then Some "xml"
      else if includes content "<!DOCTYPE" || includes content "<html"
      then Some "html"
      else if startsWith (trim content) "{" || startsWith (trim content) "["
      then Some "json"
      else if includes content "function " || includes content "=>"
      then Some "javascript"
      else None
  end.

Definition languageExtensions : list (string * string) :=
  [("kotlin", "kt"); ("java", "java"); ("javascript", "js");
   ("html", "html"); ("css", "css"); ("json", "json"); ("xml", "xml");
   ("sql", "sql"); ("python", "py"); ("php", "php"); ("yaml", "yml")].

Fixpoint lookup (k : string) (kvs : list (string * string)) : option string :=
  match kvs with
  | [] => None
  | (k', v) :: rest => if String.eqb k k' then Some v else lookup k rest
  end.

Definition buildFileName (fileName : string)
    (detectedLanguage : option string) : string :=
  if includes fileName "." then fileName
  else
    let extension :=
      match detectedLanguage with
      | Some l => if truthy l
                  then orDefault (default "" (lookup l languageExtensions)) "txt"
                  else "txt"
      | None => "txt"
      end in
    fileName +:+ "." +:+ extension.

Definition getFileExtension (fileName : string) : string :=
  if includes fileName "."
  then toLowerCase (default "" (last (splitChar "." fileName)))
  else "txt".

Definition hasPackage (content : string) : bool :=
  test noFlags packagePattern content.

Definition hasImport (content : string) : bool :=
  test noFlags (Seq (lit "import") ws1) content
  || test noFlags (seqs [lit "#include"; ws0; Chr "<"]) content.

Definition isExecutableCode (content extension : string) : bool :=
  if negb (existsb (String.eqb extension)
             ["kt"; "java"; "js"; "py"; "php"; "cpp"; "c"; "go"; "rs"])
  then false
  else test noFlags (seqs [lit "main"; ws0; Chr "("]) content
       || test noFlags (seqs [lit "onCreate"; ws0; Chr "("]) content
       || test noFlags (seqs [lit "function"; ws1; lit "main"]) content.

Definition calculateComplexity (content : string) : Complexity :=
  let lines := length (List.filter (fun line => truthy (trim line))
                                   (splitChar LF content)) in
  let functions :=
    length (matchAll noFlags
              (alts [seqs [lit "function"; ws1; word1];
                     seqs [lit "fun"; ws1; word1];
                     seqs [lit "def"; ws1; word1]]) content) in
  let classes :=
    length (matchAll noFlags (seqs [lit "class"; ws1; word1]) content) in
  let complexity := lines + functions * 5 + classes * 10 in
  if complexity <? 50 then low
  else if complexity <? 200 then medium
  else if complexity <? 500 then high
  else very_high.

(** The text of a section, as [extractFileSection] first computes it:
    from the end of the header to the start of the next header, or to
    the end of the input, trimmed. *)
Definition sectionContent (input : string) (currentHeader : Header)
    (nextHeader : option Header) : string :=
  let startIndex := hIndex currentHeader + len (fullMatch currentHeader) in
  let endIndex := match nextHeader with
                  | Some next => hIndex next
                  | None => len input
                  end in
  trim (substring input (Z.of_nat startIndex) (Z.of_nat endIndex)).

(** [options.validateSyntax] only writes to the console; it is left out. *)
Definition extractFileSection (E : Env) (input : string)
    (currentHeader : Header) (nextHeader : option Header)
    (options : Options) : M Extractor (option FileRecord) :=
  let content := sectionContent input currentHeader nextHeader in
  if isEmpty content then ret None
  else
    let content := if cleanCodeOpt options then cleanCode content
                   else content in
    let fileName := extractFileName (title currentHeader) in
    let detectedLanguage :=
      if autoDetectLanguage options then detectLanguage content else None in
    let finalFileName := buildFileName fileName detectedLanguage in
    let fileExtension := getFileExtension finalFileName in
    newId <- generateFileId E ;;
    now <- newDateISO E ;;
    ret (Some
      {| id := newId;
         originalTitle := Some (title currentHeader);
         fileName := finalFileName;
         extension := fileExtension;
         language := detectedLanguage;
         content := content;
         size := blobSize content;
         lines := length (splitChar LF content);
         created := Some now;
         metadata := Some
           {| hasPackageDeclaration := hasPackage content;
              hasImports := hasImport content;
              isExecutable := isExecutableCode content fileExtension;
              complexity := calculateComplexity content |};
         originalPath := None; currentPath := ""; folderPath := None;
         operations := []; status := None;
         isCopy := false; originalFileId := None;
         isMerged := false; sourceFileIds := [];
         isSplit := false; sourceFileId := None |}).

Definition chr (n : nat) : string := String (ascii_of_nat n) EmptyString.

Definition lowerIncludes (f : FileRecord) (p : string) : bool :=
  includes (toLowerCase (fileName f)) p.

(** [/\.[^.]+$/] *)
Definition lastSuffix : regex :=
  seqs [Chr "."; Rep (noneOf ".") 1 true; Eol].

Definition guessProjectName (files : list FileRecord) : string :=
  match List.find (fun file => lowerIncludes file "main"
                            || lowerIncludes file "app"
                            || lowerIncludes file "index") files with
  | Some mainFile =>
      replaceFirst flagI (alts [lit "main"; lit "app"; lit "index"])
        (replaceFirst noFlags lastSuffix (fileName mainFile) "")
        "Project"
  | None => "ExtractedProject"
  end.

Record Structure := {
  s_root : list string; s_src : list string;
  s_assets : list string; s_config : list string
}.

Definition inList (x : string) (xs : list string) : bool :=
  existsb (String.eqb x) xs.

Definition placeFile (st : Structure) (file : FileRecord) : Structure :=
  let ext := extension file in
  let name := fileName file in
  if inList ext ["kt"; "java"] then
    {| s_root := s_root st; s_src := s_src st ++ [name];
       s_assets := s_assets st; s_config := s_config st |}
  else if inList ext ["xml"] then
    if includes name "layout" then
      {| s_root := s_root st; s_src := s_src st;
         s_assets := s_assets st ++ ["res/layout/" +:+ name];
         s_config := s_config st |}
    else
      {| s_root := s_root st; s_src := s_src st;
         s_assets := s_assets st; s_config := s_config st ++ [name] |}
  else if inList ext ["gradle"; "json"; "properties"] then
    {| s_root := s_root st; s_src := s_src st;
       s_assets := s_assets st; s_config := s_config st ++ [name] |}
  else if inList ext ["html"; "css"; "js"] then
    {| s_root := s_root st; s_src := s_src st;
       s_assets := s_assets st ++ [name]; s_config := s_config st |}
  else
    {| s_root := s_root st ++ [name]; s_src := s_src st;
       s_assets := s_assets st; s_config := s_config st |}.

Definition generateProjectStructure (files : list FileRecord) : Structure :=
  fold_left placeFile files
    {| s_root := []; s_src := []; s_assets := []; s_config := [] |}.

Record Recommendation := {
  r_type : string; r_severity : string;
  r_message : string; r_suggestion : string
}.

Definition isHighComplexity (f : FileRecord) : bool :=
  match metadata f with
  | Some m => match complexity m with
              | high | very_high => true
              | _ => false
              end
  | None => false
  end.

Definition generateRecommendations (files : list FileRecord) (st : Stats)
    : list Recommendation :=
  let hasMainActivity := existsb (fun f => lowerIncludes f "mainactivity") files in
  let hasManifest := existsb (fun f => lowerIncludes f "manifest") files in
  let hasGradle := existsb (fun f => includes (fileName f) "gradle") files in
  let kotlin := negb (default 0 (byLanguage st !! "kotlin") =? 0) in
  let highComplexityFiles := List.filter isHighComplexity files in
  (if negb hasMainActivity && kotlin then
     [{| r_type := "missing_file"; r_severity := "warning";
         r_message := "Manca MainActivity.kt per progetto Android";
         r_suggestion :=
           "Aggiungi una MainActivity per il punto di ingresso dell'app" |}]
   else []) ++
  (if negb hasManifest && kotlin then
     [{| r_type := "missing_file"; r_severity := "error";
         r_message := "Manca AndroidManifest.xml";
         r_suggestion := "Il manifest " +:+ chr 232 +:+
                         " obbligatorio per progetti Android" |}]
   else []) ++
  (if negb hasGradle && kotlin then
     [{| r_type := "missing_file"; r_severity := "warning";
         r_message := "Manca build.gradle";
         r_suggestion := "Aggiungi configurazione Gradle per il build" |}]
   else []) ++
  (if 0 <? length highComplexityFiles then
     [{| r_type := "code_quality"; r_severity := "info";
         r_message := ofNat (length highComplexityFiles) +:+
                      " file con alta complessit" +:+ chr 224;
         r_suggestion :=
           "Considera di suddividere file complessi in moduli pi" +:+
           chr 249 +:+ " piccoli" |}]
   else []).

Definition complexityName (c : Complexity) : string :=
  match c with
  | low => "low" | medium => "medium"
  | high => "high" | very_high => "very_high"
  end.

Definition jsonOfOption (o : option string) : json :=
  match o with Some s => JStr s | None => JNull end.

(** The object [config] of [generateConfigFile]. *)
Definition manifest (files : list FileRecord) (st : Stats) (now : string)
    : json :=
  let structure := generateProjectStructure files in
  JObj
    [ ("projectName", JStr (guessProjectName files));
      ("description", JStr "Progetto generato automaticamente");
      ("version", JStr "1.0.0");
      ("generator", JStr "Universal Project Builder v2.0");
      ("timestamp", JStr now);
      ("files", JArr (map (fun file =>
          JObj [ ("name", JStr (fileName file));
                 ("language", jsonOfOption (language file));
                 ("size", JNum (size file));
                 ("complexity", JStr (complexityName (fileComplexity file))) ])
          files));
      ("structure", JObj
          [ ("root", JArr (map JStr (s_root structure)));
            ("src", JArr (map JStr (s_src structure)));
            ("assets", JArr (map JStr (s_assets structure)));
            ("config", JArr (map JStr (s_config structure))) ]);
      ("recommendations", JArr (map (fun r =>
          JObj [ ("type", JStr (r_type r));
                 ("severity", JStr (r_severity r));
                 ("message", JStr (r_message r));
                 ("suggestion", JStr (r_suggestion r)) ])
          (generateRecommendations files st))) ].

Definition generateConfigFile (E : Env) : M Extractor FileRecord :=
  now <- newDateISO E ;;
  this <- get ;;
  let text := JSON_stringify E
                (manifest (extractedFiles this) (stats this) now) in
  newId <- generateFileId E ;;
  created <- newDateISO E ;;
  ret {| id := newId;
         originalTitle := Some "Configurazione Progetto";
         fileName := "project-config.json";
         extension := "json";
         language := Some "json";
         content := text;
         size := len text;
         lines := length (splitChar LF text);
         created := Some created;
         metadata := Some
           {| hasPackageDeclaration := false; hasImports := false;
              isExecutable := false; complexity := low |};
         originalPath := None; currentPath := ""; folderPath := None;
         operations := []; status := None;
         isCopy := false; originalFileId := None;
         isMerged := false; sourceFileIds := [];
         isSplit := false; sourceFileId := None |}.

(** The loop of [extractFiles] over [headers[i]] and [headers[i + 1]]. *)
Fixpoint extractSections (E : Env) (input : string) (options : Options)
    (headers : list Header) : M Extractor unit :=
  match headers with
  | [] => ret tt
  | currentHeader :: rest =>
      fileData <- extractFileSection E input currentHeader (head rest) options ;;
      match fileData with
      | Some f => push f ;; updateStats f
      | None => ret tt
      end ;;
      extractSections E input options rest
  end.

Definition clearFiles : M Extractor unit :=
  modify (fun this =>
    {| extractedFiles := []; stats := stats this;
       readings := readings this |}).

Definition extractFiles (E : Env) (input : string) (options : Options)
    : M Extractor (list FileRecord) :=
  if isEmpty input || isEmpty (trim input) then throw EmptyInput
  else
    clearFiles ;;
    resetStats ;;
    let headers := findHeaders input in
    if length headers =? 0 then throw NoHeadersFound
    else
      extractSections E input options headers ;;
      this <- get ;;
      when (generateConfig options && (0 <? length (extractedFiles this)))
           (configFile <- generateConfigFile E ;; push configFile) ;;
      gets extractedFiles.

End CodeExtractor.

(** ** FileOrganizer *)

Module FileOrganizer.
Import Str RegExp Method.
Local Open Scope method_scope.
Local Open Scope nat_scope.

(** *** Configuration *)

Record Modifications := {
  packageName : option string;
  className : option string;
  imports : option (list string)
}.

Record Location := {
  folder : option string;
  name : option string;
  modifications : option Modifications
}.

(** [linesPerFile] is an integer; with a negative one the loop of
    [by_lines] does not end. *)
Record SplitConfig := {
  strategy : option string;
  linesPerFile : option Z
}.

(** The configuration object.  A section is [None] when the key is
    absent; [otherKeys] lists the remaining top-level keys.  The values
    have the shape that the operations expect; a value that is not an
    object at all is the [None] of [validateAndNormalizeConfig]. *)
Record Configuration := {
  fileRenames : option (list (string * string));
  extensionChanges : option (list (string * string));
  folderMappings : option (list (string * string));
  contentUpdates : option (list (string * ContentUpdate));
  copyToMultipleLocations : option (list (string * list Location));
  mergeFiles : option (list (string * MergeValue));
  splitFiles : option (list (string * SplitConfig));
  otherKeys : list string
}.

Record ValidatedConfig := {
  isValid : bool;
  errors : list string;
  warnings : list string;
  data : option Configuration
}.

(** *** State *)

Record LogEntry := {
  op : Operation;
  dryRun : bool;
  logId : string
}.

Record ValidationStats := {
  vs_totalFiles : nat; vs_renamedFiles : nat; vs_movedFiles : nat;
  vs_copiedFiles : nat; vs_mergedFiles : nat; vs_splitFiles : nat
}.

Record Validation := {
  v_errors : list string;
  v_warnings : list string;
  v_stats : ValidationStats
}.

Record Recommendation := {
  r_type : string; r_severity : string;
  r_message : string; r_suggestion : string
}.

Record ReportOperation := {
  ro_type : string; ro_description : string;
  ro_timestamp : string; ro_dryRun : bool
}.

Record ReportFile := {
  rf_fileName : string; rf_currentPath : string;
  rf_originalPath : option string; rf_status : option Status;
  rf_operations : nat; rf_size : nat; rf_isGenerated : bool
}.

Record Report := {
  rp_totalFiles : nat; rp_totalOperations : nat;
  rp_timestamp : string; rp_duration : Z;
  rp_operations : list ReportOperation;
  rp_files : list ReportFile;
  rp_validation : option Validation;
  rp_recommendations : list Recommendation
}.

(** The fields of [this], and the number of readings of the clock and
    of the random generator made so far. *)
Record Organizer := {
  files : list FileRecord;
  config : option ValidatedConfig;
  organizationLog : list LogEntry;
  validationResults : option Validation;
  organizationReport : option Report;
  readings : nat
}.

Record Options := {
  dryRunOpt : bool;
  validateResults : bool;
  generateReport : bool
}.

Definition defaultOptions : Options :=
  {| dryRunOpt := false; validateResults := true; generateReport := true |}.

(** *** Assignments to the fields of a record and of [this] *)

Definition mapFile (fName : string -> string) (fPath : string -> string)
    (fExt : string -> string) (fContent : string -> string)
    (fSize : nat -> nat) (fFolder : option string -> option string)
    (fOps : list Operation -> list Operation)
    (fStatus : option Status -> option Status) (f : FileRecord)
    : FileRecord :=
  {| id := id f; originalTitle := originalTitle f;
     fileName := fName (fileName f); extension := fExt (extension f);
     language := language f; content := fContent (content f);
     size := fSize (size f); lines := lines f; created := created f;
     metadata := metadata f; originalPath := originalPath f;
     currentPath := fPath (currentPath f);
     folderPath := fFolder (folderPath f);
     operations := fOps (operations f); status := fStatus (status f);
     isCopy := isCopy f; originalFileId := originalFileId f;
     isMerged := isMerged f; sourceFileIds := sourceFileIds f;
     isSplit := isSplit f; sourceFileId := sourceFileId f |}.

Definition keep {A} (x : A) : A := x.
Definition set {A} (v : A) (_ : A) : A := v.
Definition pushOp (o : Operation) (os : list Operation) : list Operation :=
  os ++ [o].

Definition setFiles (fs : list FileRecord) (this : Organizer) : Organizer :=
  {| files := fs; config := config this;
     organizationLog := organizationLog this;
     validationResults := validationResults this;
     organizationReport := organizationReport this;
     readings := readings this |}.

Definition setConfig (c : option ValidatedConfig) (this : Organizer)
    : Organizer :=
  {| files := files this; config := c;
     organizationLog := organizationLog this;
     validationResults := validationResults this;
     organizationReport := organizationReport this;
     readings := readings this |}.

Definition setLog (l : list LogEntry) (this : Organizer) : Organizer :=
  {| files := files this; config := config this;
     organizationLog := l;
     validationResults := validationResults this;
     organizationReport := organizationReport this;
     readings := readings this |}.

Definition setValidation (v : option Validation) (this : Organizer)
    : Organizer :=
  {| files := files this; config := config this;
     organizationLog := organizationLog this;
     validationResults := v;
     organizationReport := organizationReport this;
     readings := readings this |}.

Definition setReport (r : option Report) (this : Organizer) : Organizer :=
  {| files := files this; config := config this;
     organizationLog := organizationLog this;
     validationResults := validationResults this;
     organizationReport := r;
     readings := readings this |}.

Definition setReadings (n : nat) (this : Organizer) : Organizer :=
  {| files := files this; config := config this;
     organizationLog := organizationLog this;
     validationResults := validationResults this;
     organizationReport := organizationReport this;
     readings := n |}.

(** An assignment through a reference obtained from [this.files]: the
    reference is the position of the record in the array. *)
Definition mutate (i : nat) (f : FileRecord -> FileRecord)
    : M Organizer unit :=
  modify (fun this => setFiles (alter f i (files this)) this).

Definition pushFile (f : FileRecord) : M Organizer unit :=
  modify (fun this => setFiles (files this ++ [f]) this).

Definition tick : M Organizer nat :=
  fun this => (Ok (readings this), setReadings (readings this + 1) this).

Definition generateId (E : Env) : M Organizer string :=
  t <- tick ;;
  ret ("file_" +:+ dateNow E t +:+ "_" +:+ random36 E t).

Definition newDateISO (E : Env) : M Organizer string :=
  t <- tick ;; ret (isoNow E t).

Definition logOperation (E : Env) (operation : Operation) (dryRun : bool)
    : M Organizer unit :=
  newId <- generateId E ;;
  modify (fun this =>
    setLog (organizationLog this ++
            [{| op := operation; dryRun := dryRun; logId := newId |}]) this).

(** *** Helpers *)

Definition matchesName (fileName' : string) (file : FileRecord) : bool :=
  String.eqb (fileName file) fileName'
  || match originalPath file with
     | Some p => String.eqb p fileName'
     | None => false
     end
  || String.eqb (currentPath file) fileName'.

(** [this.files.find(...)]: the position and the record, or nothing. *)
Definition findIn (fs : list FileRecord) (fileName' : string)
    : option (nat * FileRecord) :=
  list_find (fun file => matchesName fileName' file = true) fs.

Definition findFileByName (fileName' : string)
    : M Organizer (option (nat * FileRecord)) :=
  gets (fun this => findIn (files this) fileName').

Definition truthyOpt (o : option string) : bool :=
  match o with Some s => truthy s | None => false end.

Definition joinPath (folderPath : option string) (fileName' : string)
    : string :=
  match folderPath with
  | Some p =>
      if isEmpty p then fileName'
      else if endsWith p "/" then p +:+ fileName'
      else p +:+ "/" +:+ fileName'
  | None => fileName'
  end.

Definition getFileExtension (fileName' : string) : string :=
  if includes fileName' "."
  then toLowerCase (default "" (last (splitChar "." fileName')))
  else "txt".

Definition orName (o : option string) (d : string) : string :=
  match o with
  | Some s => if truthy s then s else d
  | None => d
  end.

Definition importLines (imps : list string) : string :=
  join nl (map (fun imp => "import " +:+ imp +:+ ";") imps).

(** *** loadFiles *)

Fixpoint loadEach (E : Env) (fs : list FileRecord)
    : M Organizer (list FileRecord) :=
  match fs with
  | [] => ret []
  | file :: rest =>
      newId <- (if truthy (id file) then ret (id file) else generateId E) ;;
      rest' <- loadEach E rest ;;
      ret ({| id := newId; originalTitle := originalTitle file;
              fileName := fileName file; extension := extension file;
              language := language file; content := content file;
              size := size file; lines := lines file;
              created := created file; metadata := metadata file;
              originalPath := Some (fileName file);
              currentPath := fileName file;
              folderPath := folderPath file;
              operations := []; status := Some pending;
              isCopy := isCopy file; originalFileId := originalFileId file;
              isMerged := isMerged file; sourceFileIds := sourceFileIds file;
              isSplit := isSplit file; sourceFileId := sourceFileId file |}
           :: rest')
  end.

Definition loadFiles (E : Env) (fs : list FileRecord) : M Organizer unit :=
  loaded <- loadEach E fs ;;
  modify (setFiles loaded).

(** *** The seven operations *)

Definition applyFileRenames (E : Env) (config : list (string * string))
    (dryRun : bool) : M Organizer unit :=
  forEach config (fun '(oldName, newName) =>
    found <- findFileByName oldName ;;
    match found with
    | Some (i, file) =>
        now <- newDateISO E ;;
        let operation := OpRename (currentPath file) newName now in
        when (negb dryRun)
          (mutate i (mapFile (set newName) (set newName) keep keep keep keep
                             (pushOp operation) (set (Some renamed)))) ;;
        logOperation E operation dryRun
    | None => ret tt
    end).

Definition applyExtensionChanges (E : Env) (config : list (string * string))
    (dryRun : bool) : M Organizer unit :=
  forEach config (fun '(fileName', newExtension) =>
    found <- findFileByName fileName' ;;
    match found with
    | Some (i, file) =>
        let baseName := substring fileName' 0%Z (lastIndexOf fileName' ".") in
        let newFileName := baseName +:+ "." +:+ newExtension in
        now <- newDateISO E ;;
        let operation :=
          OpChangeExtension (currentPath file) newFileName (extension file)
                            newExtension now in
        when (negb dryRun)
          (mutate i (mapFile (set newFileName) (set newFileName)
                             (set newExtension) keep keep keep
                             (pushOp operation)
                             (set (Some extension_changed)))) ;;
        logOperation E operation dryRun
    | None => ret tt
    end).

Definition applyFolderMappings (E : Env) (config : list (string * string))
    (dryRun : bool) : M Organizer unit :=
  forEach config (fun '(fileName', folderPath') =>
    found <- findFileByName fileName' ;;
    match found with
    | Some (i, file) =>
        let newPath := joinPath (Some folderPath') (fileName file) in
        now <- newDateISO E ;;
        let operation := OpMove (currentPath file) newPath folderPath' now in
        when (negb dryRun)
          (mutate i (mapFile keep (set newPath) keep keep keep
                             (set (Some folderPath'))
                             (pushOp operation) (set (Some moved)))) ;;
        logOperation E operation dryRun
    | None => ret tt
    end).

(** [updates.replacements.forEach(...)] on the local [newContent]. *)
Fixpoint applyReplacements (E : Env) (rs : list Replacement)
    (newContent : string) : Result string :=
  match rs with
  | [] => Ok newContent
  | replacement :: rest =>
      match RegExp_replace E (find replacement) newContent
                           (replace replacement) with
      | Ok c => applyReplacements E rest c
      | Throw e => Throw e
      end
  end.

Definition applyContentUpdates (E : Env)
    (config : list (string * ContentUpdate)) (dryRun : bool)
    : M Organizer unit :=
  forEach config (fun '(fileName', updates) =>
    found <- findFileByName fileName' ;;
    match found with
    | Some (i, file) =>
        newContent <- lift (match replacements updates with
                            | Some rs => applyReplacements E rs (content file)
                            | None => Ok (content file)
                            end) ;;
        let newContent :=
          match addImports updates with
          | Some imps => importLines imps +:+ nl +:+ nl +:+ newContent
          | None => newContent
          end in
        let newContent :=
          if truthyOpt (updatePackage updates)
          then replaceFirst noFlags CodeExtractor.packagePattern newContent
                 ("package " +:+ default "" (updatePackage updates))
          else newContent in
        now <- newDateISO E ;;
        let operation :=
          OpUpdateContent fileName' updates (len (content file))
                          (len newContent) now in
        when (negb dryRun)
          (mutate i (mapFile keep keep keep (set newContent)
                             (set (blobSize newContent)) keep
                             (pushOp operation)
                             (set (Some content_updated)))) ;;
        logOperation E operation dryRun
    | None => ret tt
    end).

Definition setContent (c : string) (f : FileRecord) : FileRecord :=
  mapFile keep keep keep (set c) keep keep keep keep f.

Definition applyModificationsToCopy (E : Env) (fileCopy : FileRecord)
    (m : Modifications) : Result FileRecord :=
  let fileCopy :=
    if truthyOpt (packageName m)
    then setContent
           (replaceFirst noFlags CodeExtractor.packagePattern
              (content fileCopy)
              ("package " +:+ default "" (packageName m))) fileCopy
    else fileCopy in
  match
    (if truthyOpt (className m)
     then
       let oldClassName :=
         replaceFirst noFlags CodeExtractor.lastSuffix (fileName fileCopy) "" in
       match RegExp_replace E ("class\s+" +:+ oldClassName)
                            (content fileCopy)
                            ("class " +:+ default "" (className m)) with
       | Ok c => Ok (setContent c fileCopy)
       | Throw e => Throw e
       end
     else Ok fileCopy)
  with
  | Ok fileCopy =>
      Ok match imports m with
         | Some imps =>
             setContent (importLines imps +:+ nl +:+ nl +:+ content fileCopy)
                        fileCopy
         | None => fileCopy
         end
  | Throw e => Throw e
  end.

Definition applyCopyToMultipleLocations (E : Env)
    (config : list (string * list Location)) (dryRun : bool)
    : M Organizer unit :=
  forEach config (fun '(fileName', locations) =>
    found <- findFileByName fileName' ;;
    match found with
    | Some (_, originalFile) =>
        forEachIndexed 0 locations (fun index location =>
          let copyId := id originalFile +:+ "_copy_" +:+ ofNat index in
          let copyName := orName (name location) fileName' in
          let copyPath := joinPath (folder location) copyName in
          now <- newDateISO E ;;
          let operation := OpCopy fileName' copyPath copyId now in
          when (negb dryRun)
            (let fileCopy :=
               {| id := copyId; originalTitle := originalTitle originalFile;
                  fileName := copyName; extension := extension originalFile;
                  language := language originalFile;
                  content := content originalFile;
                  size := size originalFile; lines := lines originalFile;
                  created := created originalFile;
                  metadata := metadata originalFile;
                  originalPath := originalPath originalFile;
                  currentPath := copyPath;
                  folderPath := folder location;
                  operations := [operation]; status := Some copied;
                  isCopy := true; originalFileId := Some (id originalFile);
                  isMerged := isMerged originalFile;
                  sourceFileIds := sourceFileIds originalFile;
                  isSplit := isSplit originalFile;
                  sourceFileId := sourceFileId originalFile |} in
             fileCopy <- lift (match modifications location with
                               | Some m => applyModificationsToCopy E fileCopy m
                               | None => Ok fileCopy
                               end) ;;
             pushFile fileCopy) ;;
          logOperation E operation dryRun)
    | None => ret tt
    end).

(** [/package\s+[^;]+;?/] and [/import\s+[^;]+;?/], and the two with a
    trailing [\s*]. *)
Definition packageDecl : regex :=
  seqs [lit "package"; Rep isWhiteSpace 1 true; Rep (noneOf ";") 1 true;
        Opt (Chr ";")].
Definition importDecl : regex :=
  seqs [lit "import"; Rep isWhiteSpace 1 true; Rep (noneOf ";") 1 true;
        Opt (Chr ";")].
Definition packageStrip : regex := Seq packageDecl (Rep isWhiteSpace 0 true).
Definition importStrip : regex := Seq importDecl (Rep isWhiteSpace 0 true).

(** [set.add(x)] on a [Set], which keeps the order of first insertion. *)
Definition setAdd (set' : list string) (x : string) : list string :=
  if existsb (String.eqb x) set' then set' else set' ++ [x].

Definition matchedTexts (r : regex) (s : string) : list string :=
  map text (matchAll noFlags r s).

Definition firstText (r : regex) (s : string) : string :=
  match search noFlags r s with
  | Some m => text m
  | None => ""
  end.

Definition mergeFileContents (sourceFiles : list FileRecord)
    (strategy' : MergeValue) : string :=
  match strategy' with
  | MString st =>
      if String.eqb st "concatenate" then
        join (nl +:+ nl) (map content sourceFiles)
      else if String.eqb st "package_merge" then
        let packageDeclaration :=
          firstText packageDecl
            (match sourceFiles with f :: _ => content f | [] => "" end) in
        let allImports :=
          fold_left (fun acc file =>
                       fold_left setAdd
                                 (matchedTexts importDecl (content file)) acc)
                    sourceFiles [] in
        let allContent :=
          map (fun file =>
                 trim (replaceAll noFlags importStrip
                         (replaceFirst noFlags packageStrip (content file) "")
                         ""))
              sourceFiles in
        join nl (List.filter truthy
                   [packageDeclaration; ""; join nl allImports; "";
                    join (nl +:+ nl) allContent])
      else if String.eqb st "section_merge" then
        join (nl +:+ nl)
             (map (fun f => "// === " +:+ fileName f +:+ " ===" +:+ nl +:+
                            content f +:+ nl +:+
                            "// === End " +:+ fileName f +:+ " ===")
                  sourceFiles)
      else join nl (map content sourceFiles)
  | MSources _ => join nl (map content sourceFiles)
  end.

Fixpoint lookupMerge (k : string) (config : list (string * MergeValue))
    : option MergeValue :=
  match config with
  | [] => None
  | (k', v) :: rest => if String.eqb k k' then Some v else lookupMerge k rest
  end.

(** [config.mergeStrategy || 'concatenate'] *)
Definition strategyOrDefault (v : option MergeValue) : MergeValue :=
  match v with
  | Some (MString s) => if truthy s then MString s else MString "concatenate"
  | Some (MSources l) => MSources l
  | None => MString "concatenate"
  end.

Definition applyMergeFiles (E : Env) (config : list (string * MergeValue))
    (dryRun : bool) : M Organizer unit :=
  forEach config (fun '(mergedFileName, sourceFiles) =>
    match sourceFiles with
    | MString _ => throw (TypeError "sourceFiles.map")
    | MSources names =>
        this <- get ;;
        let sources := omap (findIn (files this)) names in
        if 0 <? length sources then
          let mergedContent :=
            mergeFileContents (map snd sources)
              (strategyOrDefault (lookupMerge "mergeStrategy" config)) in
          now <- newDateISO E ;;
          let operation :=
            OpMerge names mergedFileName
                    (lookupMerge "mergeStrategy" config) now in
          when (negb dryRun)
            (newId <- generateId E ;;
             created' <- newDateISO E ;;
             pushFile
               {| id := newId; originalTitle := None;
                  fileName := mergedFileName;
                  extension := getFileExtension mergedFileName;
                  language := None; content := mergedContent;
                  size := blobSize mergedContent;
                  lines := length (splitChar LF mergedContent);
                  created := Some created'; metadata := None;
                  originalPath := None; currentPath := mergedFileName;
                  folderPath := None;
                  operations := [operation]; status := Some merged;
                  isCopy := false; originalFileId := None;
                  isMerged := true;
                  sourceFileIds := map (fun s => id (snd s)) sources;
                  isSplit := false; sourceFileId := None |} ;;
             forEach sources (fun '(i, _) =>
               now' <- newDateISO E ;;
               mutate i (mapFile keep keep keep keep keep keep
                           (pushOp (OpMergedInto mergedFileName now'))
                           (set (Some merged_source))))) ;;
          logOperation E operation dryRun
        else ret tt
    end).

(** [/class\s+(\w+)[^{]*\{/g] *)
Definition classOpening : regex :=
  seqs [lit "class"; Rep isWhiteSpace 1 true; Grp (Rep isWord 1 true);
        Rep (noneOf "{") 0 true; Chr "{"].

(** The brace-counting loop of [by_class], from index [i] on [rest]:
    the index after the closing brace, if the count returns to zero. *)
Fixpoint findClassEnd (rest : string) (i : nat) (braceCount : Z)
    : option nat :=
  match rest with
  | EmptyString => None
  | String c rest' =>
      let braceCount := if ascii_eqb c "{" then (braceCount + 1)%Z
                        else braceCount in
      let braceCount := if ascii_eqb c "}" then (braceCount - 1)%Z
                        else braceCount in
      if (braceCount =? 0)%Z && ascii_eqb c "}" then Some (i + 1)
      else findClassEnd rest' (i + 1) braceCount
  end.

Definition splitRecord (newId name' ext text' created' : string)
    (lineCount' : nat) (operation : Operation) (sourceFile : FileRecord)
    : FileRecord :=
  {| id := newId; originalTitle := None;
     fileName := name'; extension := ext; language := None;
     content := text'; size := blobSize text'; lines := lineCount';
     created := Some created'; metadata := None;
     originalPath := None; currentPath := name'; folderPath := None;
     operations := [operation]; status := Some split_result;
     isCopy := false; originalFileId := None;
     isMerged := false; sourceFileIds := [];
     isSplit := true; sourceFileId := Some (id sourceFile) |}.

Fixpoint splitByClass (E : Env) (sourceFile : FileRecord)
    (packageDeclaration : string) (imports' : list string)
    (classMatches : list Match) : M Organizer (list FileRecord) :=
  match classMatches with
  | [] => ret []
  | m :: rest =>
      let className' := default "" (group1 m) in
      let classStart := index m in
      let classEnd :=
        default classStart
          (findClassEnd (drop classStart (content sourceFile)) classStart 0%Z) in
      let classContent :=
        substring (content sourceFile) (Z.of_nat classStart)
                  (Z.of_nat classEnd) in
      let fullContent :=
        join nl (List.filter truthy
                   [packageDeclaration; ""; join nl imports'; "";
                    classContent]) in
      newId <- generateId E ;;
      now <- newDateISO E ;;
      created' <- newDateISO E ;;
      others <- splitByClass E sourceFile packageDeclaration imports' rest ;;
      ret (splitRecord newId
             (className' +:+ "." +:+ extension sourceFile)
             (extension sourceFile) fullContent created'
             (length (splitChar LF fullContent))
             (OpSplitFromClass (fileName sourceFile) className' now)
             sourceFile :: others)
  end.

(** The loop of [by_lines]; [fuel] bounds the number of rounds, and
    [remaining] holds [lines.slice(i)]. *)
Fixpoint splitByLines (E : Env) (fuel : nat) (sourceFile : FileRecord)
    (linesPerFile' : nat) (remaining : list string) (i : nat)
    : M Organizer (list FileRecord) :=
  match fuel, remaining with
  | S fuel', _ :: _ =>
      let chunkLines := firstn linesPerFile' remaining in
      let chunkContent := join nl chunkLines in
      let partNumber := i / linesPerFile' + 1 in
      let name' :=
        replaceFirst noFlags CodeExtractor.lastSuffix (fileName sourceFile) ""
        +:+ "_part" +:+ ofNat partNumber +:+ "." +:+ extension sourceFile in
      newId <- generateId E ;;
      now <- newDateISO E ;;
      created' <- newDateISO E ;;
      others <- splitByLines E fuel' sourceFile linesPerFile'
                             (skipn linesPerFile' remaining)
                             (i + linesPerFile') ;;
      ret (splitRecord newId name' (extension sourceFile) chunkContent
             created' (length chunkLines)
             (OpSplitFromPart (fileName sourceFile) partNumber now)
             sourceFile :: others)
  | _, _ => ret []
  end.

Definition splitFileContent (E : Env) (sourceFile : FileRecord)
    (splitConfig : SplitConfig) : M Organizer (list FileRecord) :=
  match strategy splitConfig with
  | Some st =>
      if String.eqb st "by_class" then
        splitByClass E sourceFile
          (firstText packageDecl (content sourceFile))
          (matchedTexts importDecl (content sourceFile))
          (matchAll noFlags classOpening (content sourceFile))
      else if String.eqb st "by_lines" then
        let linesPerFile' :=
          match linesPerFile splitConfig with
          | Some 0%Z | None => 100%Z
          | Some n => n
          end in
        let lines' := splitChar LF (content sourceFile) in
        if (linesPerFile' <? 0)%Z then throw (Hangs "by_lines")
        else splitByLines E (length lines') sourceFile
                          (Z.to_nat linesPerFile') lines' 0
      else ret []
  | None => ret []
  end.

Definition applySplitFiles (E : Env) (config : list (string * SplitConfig))
    (dryRun : bool) : M Organizer unit :=
  forEach config (fun '(sourceFileName, splitConfig) =>
    found <- findFileByName sourceFileName ;;
    match found with
    | Some (i, sourceFile) =>
        splitFiles' <- splitFileContent E sourceFile splitConfig ;;
        now <- newDateISO E ;;
        let operation :=
          OpSplit sourceFileName (map fileName splitFiles')
                  (strategy splitConfig) now in
        when (negb dryRun)
          (forEach splitFiles' pushFile ;;
           now' <- newDateISO E ;;
           mutate i (mapFile keep keep keep keep keep keep
                       (pushOp (OpSplitInto (map fileName splitFiles') now'))
                       (set (Some split_source)))) ;;
        logOperation E operation dryRun
    | None => ret tt
    end).

(** *** Validation of the configuration *)

(** U+2192 lies outside the code units of the embedding; the message
    texts that contain it carry its UTF-8 encoding. *)
Definition arrow : string :=
  String (ascii_of_nat 226)
    (String (ascii_of_nat 134) (String (ascii_of_nat 146) EmptyString)).

Definition supportedSections : list string :=
  ["fileRenames"; "extensionChanges"; "folderMappings"; "contentUpdates";
   "copyToMultipleLocations"; "mergeFiles"; "splitFiles"].

Definition inList (x : string) (xs : list string) : bool :=
  existsb (String.eqb x) xs.

Definition renameErrors (entries : list (string * string)) : list string :=
  flat_map (fun '(oldName, newName) =>
              if negb (truthy oldName) || negb (truthy newName)
              then ["Nome file vuoto in fileRenames: " +:+ oldName +:+ " "
                    +:+ arrow +:+ " " +:+ newName]
              else []) entries.

Definition folderErrors (entries : list (string * string)) : list string :=
  flat_map (fun '(fileName', folderPath') =>
              if includes folderPath' ".." || startsWith folderPath' "/"
              then ["Path non sicuro in folderMappings: " +:+ folderPath']
              else []) entries.

Definition copyErrors (entries : list (string * list Location))
    : list string :=
  flat_map (fun '(fileName', locations) =>
              if length locations =? 0
              then ["Almeno una destinazione richiesta per " +:+ fileName']
              else []) entries.

Definition ofSection {A} (check : A -> list string) (section : option A)
    : list string :=
  match section with
  | Some entries => check entries
  | None => []
  end.

(** The argument is [None] for a value that is not an object. *)
Definition validateAndNormalizeConfig (config : option Configuration)
    : ValidatedConfig :=
  match config with
  | None =>
      {| isValid := false;
         errors := ["Configurazione deve essere un oggetto JSON valido"];
         warnings := []; data := None |}
  | Some config =>
      let unknownSections :=
        List.filter (fun section =>
                       negb (inList section supportedSections)
                       && negb (inList section
                                  ["projectName"; "description"; "version"]))
                    (otherKeys config) in
      let warnings :=
        if 0 <? length unknownSections
        then ["Sezioni sconosciute: " +:+ join ", " unknownSections]
        else [] in
      let errors :=
        ofSection renameErrors (fileRenames config) ++
        ofSection folderErrors (folderMappings config) ++
        ofSection copyErrors (copyToMultipleLocations config) in
      {| isValid := length errors =? 0;
         errors := errors; warnings := warnings; data := Some config |}
  end.

Definition loadConfig (config : option Configuration) : M Organizer unit :=
  let validated := validateAndNormalizeConfig config in
  modify (setConfig (Some validated)) ;;
  if negb (isValid validated) then throw (InvalidConfig (errors validated))
  else ret tt.

(** *** Validation of the results and report *)

Fixpoint listIndexOf (xs : list string) (x : string) (i : nat) : option nat :=
  match xs with
  | [] => None
  | y :: rest => if String.eqb y x then Some i else listIndexOf rest x (i + 1)
  end.

(** [fileNames.filter((name, index) => fileNames.indexOf(name) !== index)] *)
Fixpoint notFirst (fileNames rest : list string) (index' : nat)
    : list string :=
  match rest with
  | [] => []
  | name' :: rest' =>
      if match listIndexOf fileNames name' 0 with
         | Some j => negb (j =? index')
         | None => true
         end
      then name' :: notFirst fileNames rest' (index' + 1)
      else notFirst fileNames rest' (index' + 1)
  end.

Definition countIf (p : FileRecord -> bool) (fs : list FileRecord) : nat :=
  length (List.filter p fs).

Definition hasStatus (s : Status) (f : FileRecord) : bool :=
  match status f, s with
  | Some pending, pending | Some renamed, renamed | Some moved, moved
  | Some extension_changed, extension_changed | Some copied, copied
  | Some merged, merged | Some merged_source, merged_source
  | Some split_result, split_result | Some split_source, split_source
  | Some content_updated, content_updated => true
  | _, _ => false
  end.

Definition validate (fs : list FileRecord) : Validation :=
  let fileNames := map currentPath fs in
  let duplicates := notFirst fileNames fileNames 0 in
  let invalidPaths :=
    List.filter (fun f => negb (truthy (currentPath f))
                          || isEmpty (trim (currentPath f))) fs in
  let emptySizeFiles := List.filter (fun f => size f =? 0) fs in
  {| v_errors :=
       (if 0 <? length duplicates
        then ["File duplicati: " +:+ join ", " (fold_left setAdd duplicates [])]
        else []) ++
       (if 0 <? length invalidPaths
        then [ofNat (length invalidPaths) +:+ " file con path non validi"]
        else []);
     v_warnings :=
       (if 0 <? length emptySizeFiles
        then [ofNat (length emptySizeFiles) +:+ " file vuoti"]
        else []);
     v_stats :=
       {| vs_totalFiles := length fs;
          vs_renamedFiles := countIf (hasStatus renamed) fs;
          vs_movedFiles := countIf (hasStatus moved) fs;
          vs_copiedFiles := countIf isCopy fs;
          vs_mergedFiles := countIf isMerged fs;
          vs_splitFiles := countIf isSplit fs |} |}.

Definition validateOrganizationResults : M Organizer unit :=
  modify (fun this => setValidation (Some (validate (files this))) this).

Definition opType (o : Operation) : string :=
  match o with
  | OpRename _ _ _ => "rename"
  | OpChangeExtension _ _ _ _ _ => "changeExtension"
  | OpMove _ _ _ _ => "move"
  | OpUpdateContent _ _ _ _ _ => "updateContent"
  | OpCopy _ _ _ _ => "copy"
  | OpMerge _ _ _ _ => "merge"
  | OpSplit _ _ _ _ => "split"
  | OpMergedInto _ _ => "merged_into"
  | OpSplitInto _ _ => "split_into"
  | OpSplitFromClass _ _ _ | OpSplitFromPart _ _ _ => "split_from"
  end.

Definition opTimestamp (o : Operation) : string :=
  match o with
  | OpRename _ _ t | OpChangeExtension _ _ _ _ t | OpMove _ _ _ t
  | OpUpdateContent _ _ _ _ t | OpCopy _ _ _ t | OpMerge _ _ _ t
  | OpSplit _ _ _ t | OpMergedInto _ t | OpSplitInto _ t
  | OpSplitFromClass _ _ t | OpSplitFromPart _ _ t => t
  end.

Definition getOperationDescription (o : Operation) : string :=
  match o with
  | OpRename from to _ =>
      "Rinominato: " +:+ from +:+ " " +:+ arrow +:+ " " +:+ to
  | OpMove from to _ _ =>
      "Spostato: " +:+ from +:+ " " +:+ arrow +:+ " " +:+ to
  | OpCopy originalFile copyPath _ _ =>
      "Copiato: " +:+ originalFile +:+ " " +:+ arrow +:+ " " +:+ copyPath
  | OpChangeExtension _ _ oldExtension newExtension _ =>
      "Cambiata estensione: " +:+ oldExtension +:+ " " +:+ arrow +:+ " "
      +:+ newExtension
  | OpUpdateContent file _ _ _ _ => "Aggiornato contenuto: " +:+ file
  | OpMerge sourceFiles mergedFile _ _ =>
      "Uniti " +:+ ofNat (length sourceFiles) +:+ " file in " +:+ mergedFile
  | OpSplit sourceFile splitFiles' _ _ =>
      "Diviso " +:+ sourceFile +:+ " in " +:+ ofNat (length splitFiles')
      +:+ " file"
  | _ => "Operazione: " +:+ opType o
  end.

Definition calculateOrganizationDuration (E : Env) (log : list LogEntry)
    : Z :=
  match log with
  | [] => 0%Z
  | first :: _ =>
      (dateParse E (opTimestamp (op (default first (last log))))
       - dateParse E (opTimestamp (op first)))%Z
  end.

Definition isGenerated (f : FileRecord) : bool :=
  isCopy f || isMerged f || isSplit f.

Definition generateRecommendations (fs : list FileRecord)
    : list Recommendation :=
  let rootFiles :=
    List.filter (fun f => negb (truthyOpt (folderPath f))) fs in
  let largeFiles :=
    List.filter (fun f => (100000 <? Z.of_nat (size f))%Z) fs in
  let badNameFiles :=
    List.filter (fun f =>
                   includes (fileName f) " " || includes (fileName f) "#"
                   || test noFlags
                        (Cls (fun c => negb (CodeExtractor.isNameChar c)))
                        (fileName f)) fs in
  (if 10 <? length rootFiles then
     [{| r_type := "organization"; r_severity := "info";
         r_message := ofNat (length rootFiles) +:+ " file nella cartella root";
         r_suggestion := "Considera di organizzare i file in sottocartelle" |}]
   else []) ++
  (if 0 <? length largeFiles then
     [{| r_type := "performance"; r_severity := "warning";
         r_message := ofNat (length largeFiles) +:+ " file molto grandi";
         r_suggestion :=
           "Considera di dividere file grandi in moduli pi"
           +:+ CodeExtractor.chr 249 +:+ " piccoli" |}]
   else []) ++
  (if 0 <? length badNameFiles then
     [{| r_type := "naming"; r_severity := "info";
         r_message := ofNat (length badNameFiles)
                      +:+ " file con nomi non standard";
         r_suggestion :=
           "Usa solo lettere, numeri, punti, underscore e trattini nei nomi file" |}]
   else []).

Definition generateOrganizationReport (E : Env) : M Organizer Report :=
  now <- newDateISO E ;;
  this <- get ;;
  let report :=
    {| rp_totalFiles := length (files this);
       rp_totalOperations := length (organizationLog this);
       rp_timestamp := now;
       rp_duration := calculateOrganizationDuration E (organizationLog this);
       rp_operations :=
         map (fun e => {| ro_type := opType (op e);
                          ro_description := getOperationDescription (op e);
                          ro_timestamp := opTimestamp (op e);
                          ro_dryRun := dryRun e |})
             (organizationLog this);
       rp_files :=
         map (fun file => {| rf_fileName := fileName file;
                             rf_currentPath := currentPath file;
                             rf_originalPath := originalPath file;
                             rf_status := status file;
                             rf_operations := length (operations file);
                             rf_size := size file;
                             rf_isGenerated := isGenerated file |})
             (files this);
       rp_validation := validationResults this;
       rp_recommendations := generateRecommendations (files this) |} in
  modify (setReport (Some report)) ;;
  ret report.

(** *** organizeFiles *)

Definition section {A} (o : option A) (apply : A -> M Organizer unit)
    : M Organizer unit :=
  match o with
  | Some operationConfig => apply operationConfig
  | None => ret tt
  end.

(** The loop over the seven operation names, in the order of the
    array [operations]. *)
Definition applyOperations (E : Env) (d : Configuration) (dryRun : bool)
    : M Organizer unit :=
  section (fileRenames d) (fun c => applyFileRenames E c dryRun) ;;
  section (extensionChanges d) (fun c => applyExtensionChanges E c dryRun) ;;
  section (folderMappings d) (fun c => applyFolderMappings E c dryRun) ;;
  section (contentUpdates d) (fun c => applyContentUpdates E c dryRun) ;;
  section (copyToMultipleLocations d)
          (fun c => applyCopyToMultipleLocations E c dryRun) ;;
  section (mergeFiles d) (fun c => applyMergeFiles E c dryRun) ;;
  section (splitFiles d) (fun c => applySplitFiles E c dryRun).

Definition configIsValid (this : Organizer) : bool :=
  match config this with
  | Some c => isValid c
  | None => false
  end.

Definition organizeFiles (E : Env) (options : Options)
    : M Organizer (list FileRecord) :=
  this <- get ;;
  if negb (configIsValid this) then throw ConfigNotLoaded
  else
    modify (setLog []) ;;
    match config this ≫= data with
    | Some d => applyOperations E d (dryRunOpt options)
    | None => throw (TypeError "this.config.data")
    end ;;
    when (validateResults options) validateOrganizationResults ;;
    (if generateReport options
     then (_ <- generateOrganizationReport E ;; ret tt)
     else ret tt) ;;
    gets files.

(** The records that [getFinalProjectStructure] skips: the sources of
    a merge or of a split. *)
Definition isSource (file : FileRecord) : bool :=
  hasStatus merged_source file || hasStatus split_source file.

Definition isLive (file : FileRecord) : bool := negb (isSource file).

(** A fresh organizer. *)
Definition newOrganizer : Organizer :=
  {| files := []; config := None; organizationLog := [];
     validationResults := None; organizationReport := None;
     readings := 0 |}.

(** [organize(records, config, options)]: a fresh organizer, [loadFiles],
    [loadConfig], [organizeFiles]. *)
Definition organize (E : Env) (records : list FileRecord)
    (config : option Configuration) (options : Options)
    : M Organizer (list FileRecord) :=
  loadFiles E records ;;
  loadConfig config ;;
  organizeFiles E options.

End FileOrganizer.

(** ** A platform

    The [RegExp] constructor on the patterns built from literal
    characters, [.], the escapes [\d \s \w] and the escaped syntax
    characters, each with an optional [*], [+] or [?] (and [*?], [+?]),
    and the assertions [^] and [$].  A pattern with a group, a class in
    brackets, braces or an alternation lies outside this fragment. *)

Module Platform.
Import Str RegExp.
Local Open Scope nat_scope.

Inductive token : Type :=
| TChar (c : ascii)          (* a character that stands for itself *)
| TClass (p : ascii -> bool) (* . \d \s \w *)
| TStar | TPlus | TQuest     (* * + ? *)
| TBol | TEol                (* ^ $ *)
| TOutside                   (* ( ) [ ] { } | and the other escapes *)
| TDangling.                 (* a backslash at the end *)

(** The syntax characters of a pattern. *)
Definition isSyntaxChar (c : ascii) : bool := oneOf "^$\.*+?()[]{}|" c.

Definition escapeToken (e : ascii) : token :=
  if ascii_eqb e "d" then TClass isDigit
  else if ascii_eqb e "s" then TClass isWhiteSpace
  else if ascii_eqb e "w" then TClass isWord
  else if isSyntaxChar e || ascii_eqb e "/" then TChar e
  else TOutside.

Definition plainToken (c : ascii) : token :=
  if ascii_eqb c "." then TClass isDot
  else if ascii_eqb c "*" then TStar
  else if ascii_eqb c "+" then TPlus
  else if ascii_eqb c "?" then TQuest
  else if ascii_eqb c "^" then TBol
  else if ascii_eqb c "$" then TEol
  else if isSyntaxChar c then TOutside
  else TChar c.

Fixpoint tokens (s : string) : list token :=
  match s with
  | EmptyString => []
  | String c r =>
      if ascii_eqb c "\" then
        match r with
        | String e r' => escapeToken e :: tokens r'
        | EmptyString => [TDangling]
        end
      else plainToken c :: tokens r
  end.

Inductive Parsed : Type :=
| Pattern (r : regex)
| Invalid          (* SyntaxError *)
| Outside.         (* beyond the fragment *)

Definition classOf (t : token) : option (ascii -> bool) :=
  match t with
  | TChar c => Some (ascii_eqb c)
  | TClass p => Some p
  | _ => None
  end.

Definition atomOf (t : token) : option regex :=
  match t with
  | TChar c => Some (Chr c)
  | TClass p => Some (Cls p)
  | _ => None
  end.

Definition andThen (r : regex) (rest : Parsed) : Parsed :=
  match rest with
  | Pattern r' => Pattern (Seq r r')
  | other => other
  end.

(** [pending] is the atom read last, which a quantifier may still
    follow. *)
Fixpoint build (pending : option token) (ts : list token) : Parsed :=
  let flush (rest : Parsed) : Parsed :=
    match pending ≫= atomOf with
    | Some a => andThen a rest
    | None => rest
    end in
  let quantified (min : nat) (ts' : list token) : Parsed :=
    match pending ≫= classOf with
    | None => Invalid
    | Some p =>
        match ts' with
        | TQuest :: ts'' => andThen (Rep p min false) (build None ts'')
        | _ => andThen (Rep p min true) (build None ts')
        end
    end in
  match ts with
  | [] => flush (Pattern Eps)
  | t :: ts' =>
      match t with
      | TChar _ | TClass _ => flush (build (Some t) ts')
      | TStar => quantified 0 ts'
      | TPlus => quantified 1 ts'
      | TQuest =>
          match pending ≫= atomOf with
          | None => Invalid
          | Some a =>
              match ts' with
              | TQuest :: _ => Outside
              | _ => andThen (Opt a) (build None ts')
              end
          end
      | TBol => flush (andThen Bol (build None ts'))
      | TEol => flush (andThen Eol (build None ts'))
      | TOutside => Outside
      | TDangling => Invalid
      end
  end.

Definition parse (pattern : string) : Parsed := build None (tokens pattern).

(** [subject.replace(new RegExp(pattern, 'g'), repl)] *)
Definition regExpReplace (pattern subject repl : string) : Result string :=
  match parse pattern with
  | Pattern r => Ok (replaceAll noFlags r subject repl)
  | Invalid => Throw (SyntaxError pattern)
  | Outside => Throw (OutsideFragment pattern)
  end.

(** The environment with this constructor and the given clock, random
    generator and serializer. *)
Definition withRegExp (E : Env) : Env :=
  {| dateNow := dateNow E; isoNow := isoNow E; random36 := random36 E;
     JSON_stringify := JSON_stringify E; dateParse := dateParse E;
     RegExp_replace := regExpReplace |}.

(** An environment for examples: the clock advances by one at every
    reading and the random generator yields the number of the reading. *)
Definition sampleEnv : Env :=
  {| dateNow := ofNat;
     isoNow := fun t => "T" +:+ ofNat t;
     random36 := ofNat;
     JSON_stringify := fun _ => "{}";
     dateParse := fun _ => 0%Z;
     RegExp_replace := regExpReplace |}.

End Platform.

(** ** Notions used to state the properties *)

Module Spec.
Import Str RegExp Method.
Local Open Scope nat_scope.

(** The headers of a text paired with the text of their sections, as
    the loop of [extractFiles] pairs them. *)
Fixpoint sectionsOf (input : string) (headers : list CodeExtractor.Header)
    : list (CodeExtractor.Header * string) :=
  match headers with
  | [] => []
  | h :: rest =>
      (h, CodeExtractor.sectionContent input h (head rest))
      :: sectionsOf input rest
  end.

(** What [extractFileSection] stores as the content of a section. *)
Definition stored (options : CodeExtractor.Options) (body : string)
    : string :=
  if CodeExtractor.cleanCodeOpt options then CodeExtractor.cleanCode body
  else body.

(** A record comes from a header and its section. *)
Definition recordOf (options : CodeExtractor.Options)
    (section : CodeExtractor.Header * string) (r : FileRecord) : Prop :=
  originalTitle r = Some (CodeExtractor.title (fst section))
  /\ content r = stored options (snd section).

Definition sumOf {A} (n : A -> nat) (xs : list A) : nat :=
  fold_right (fun x acc => n x + acc) 0 xs.


Definition entries {A} (section : option (list A)) : list A :=
  default [] section.


(** A log entry without its timestamp and its id. *)
Definition eraseOp (o : Operation) : Operation :=
  match o with
  | OpRename a b _ => OpRename a b ""
  | OpChangeExtension a b c d _ => OpChangeExtension a b c d ""
  | OpMove a b c _ => OpMove a b c ""
  | OpUpdateContent a b c d _ => OpUpdateContent a b c d ""
  | OpCopy a b c _ => OpCopy a b c ""
  | OpMerge a b c _ => OpMerge a b c ""
  | OpSplit a b c _ => OpSplit a b c ""
  | OpMergedInto a _ => OpMergedInto a ""
  | OpSplitInto a _ => OpSplitInto a ""
  | OpSplitFromClass a b _ => OpSplitFromClass a b ""
  | OpSplitFromPart a b _ => OpSplitFromPart a b ""
  end.

Definition eraseEntry (e : FileOrganizer.LogEntry) : FileOrganizer.LogEntry :=
  {| FileOrganizer.op := eraseOp (FileOrganizer.op e);
     FileOrganizer.dryRun := FileOrganizer.dryRun e;
     FileOrganizer.logId := "" |}.

(** A find string without syntax characters. *)
Definition isLiteralPattern (find' : string) : bool :=
  forallb (fun c => negb (Platform.isSyntaxChar c))
          (list_ascii_of_string find').

(** The occurrences of a string in a subject, left to right and without
    overlap, as [subject.replaceAll(find, ...)] visits them. *)
Fixpoint occurrences (find' : string) (rest : string) (i skip : nat)
    : list Match :=
  match skip with
  | S skip' =>
      match rest with
      | String _ rest' => occurrences find' rest' (S i) skip'
      | EmptyString => []
      end
  | O =>
      if startsWith rest find' then
        {| index := i; text := find'; group1 := None |} ::
        match rest with
        | String _ rest' =>
            occurrences find' rest' (S i) (Nat.pred (len find'))
        | EmptyString => []
        end
      else
        match rest with
        | String _ rest' => occurrences find' rest' (S i) 0
        | EmptyString => []
        end
  end.

(** Literal replacement of every occurrence: [subject.replaceAll(find, repl)]. *)
Definition replaceAllLiteral (find' repl subject : string) : string :=
  splice subject repl subject 0 (occurrences find' subject 0 0).

(** The content that [applyContentUpdates] computes once the
    replacements are made. *)
Definition finishUpdate (updates : ContentUpdate) (newContent : string)
    : string :=
  let newContent :=
    match addImports updates with
    | Some imps =>
        FileOrganizer.importLines imps +:+ nl +:+ nl +:+ newContent
    | None => newContent
    end in
  if FileOrganizer.truthyOpt (updatePackage updates)
  then replaceFirst noFlags CodeExtractor.packagePattern newContent
         ("package " +:+ default "" (updatePackage updates))
  else newContent.

(** A string holds a character that [trim] does not remove. *)
Fixpoint hasInk (s : string) : bool :=
  match s with
  | EmptyString => false
  | String c r => negb (isWhiteSpace c) || hasInk r
  end.

(** The header that [findHeaders] builds from a match. *)
Definition headerOf (m : Match) : CodeExtractor.Header :=
  {| CodeExtractor.title := trim (default "" (group1 m));
     CodeExtractor.hIndex := index m;
     CodeExtractor.fullMatch := text m |}.

(** The pattern of a string without syntax characters. *)
Fixpoint litSeq (s : string) : regex :=
  match s with
  | EmptyString => Eps
  | String c r => Seq (Chr c) (litSeq r)
  end.

End Spec.

(** ** Sample data *)

Module Samples.
Import Str RegExp Method FileOrganizer.
Local Open Scope nat_scope.
Local Open Scope method_scope.

(** A record as a caller of [loadFiles] may pass it: a name and a
    content. *)
Definition sampleFile (n c : string) : FileRecord :=
  {| id := ""; originalTitle := None; fileName := n;
     extension := getFileExtension n; language := None;
     content := c; size := blobSize c;
     lines := length (splitChar LF c);
     created := None; metadata := None;
     originalPath := None; currentPath := ""; folderPath := None;
     operations := []; status := None;
     isCopy := false; originalFileId := None;
     isMerged := false; sourceFileIds := [];
     isSplit := false; sourceFileId := None |}.

Definition noRules : Configuration :=
  {| fileRenames := None; extensionChanges := None; folderMappings := None;
     contentUpdates := None; copyToMultipleLocations := None;
     mergeFiles := None; splitFiles := None; otherKeys := [] |}.

(** [{fileRenames: {"a.kt": "B.kt"}, folderMappings: {"a.kt": "src"}}] *)
Definition renameAndMove : Configuration :=
  {| fileRenames := Some [("a.kt", "B.kt")]; extensionChanges := None;
     folderMappings := Some [("a.kt", "src")];
     contentUpdates := None; copyToMultipleLocations := None;
     mergeFiles := None; splitFiles := None; otherKeys := [] |}.

(** [{folderMappings: {"a.kt": "../etc"}}] *)
Definition unsafeMapping : Configuration :=
  {| fileRenames := None; extensionChanges := None;
     folderMappings := Some [("a.kt", "../etc")];
     contentUpdates := None; copyToMultipleLocations := None;
     mergeFiles := None; splitFiles := None; otherKeys := [] |}.

(** [{fileRenames: {"a.kt": "c.kt", "b.kt": "c.kt"}}] *)
Definition clash : Configuration :=
  {| fileRenames := Some [("a.kt", "c.kt"); ("b.kt", "c.kt")];
     extensionChanges := None; folderMappings := None;
     contentUpdates := None; copyToMultipleLocations := None;
     mergeFiles := None; splitFiles := None; otherKeys := [] |}.

(** [{mergeFiles: {"M.kt": ["a.kt", "b.kt"], mergeStrategy: "package_merge"}}] *)
Definition packageMerge : Configuration :=
  {| fileRenames := None; extensionChanges := None; folderMappings := None;
     contentUpdates := None; copyToMultipleLocations := None;
     mergeFiles := Some [("M.kt", MSources ["a.kt"; "b.kt"]);
                         ("mergeStrategy", MString "package_merge")];
     splitFiles := None; otherKeys := [] |}.

(** Two Kotlin sources with the same import line. *)
Definition kotlinA : FileRecord :=
  sampleFile "a.kt" ("import a.B" +:+ nl +:+ "class X").
Definition kotlinB : FileRecord :=
  sampleFile "b.kt" ("import a.B" +:+ nl +:+ "class Y").

(** Two Java sources with the same import line. *)
Definition javaA : FileRecord :=
  sampleFile "a.kt" ("import a.B;" +:+ nl +:+ "class X {}").
Definition javaB : FileRecord :=
  sampleFile "b.kt" ("import a.B;" +:+ nl +:+ "class Y {}").

(** [{replacements: [{find: "a.b", replace: "Q"}]}] and
    [{replacements: [{find: "x", replace: "y"}, {find: "yy", replace: "z"}]}] *)
Definition dotRule : ContentUpdate :=
  {| replacements := Some [{| find := "a.b"; replace := "Q" |}];
     addImports := None; updatePackage := None |}.
Definition plainRule : ContentUpdate :=
  {| replacements := Some [{| find := "x"; replace := "y" |};
                           {| find := "yy"; replace := "z" |}];
     addImports := None; updatePackage := None |}.

Definition dry : Options :=
  {| dryRunOpt := true; validateResults := true; generateReport := true |}.

(** An organizer after [loadFiles] and [loadConfig]. *)
Definition loaded (records : list FileRecord) (c : Configuration)
    : Organizer :=
  snd ((loadFiles Platform.sampleEnv records ;; loadConfig (Some c))
         newOrganizer).

(** The organizer after a first and after a second dry run of
    [renameAndMove] on [a.kt]. *)
Definition firstRun : Organizer :=
  snd (organizeFiles Platform.sampleEnv dry
         (loaded [sampleFile "a.kt" "x"] renameAndMove)).
Definition secondRun : Organizer :=
  snd (organizeFiles Platform.sampleEnv dry firstRun).

(** The organizer after [clash] is applied to [a.kt] and [b.kt]. *)
Definition clashRun : Result (list FileRecord) * Organizer :=
  organizeFiles Platform.sampleEnv defaultOptions
    (loaded [sampleFile "a.kt" "x"; sampleFile "b.kt" "y"] clash).

(** A source of five lines and a source with two classes. *)
Definition fiveLines : FileRecord :=
  sampleFile "big.kt"
    ("a" +:+ nl +:+ "b" +:+ nl +:+ "c" +:+ nl +:+ "d" +:+ nl +:+ "e").
Definition twoClasses : FileRecord :=
  sampleFile "two.kt"
    ("package p;" +:+ nl +:+ "class A { int x; }" +:+ nl +:+ "class B { }").

(** What a test reads off the records of a split. *)
Definition summary (r : Result (list FileRecord))
    : list (string * nat * string) :=
  match r with
  | Ok l => map (fun f => (fileName f, lines f, content f)) l
  | Throw _ => []
  end.

(** A text with two numbered headers. *)
Definition sampleText : string :=
  "1. a.kt" +:+ nl +:+ "class A" +:+ nl +:+ "2. notes" +:+ nl +:+ "hello".

Definition nthFile (n : nat) (s : Organizer) : FileRecord :=
  nth n (files s) (sampleFile "" "").

End Samples.

(** ** Predicates on the methods of the organizer *)

Module Logic.
Import Str RegExp Method FileOrganizer Spec.
Local Open Scope nat_scope.
Local Open Scope method_scope.

Definition isDry (e : LogEntry) : Prop := dryRun e = true.

(** From state [s], the method leaves the records alone and appends
    entries of a dry run to the log, [n] of them when it returns. *)
Definition DryAt {A} (n : nat) (m : M Organizer A) (s : Organizer) : Prop :=
  files (snd (m s)) = files s
  /\ exists l, organizationLog (snd (m s)) = organizationLog s ++ l
               /\ Forall isDry l
               /\ (forall a, fst (m s) = Ok a -> length l = n).




(** A method that ends with [return this.files] returns the records
    of its final state. *)
Definition ReturnsFiles (m : M Organizer (list FileRecord)) : Prop :=
  forall s rs, fst (m s) = Ok rs -> rs = files (snd (m s)).

(** The end of [organizeFiles]: validation, report, [return this.files]. *)
Definition finish (E : Env) (options : Options)
    : M Organizer (list FileRecord) :=
  when (validateResults options) validateOrganizationResults ;;
  (if generateReport options
   then (_ <- generateOrganizationReport E ;; ret tt)
   else ret tt) ;;
  gets files.

(** The part of [organizeFiles] that follows the test of the
    configuration and the reset of the log. *)
Definition afterCheck (E : Env) (options : Options)
    (d : option Configuration) : M Organizer (list FileRecord) :=
  match d with
  | Some d => applyOperations E d (dryRunOpt options)
  | None => throw (TypeError "this.config.data")
  end ;;
  finish E options.

(** Two states hold the same records, and their logs agree up to the
    timestamps and the ids. *)
Definition Rel (s1 s2 : Organizer) : Prop :=
  files s1 = files s2
  /\ map eraseEntry (organizationLog s1) = map eraseEntry (organizationLog s2).

Definition agree {A} (RA : A -> A -> Prop) (r1 r2 : Result A) : Prop :=
  match r1, r2 with
  | Ok a1, Ok a2 => RA a1 a2
  | Throw e1, Throw e2 => e1 = e2
  | _, _ => False
  end.

(** Two methods, run from related states, end in related states with
    related results. *)
Definition Sim {A} (RA : A -> A -> Prop) (m1 m2 : M Organizer A) : Prop :=
  forall s1 s2, Rel s1 s2 ->
    agree RA (fst (m1 s1)) (fst (m2 s2)) /\ Rel (snd (m1 s1)) (snd (m2 s2)).

Definition any {A} (_ _ : A) : Prop := True.

Definition sameNames (l1 l2 : list FileRecord) : Prop :=
  map fileName l1 = map fileName l2.

End Logic.

(** ** Notions of the further properties *)

Module Invariants.
Import Str RegExp Method FileOrganizer Spec.
Local Open Scope nat_scope.
Local Open Scope method_scope.

(** What [loadFiles] makes of a file that a caller passes. *)
Definition loadedFrom (file g : FileRecord) : Prop :=
  fileName g = fileName file
  /\ extension g = extension file
  /\ content g = content file
  /\ size g = size file
  /\ originalPath g = Some (fileName file)
  /\ currentPath g = fileName file
  /\ operations g = []
  /\ status g = Some pending
  /\ (truthy (id file) = true -> id g = id file)
  /\ (truthy (id file) = false -> startsWith (id g) "file_" = true).

(** A record after some operations: the fields that no operation
    assigns are the same, and the history of operations is longer at
    its end. *)
Definition extends (f g : FileRecord) : Prop :=
  id g = id f
  /\ originalPath g = originalPath f
  /\ originalTitle g = originalTitle f
  /\ language g = language f
  /\ lines g = lines f
  /\ created g = created f
  /\ isCopy g = isCopy f /\ isMerged g = isMerged f /\ isSplit g = isSplit f
  /\ exists ops, operations g = operations f ++ ops.

(** A working set after some operations: the records of before, in
    their places, followed by the records added. *)
Definition grows (fs gs : list FileRecord) : Prop :=
  exists upd added, gs = upd ++ added /\ Forall2 extends fs upd.

Definition Keeps {A} (m : M Organizer A) : Prop :=
  forall s, grows (files s) (files (snd (m s))).

(** A method that never throws. *)
Definition Returns {A} (m : M Organizer A) : Prop :=
  forall s, exists a, fst (m s) = Ok a.

(** No record answers to the key of a rule. *)
Definition unresolved {A} (fs : list FileRecord) (e : string * A) : Prop :=
  findIn fs (fst e) = None.

Definition unresolvedSources (fs : list FileRecord)
    (e : string * MergeValue) : Prop :=
  exists names, snd e = MSources names
                /\ Forall (fun n => findIn fs n = None) names.

End Invariants.

(** ** More sample inputs *)

Module MoreSamples.
Import Str RegExp Method FileOrganizer.
Local Open Scope nat_scope.

(** [{fileRenames: {"a.kt": "B.kt"}, folderMappings: {"a.kt": "src"},
      mergeFiles: {"M.kt": ["a.kt", "b.kt"]},
      splitFiles: {"big.kt": {strategy: "by_lines", linesPerFile: 2}}}] *)
Definition manyRules : Configuration :=
  {| fileRenames := Some [("a.kt", "B.kt")]; extensionChanges := None;
     folderMappings := Some [("a.kt", "src")];
     contentUpdates := None; copyToMultipleLocations := None;
     mergeFiles := Some [("M.kt", MSources ["a.kt"; "b.kt"])];
     splitFiles := Some [("big.kt", {| strategy := Some "by_lines";
                                       linesPerFile := Some 2%Z |})];
     otherKeys := [] |}.

(** An organizer that holds one file, which no rule of [manyRules]
    names. *)
Definition stranger : Organizer :=
  Samples.loaded [Samples.sampleFile "z.kt" "x"] manyRules.

(** [{strategy: "by_lines", linesPerFile: 2}] and
    [{strategy: "by_function"}] *)
Definition twoLines : SplitConfig :=
  {| strategy := Some "by_lines"; linesPerFile := Some 2%Z |}.
Definition byFunction : SplitConfig :=
  {| strategy := Some "by_function"; linesPerFile := None |}.

(** An organizer that holds the source of five lines, and one that
    holds the two Kotlin sources. *)
Definition withFiveLines : Organizer :=
  Samples.loaded [Samples.fiveLines] Samples.noRules.
Definition withTwoSources : Organizer :=
  Samples.loaded [Samples.kotlinA; Samples.kotlinB] Samples.noRules.

(** [[{folder: "lib"}, {folder: "test", name: "T.kt"}]] *)
Definition twoPlaces : list Location :=
  [ {| folder := Some "lib"; name := None; modifications := None |};
    {| folder := Some "test"; name := Some "T.kt"; modifications := None |} ].

End MoreSamples.

Module ConfigNotions.
Import Str RegExp Method FileOrganizer Spec.
Local Open Scope nat_scope.

(** The configurations that [validateAndNormalizeConfig] finds valid:
    no empty name in a rename, no folder of a mapping that contains
    [..] or starts with [/], no copy rule without a destination. *)
Definition acceptable (c : Configuration) : Prop :=
  Forall (fun e => fst e <> "" /\ snd e <> "") (entries (fileRenames c))
  /\ Forall (fun e => includes (snd e) ".." = false
                      /\ startsWith (snd e) "/" = false)
            (entries (folderMappings c))
  /\ Forall (fun e => snd e <> []) (entries (copyToMultipleLocations c)).

(** The same configuration with other top-level keys beside the
    sections. *)
Definition withOtherKeys (keys : list string) (c : Configuration)
    : Configuration :=
  {| fileRenames := fileRenames c; extensionChanges := extensionChanges c;
     folderMappings := folderMappings c; contentUpdates := contentUpdates c;
     copyToMultipleLocations := copyToMultipleLocations c;
     mergeFiles := mergeFiles c; splitFiles := splitFiles c;
     otherKeys := keys |}.

Definition knownKeys : list string :=
  supportedSections ++ ["projectName"; "description"; "version"].

End ConfigNotions.

Module SplitNotions.
Import Str RegExp Method FileOrganizer Spec.
Local Open Scope nat_scope.

(** [splitConfig.linesPerFile || 100] *)
Definition effectiveLinesPerFile (c : SplitConfig) : Z :=
  match linesPerFile c with
  | Some 0%Z | None => 100%Z
  | Some n => n
  end.

(** A part that [by_lines] makes of a source. *)
Definition partOf (sourceFile : FileRecord) (n : nat) (p : FileRecord)
    : Prop :=
  0 < lines p /\ lines p <= n
  /\ size p = blobSize (content p)
  /\ extension p = extension sourceFile
  /\ currentPath p = fileName p
  /\ status p = Some split_result
  /\ isSplit p = true
  /\ sourceFileId p = Some (id sourceFile).

(** The lines of a text, cut into groups of [n]; [fuel] bounds the
    number of groups. *)
Fixpoint chunks (fuel n : nat) (l : list string) : list (list string) :=
  match fuel, l with
  | S fuel', _ :: _ => firstn n l :: chunks fuel' n (skipn n l)
  | _, _ => []
  end.

End SplitNotions.

Module MergeNotions.
Import Str RegExp Method FileOrganizer Spec.
Local Open Scope nat_scope.

(** A source of a merge, after the merge: marked, and otherwise as it
    was but for its history. *)
Definition mergedSource (f g : FileRecord) : Prop :=
  status g = Some merged_source
  /\ id g = id f /\ fileName g = fileName f
  /\ currentPath g = currentPath f /\ content g = content f.

(** The record that a merge adds for the sources found. *)
Definition mergedFrom (mergedFileName : string) (sources : list FileRecord)
    (m : FileRecord) : Prop :=
  fileName m = mergedFileName
  /\ currentPath m = mergedFileName
  /\ originalPath m = None
  /\ extension m = getFileExtension mergedFileName
  /\ content m = join (nl +:+ nl) (map content sources)
  /\ size m = blobSize (content m)
  /\ status m = Some merged
  /\ isMerged m = true
  /\ sourceFileIds m = map id sources.

(** The copy that the destination number [index] of a copy rule makes
    of the record that the key of the rule resolves to. *)
Definition copyOf (key : string) (originalFile : FileRecord) (index : nat)
    (location : Location) (c : FileRecord) : Prop :=
  id c = id originalFile +:+ "_copy_" +:+ ofNat index
  /\ fileName c = orName (name location) key
  /\ currentPath c = joinPath (folder location) (orName (name location) key)
  /\ folderPath c = folder location
  /\ content c = content originalFile
  /\ originalPath c = originalPath originalFile
  /\ status c = Some copied
  /\ isCopy c = true
  /\ originalFileId c = Some (id originalFile)
  /\ length (operations c) = 1.

End MergeNotions.

Module ReportNotions.
Import Str RegExp Method FileOrganizer Spec.
Local Open Scope nat_scope.
Local Open Scope method_scope.

(** Two states hold the same configuration, the same results of
    validation and the same report. *)
Definition sameResults (s s' : Organizer) : Prop :=
  config s' = config s
  /\ validationResults s' = validationResults s
  /\ organizationReport s' = organizationReport s.

(** A method that assigns none of the three. *)
Definition Untouched {A} (m : M Organizer A) : Prop :=
  forall s, sameResults s (snd (m s)).

(** A report that describes a state. *)
Definition describes (r : Report) (s : Organizer) : Prop :=
  rp_totalFiles r = length (files s)
  /\ rp_totalOperations r = length (organizationLog s)
  /\ map rf_currentPath (rp_files r) = map currentPath (files s)
  /\ map ro_type (rp_operations r)
     = map (fun e => opType (op e)) (organizationLog s)
  /\ rp_validation r = validationResults s
  /\ rp_recommendations r = generateRecommendations (files s).

End ReportNotions.

Module Templates.
Import Str Method FileOrganizer.
Local Open Scope method_scope.
Local Open Scope nat_scope.

(** The object that [exportConfigTemplate] returns: the five fields of
    [baseTemplate] and the sections of rules.  [t_rules] is the object
    as [loadConfig] reads it: its sections, and in [otherKeys] the keys
    of [baseTemplate], which the spread puts first. *)
Record Template := {
  t_projectName : string;
  t_description : string;
  t_version : string;
  t_projectType : string;
  t_timestamp : string;
  t_rules : Configuration
}.

Definition baseKeys : list string :=
  ["projectName"; "description"; "version"; "projectType"; "timestamp"].

Definition androidRules : Configuration :=
  {| fileRenames := None;
     extensionChanges := None;
     folderMappings := Some
       [ ("MainActivity.kt", "app/src/main/java/com/example/app");
         ("User.kt", "app/src/main/java/com/example/app/data/model");
         ("UserRepository.kt",
          "app/src/main/java/com/example/app/data/repository");
         ("activity_main.xml", "app/src/main/res/layout");
         ("strings.xml", "app/src/main/res/values");
         ("AndroidManifest.xml", "app/src/main");
         ("build.gradle", "app") ];
     contentUpdates := Some
       [ ("MainActivity.kt",
          {| replacements := None;
             addImports := Some ["androidx.appcompat.app.AppCompatActivity";
                                 "android.os.Bundle"];
             updatePackage := Some "com.example.app" |}) ];
     copyToMultipleLocations := None;
     mergeFiles := None;
     splitFiles := None;
     otherKeys := baseKeys |}.

Definition webRules : Configuration :=
  {| fileRenames := Some [ ("app.js", "App.js"); ("style.css", "main.css") ];
     extensionChanges := None;
     folderMappings := Some
       [ ("index.html", "public");
         ("App.js", "src/components");
         ("main.css", "src/styles");
         ("api.js", "src/services");
         ("package.json", ".") ];
     contentUpdates := None;
     copyToMultipleLocations := None;
     mergeFiles := None;
     splitFiles := None;
     otherKeys := baseKeys |}.

Definition defaultRules : Configuration :=
  {| fileRenames := Some [];
     extensionChanges := Some [];
     folderMappings := Some [];
     contentUpdates := None;
     copyToMultipleLocations := None;
     mergeFiles := None;
     splitFiles := None;
     otherKeys := baseKeys |}.

Definition exportConfigTemplate (E : Env) (projectType : string)
    : M Organizer Template :=
  now <- newDateISO E ;;
  let baseTemplate rules :=
    {| t_projectName := "MyProject";
       t_description :=
         "Template di organizzazione per progetto " +:+ projectType;
       t_version := "1.0.0";
       t_projectType := projectType;
       t_timestamp := now;
       t_rules := rules |} in
  if String.eqb projectType "android" then ret (baseTemplate androidRules)
  else if String.eqb projectType "web" then ret (baseTemplate webRules)
  else ret (baseTemplate defaultRules).

End Templates.

Module DryRunNotions.
Import Str RegExp Method FileOrganizer Spec.
Local Open Scope nat_scope.








End DryRunNotions.

Module ExtractorNotions.
Import Str RegExp Method CodeExtractor Spec.
Local Open Scope nat_scope.

(** The sections of a text that are not blank: those for which
    [extractFileSection] makes a record. *)
Definition filled (input : string) (headers : list Header)
    : list (Header * string) :=
  List.filter (fun p => negb (isEmpty (snd p))) (sectionsOf input headers).

(** The record that [extractFileSection] makes of a section. *)
Definition extractedFrom (options : Options) (section : Header * string)
    (r : FileRecord) : Prop :=
  originalTitle r = Some (title (fst section))
  /\ content r = stored options (snd section)
  /\ language r = (if autoDetectLanguage options
                   then detectLanguage (content r) else None)
  /\ fileName r = buildFileName (extractFileName (title (fst section)))
                                (language r)
  /\ extension r = getFileExtension (fileName r)
  /\ size r = blobSize (content r)
  /\ lines r = length (splitChar LF (content r))
  /\ metadata r <> None.

Definition countOf (p : FileRecord -> bool) (rs : list FileRecord) : nat :=
  length (List.filter p rs).

Definition hasComplexity (c : Complexity) (r : FileRecord) : bool :=
  match fileComplexity r, c with
  | low, low | medium, medium | high, high | very_high, very_high => true
  | _, _ => false
  end.

Definition hasLanguage (l : string) (r : FileRecord) : bool :=
  match language r with
  | Some l' => String.eqb l' l
  | None => false
  end.

Definition hasExtension (e : string) (r : FileRecord) : bool :=
  String.eqb (extension r) e.

(** The statistics agree with a list of records. *)
Definition statsOf (rs : list FileRecord) (st : Stats) : Prop :=
  totalFiles st = length rs
  /\ totalSize st = sumOf size rs
  /\ n_low (byComplexity st) = countOf (hasComplexity low) rs
  /\ n_medium (byComplexity st) = countOf (hasComplexity medium) rs
  /\ n_high (byComplexity st) = countOf (hasComplexity high) rs
  /\ n_very_high (byComplexity st) = countOf (hasComplexity very_high) rs
  /\ (forall e, default 0 (byExtension st !! e) = countOf (hasExtension e) rs)
  /\ (forall l, l <> "" ->
        default 0 (byLanguage st !! l) = countOf (hasLanguage l) rs).

(** The names that every object inherits from [Object.prototype].
    Under such a name the code does not find what the embedding finds
    in a dictionary: the statements about counters and tables leave
    these names out. *)
Definition objectPrototypeNames : list string :=
  ["constructor"; "__proto__"; "hasOwnProperty"; "isPrototypeOf";
   "propertyIsEnumerable"; "toLocaleString"; "toString"; "valueOf";
   "__defineGetter__"; "__defineSetter__"; "__lookupGetter__";
   "__lookupSetter__"].

Definition inherited (k : string) : bool :=
  existsb (String.eqb k) objectPrototypeNames.

(** The statistics count a list of records: the totals, the levels of
    complexity, and the counters of the extensions and the languages
    that are not inherited names. *)
Definition countsOf (rs : list FileRecord) (st : Stats) : Prop :=
  totalFiles st = length rs
  /\ totalSize st = sumOf size rs
  /\ n_low (byComplexity st) = countOf (hasComplexity low) rs
  /\ n_medium (byComplexity st) = countOf (hasComplexity medium) rs
  /\ n_high (byComplexity st) = countOf (hasComplexity high) rs
  /\ n_very_high (byComplexity st) = countOf (hasComplexity very_high) rs
  /\ (forall e, inherited e = false ->
        default 0 (byExtension st !! e) = countOf (hasExtension e) rs)
  /\ (forall l, l <> "" -> inherited l = false ->
        default 0 (byLanguage st !! l) = countOf (hasLanguage l) rs).

(** [this.stats.byLanguage[l]] is truthy: a count that is not zero. *)
Definition counted (st : Stats) (l : string) : bool :=
  negb (default 0 (byLanguage st !! l) =? 0).

Definition guessProjectType (st : Stats) : string :=
  if counted st "kotlin" || counted st "java" then "android"
  else if counted st "javascript" && counted st "html" then "web"
  else if counted st "python" then "python"
  else "generic".

(** Some record has the language [l]. *)
Definition anyIn (rs : list FileRecord) (l : string) : bool :=
  existsb (hasLanguage l) rs.

(** The manifest that [generateConfigFile] makes. *)
Definition isManifest (m : FileRecord) : Prop :=
  fileName m = "project-config.json" /\ extension m = "json"
  /\ language m = Some "json"
  /\ originalTitle m = Some "Configurazione Progetto"
  /\ fileComplexity m = low /\ metadata m <> None.

End ExtractorNotions.

Module MatcherNotions.
Import Str RegExp Method CodeExtractor Spec.
Local Open Scope nat_scope.

(** Every character of a string passes a test. *)
Fixpoint every (P : ascii -> bool) (s : string) : bool :=
  match s with
  | EmptyString => true
  | String c r => P c && every P r
  end.

(** The characters of a string that pass a test. *)
Fixpoint keepChars (P : ascii -> bool) (s : string) : string :=
  match s with
  | EmptyString => EmptyString
  | String c r => if P c then String c (keepChars P r) else keepChars P r
  end.

(** Under the flags, a pattern consumes only characters that pass the
    test [P]. *)
Fixpoint accepts (fl : Flags) (P : ascii -> bool) (r : regex) : Prop :=
  match r with
  | Eps | Bol | Eol => True
  | Chr c => forall x, charMatches fl c x = true -> P x = true
  | Cls p | Rep p _ _ => forall x, p x = true -> P x = true
  | Seq a b | Alt a b => accepts fl P a /\ accepts fl P b
  | Opt a | Grp a => accepts fl P a
  end.

(** The least number of characters that a match of a pattern holds. *)
Fixpoint minLen (r : regex) : nat :=
  match r with
  | Eps | Bol | Eol | Opt _ => 0
  | Chr _ | Cls _ => 1
  | Rep _ min _ => min
  | Seq a b => minLen a + minLen b
  | Alt a b => Nat.min (minLen a) (minLen b)
  | Grp a => minLen a
  end.

(** A file name that is not empty and is made of letters, digits, the
    underscore, the dot and the hyphen. *)
Definition safeName (s : string) : Prop :=
  s <> "" /\ every isNameChar s = true.

(** What a successful run of a pattern has consumed. *)
Definition Consumed (P : ascii -> bool) (m : nat) (rest : string) (n : nat)
    (k : Cont) (o : nat * Capture) : Prop :=
  exists w prev' rest' g',
    rest = w +:+ rest' /\ every P w = true /\ m <= len w
    /\ k prev' rest' (n + len w) g' = Some o.

End MatcherNotions.

Module CharNotions.
Import Str.

(** A test holds of the 256 characters. *)
Definition forallAscii (f : ascii -> bool) : bool :=
  let bits := [true; false] in
  forallb (fun b0 => forallb (fun b1 => forallb (fun b2 => forallb (fun b3 =>
  forallb (fun b4 => forallb (fun b5 => forallb (fun b6 => forallb (fun b7 =>
    f (Ascii b0 b1 b2 b3 b4 b5 b6 b7))
  bits) bits) bits) bits) bits) bits) bits) bits.

End CharNotions.

Module LanguageNotions.
Import Str RegExp Method CodeExtractor Spec.
Local Open Scope nat_scope.

(** The extension of a language in the table of [buildFileName], [txt]
    for no language and for a language that the table does not hold. *)
Definition extensionOf (l : option string) : string :=
  default "txt" (l ≫= fun l' => lookup l' languageExtensions).

(** The pattern of kotlin, the first of [patterns.languages]. *)
Definition kotlinPattern : regex :=
  alts [Seq (lit "package") ws1;
        seqs [lit "class"; ws1; word1];
        Seq (lit "fun") ws1].

End LanguageNotions.

Module CleanNotions.
Import Str RegExp Method CodeExtractor Spec.
Local Open Scope nat_scope.

(** A block of markdown: the opening fence with a language tag, the
    body, the closing fence. *)
Definition fenced (tag body : string) : string :=
  "```" +:+ tag +:+ nl +:+ body +:+ nl +:+ "```".

(** The files that [generateProjectStructure] puts under [src]. *)
Definition isSourceCode (f : FileRecord) : bool :=
  inList (extension f) ["kt"; "java"].

End CleanNotions.

Module Exports.
Import Str RegExp Method CodeExtractor MatcherNotions.
Local Open Scope nat_scope.
Local Open Scope method_scope.

(** The object that the export methods return. *)
Record Export := {
  x_content : string;
  x_filename : string;
  x_mimeType : string
}.

Definition csvHeaders : list string :=
  ["fileName"; "extension"; "language"; "size"; "lines"; "complexity"].

(** [file.language || 'unknown'] *)
Definition languageOr (o : option string) (d : string) : string :=
  match o with
  | Some l => if truthy l then l else d
  | None => d
  end.

(** A row of [exportToCsv]; reading [complexity] off a record without
    [metadata] is a TypeError. *)
Definition csvRow (file : FileRecord) : Result (list string) :=
  match metadata file with
  | Some m =>
      Ok [fileName file; extension file; languageOr (language file) "unknown";
          ofNat (size file); ofNat (lines file);
          complexityName (complexity m)]
  | None => Throw (TypeError "file.metadata.complexity")
  end.

(** [this.extractedFiles.map(file => [...])] *)
Fixpoint csvRows (files : list FileRecord) : Result (list (list string)) :=
  match files with
  | [] => Ok []
  | file :: rest =>
      match csvRow file with
      | Ok row =>
          match csvRows rest with
          | Ok rows => Ok (row :: rows)
          | Throw e => Throw e
          end
      | Throw e => Throw e
      end
  end.

Definition exportToCsv : M Extractor Export :=
  this <- get ;;
  rows <- lift (csvRows (extractedFiles this)) ;;
  let csvContent := join nl (join "," csvHeaders :: map (join ",") rows) in
  ret {| x_content := csvContent;
         x_filename := "extracted-files.csv";
         x_mimeType := "text/csv" |}.

(** A string without the character [c]. *)
Definition without (c : ascii) (s : string) : bool :=
  every (fun x => negb (ascii_eqb x c)) s.

(** A field that a CSV line can hold as it is: no comma and no line
    feed. *)
Definition plainField (s : string) : bool :=
  without "," s && without LF s.

(** The fields of the line of a record. *)
Definition fieldsOf (r : FileRecord) : list string :=
  [fileName r; extension r; languageOr (language r) "unknown";
   ofNat (size r); ofNat (lines r); complexityName (fileComplexity r)].

(** What [exportToCsv] needs of a record. *)
Definition exportable (r : FileRecord) : Prop :=
  metadata r <> None /\ Forall (fun f => plainField f = true) (fieldsOf r).

End Exports.

Module NumberedText.
Import Str RegExp Method CodeExtractor Spec MatcherNotions.
Local Open Scope nat_scope.

(** White space that does not end a line. *)
Definition isBlank (c : ascii) : bool :=
  isWhiteSpace c && negb (isLineTerminator c).

(** A text written section by section: a header line made of an
    indentation, a number, a period, a gap and a title, then the body
    on the lines that follow.  These definitions describe texts; they
    are not taken from [findHeaders]. *)
Record NumberedSection := {
  sec_indent : string;
  sec_number : string;
  sec_gap : string;
  sec_title : string;
  sec_body : string
}.

Definition headerLine (s : NumberedSection) : string :=
  sec_indent s +:+ sec_number s +:+ "." +:+ sec_gap s +:+ sec_title s.

Definition block (s : NumberedSection) : string :=
  headerLine s +:+ nl +:+ sec_body s.

(** The sections one after the other, each on lines of its own. *)
Definition textOf (secs : list NumberedSection) : string :=
  join nl (map block secs).

(** The string starts with a character that passes the test. *)
Definition startsWithChar (P : ascii -> bool) (s : string) : bool :=
  match s with
  | String c _ => P c
  | EmptyString => false
  end.

(** A well-formed numbered header with a non-empty body, in the words
    of section 4.1 of the specification: optional leading white space,
    an integer, a period, white space, a title to the end of the line;
    the body is not empty once trimmed. *)
Definition wellFormedBySpec (s : NumberedSection) : bool :=
  every isBlank (sec_indent s)
  && negb (isEmpty (sec_number s)) && every isDigit (sec_number s)
  && negb (isEmpty (sec_gap s)) && every isBlank (sec_gap s)
  && startsWithChar (fun c => negb (isWhiteSpace c)) (sec_title s)
  && every isDot (sec_title s)
  && hasInk (sec_body s).

(** The string is a period, or digits followed by a period, followed
    by anything. *)
Fixpoint periodAfterDigits (s : string) : bool :=
  match s with
  | String c r => ascii_eqb c "." || (isDigit c && periodAfterDigits r)
  | EmptyString => false
  end.

(** The string starts with an integer and a period. *)
Definition startsNumbered (s : string) : bool :=
  match s with
  | String c r => isDigit c && periodAfterDigits r
  | EmptyString => false
  end.

(** Some line of the text starts with an integer and a period;
    [atStart] tells whether the text itself starts a line. *)
Fixpoint numberedLine (atStart : bool) (s : string) : bool :=
  match s with
  | EmptyString => false
  | String c r =>
      (atStart && startsNumbered s) || numberedLine (isLineTerminator c) r
  end.

(** A section as the extractor reads it: the header is not indented,
    the gap is optional, and no line of the body starts with an integer
    and a period. *)
Definition wellFormed (s : NumberedSection) : bool :=
  isEmpty (sec_indent s)
  && negb (isEmpty (sec_number s)) && every isDigit (sec_number s)
  && every isBlank (sec_gap s)
  && startsWithChar (fun c => negb (isWhiteSpace c)) (sec_title s)
  && every isDot (sec_title s)
  && hasInk (sec_body s)
  && negb (numberedLine true (sec_body s)).

(** The record of a section: the title of its header and its body,
    trimmed, and cleaned when [cleanCode] is set. *)
Definition recordOfSection (options : Options) (s : NumberedSection)
    (r : FileRecord) : Prop :=
  originalTitle r = Some (trim (sec_title s))
  /\ content r = stored options (trim (sec_body s)).

(** The matches of the header pattern in the text of the sections,
    the first of which starts at index [i]. *)
Fixpoint matchesOf (i : nat) (secs : list NumberedSection) : list Match :=
  match secs with
  | [] => []
  | s :: rest =>
      {| index := i; text := headerLine s; group1 := Some (sec_title s) |}
      :: matchesOf (i + len (block s) + 1) rest
  end.

(** What may come before the first header: nothing, or lines none of
    which starts with an integer and a period. *)
Definition okPreamble (p : string) : bool :=
  isEmpty p || (endsWith p nl && negb (numberedLine true p)).

(** The character before the position that follows [w]. *)
Fixpoint lastOr (prev : option ascii) (w : string) : option ascii :=
  match w with
  | EmptyString => prev
  | String c r => lastOr (Some c) r
  end.

(** The sample sections: two sections, an indented header, a body
    with a line that starts with a number and a period, and a body
    that is a fenced block. *)
Definition twoSections : list NumberedSection :=
  [ {| sec_indent := ""; sec_number := "1"; sec_gap := " ";
       sec_title := "a.kt"; sec_body := "class A" |};
    {| sec_indent := ""; sec_number := "2"; sec_gap := " ";
       sec_title := "notes"; sec_body := "hello" +:+ nl +:+ "3 apples" |} ].

Definition foreword : string := "Two files follow." +:+ nl.

Definition indented : NumberedSection :=
  {| sec_indent := "  "; sec_number := "1"; sec_gap := " ";
     sec_title := "a.kt"; sec_body := "class A" |}.

Definition withDecimal : NumberedSection :=
  {| sec_indent := ""; sec_number := "1"; sec_gap := " ";
     sec_title := "a.kt"; sec_body := "3.14 is pi" |}.

Definition fencedBody : NumberedSection :=
  {| sec_indent := ""; sec_number := "1"; sec_gap := " ";
     sec_title := "a.kt";
     sec_body := "```kotlin" +:+ nl +:+ "class A" +:+ nl +:+ "```" |}.

End NumberedText.

(** ** The definitions on small inputs *)

Module Examples.
Import Str RegExp Method.
Local Open Scope nat_scope.

Example trim_both_ends : trim ("  a b " +:+ nl) = "a b".
Proof. reflexivity. Qed.

Example substring_swaps_and_clamps :
  substring "hello" 3%Z 1%Z = "el" /\ substring "hello" 0%Z (-1)%Z = ""
  /\ substring "hello" 2%Z 99%Z = "llo".
Proof. repeat split. Qed.

Example lastIndexOf_dot :
  lastIndexOf "a.b.c" "." = 3%Z /\ lastIndexOf "abc" "." = (-1)%Z.
Proof. split; reflexivity. Qed.

Example split_keeps_empty_pieces : splitChar "." "a.b." = ["a"; "b"; ""].
Proof. reflexivity. Qed.

Example star_matches_empty :
  replaceAll noFlags (Rep (ascii_eqb "b") 0 true) "abc" "X" = "XaXXcX".
Proof. reflexivity. Qed.

Example replacement_patterns :
  replaceAll noFlags (lit "b") "abcb" "[$&|$$|$`|$'|$1]"
  = "a[b|$|a|cb|$1]c[b|$|abc||$1]".
Proof. vm_compute. reflexivity. Qed.

Example headers_of_sample :
  map (fun h => (CodeExtractor.title h, CodeExtractor.hIndex h,
                 CodeExtractor.fullMatch h))
      (CodeExtractor.findHeaders Samples.sampleText)
  = [("a.kt", 0, "1. a.kt"); ("notes", 16, "2. notes")].
Proof. vm_compute. reflexivity. Qed.

(** [\s*] of the header pattern runs across the end of the line. *)
Example header_takes_next_line :
  map (fun h => (CodeExtractor.title h, CodeExtractor.fullMatch h))
      (CodeExtractor.findHeaders ("1." +:+ nl +:+ "foo"))
  = [("foo", "1." +:+ nl +:+ "foo")].
Proof. vm_compute. reflexivity. Qed.

Example cleanCode_marker_and_fence :
  CodeExtractor.cleanCode ("KOTLIN" +:+ nl +:+ "class A") = "class A"
  /\ CodeExtractor.cleanCode
       ("```kotlin" +:+ nl +:+ "val x = 1" +:+ nl +:+ "```") = "val x = 1".
Proof. split; vm_compute; reflexivity. Qed.

Example file_names :
  CodeExtractor.extractFileName "MainActivity.kt - entry" = "MainActivity.kt"
  /\ CodeExtractor.extractFileName "My File (v2)" = "myfilev2"
  /\ CodeExtractor.buildFileName "notes" (Some "python") = "notes.py"
  /\ CodeExtractor.buildFileName "notes" None = "notes.txt"
  /\ CodeExtractor.getFileExtension "a.B.KT" = "kt".
Proof. repeat split; vm_compute; reflexivity. Qed.

Example languages_by_precedence :
  CodeExtractor.detectLanguage "fun main() {}" = Some "kotlin"
  /\ CodeExtractor.detectLanguage "SELECT * FROM t" = Some "sql"
  /\ CodeExtractor.detectLanguage "class A" = Some "kotlin"
  /\ CodeExtractor.detectLanguage "plain words" = None.
Proof. repeat split; vm_compute; reflexivity. Qed.

Example joinPath_cases :
  FileOrganizer.joinPath (Some "src") "a" = "src/a"
  /\ FileOrganizer.joinPath (Some "src/") "a" = "src/a"
  /\ FileOrganizer.joinPath (Some "") "a" = "a"
  /\ FileOrganizer.joinPath None "a" = "a".
Proof. repeat split. Qed.

Example split_by_lines :
  Samples.summary
    (fst (FileOrganizer.splitFileContent Platform.sampleEnv Samples.fiveLines
            {| FileOrganizer.strategy := Some "by_lines";
               FileOrganizer.linesPerFile := Some 2%Z |}
            FileOrganizer.newOrganizer))
  = [("big_part1.kt", 2, "a" +:+ nl +:+ "b");
     ("big_part2.kt", 2, "c" +:+ nl +:+ "d");
     ("big_part3.kt", 1, "e")].
Proof. vm_compute. reflexivity. Qed.

Example split_by_class :
  Samples.summary
    (fst (FileOrganizer.splitFileContent Platform.sampleEnv Samples.twoClasses
            {| FileOrganizer.strategy := Some "by_class";
               FileOrganizer.linesPerFile := None |}
            FileOrganizer.newOrganizer))
  = [("A.kt", 2, "package p;" +:+ nl +:+ "class A { int x; }");
     ("B.kt", 2, "package p;" +:+ nl +:+ "class B { }")].
Proof. vm_compute. reflexivity. Qed.

Example split_by_function_is_empty :
  Samples.summary
    (fst (FileOrganizer.splitFileContent Platform.sampleEnv Samples.twoClasses
            {| FileOrganizer.strategy := Some "by_function";
               FileOrganizer.linesPerFile := None |}
            FileOrganizer.newOrganizer))
  = [].
Proof. vm_compute. reflexivity. Qed.

Example merge_concatenate :
  FileOrganizer.mergeFileContents [Samples.javaA; Samples.javaB]
                                  (MString "concatenate")
  = "import a.B;" +:+ nl +:+ "class X {}" +:+ nl +:+ nl +:+
    "import a.B;" +:+ nl +:+ "class Y {}".
Proof. vm_compute. reflexivity. Qed.

Example merge_package_java :
  FileOrganizer.mergeFileContents [Samples.javaA; Samples.javaB]
                                  (MString "package_merge")
  = "import a.B;" +:+ nl +:+ "class X {}" +:+ nl +:+ nl +:+ "class Y {}".
Proof. vm_compute. reflexivity. Qed.

Example pattern_constructor :
  Platform.regExpReplace "a.b" "axb a.b" "Q" = Ok "Q Q"
  /\ Platform.regExpReplace "a\.b" "axb a.b" "Q" = Ok "axb Q"
  /\ Platform.regExpReplace "ab*?c+" "abbcc ac" "[$&]" = Ok "[abbcc] [ac]"
  /\ Platform.regExpReplace "*a" "x" "y" = Throw (SyntaxError "*a")
  /\ Platform.regExpReplace "(a)" "x" "y" = Throw (OutsideFragment "(a)").
Proof. repeat split; vm_compute; reflexivity. Qed.

Example clash_is_reported :
  FileOrganizer.v_errors
    (FileOrganizer.validate (FileOrganizer.files (snd Samples.clashRun)))
  = ["File duplicati: c.kt"].
Proof. vm_compute. reflexivity. Qed.

End Examples.

(** ** Properties of the extractor *)

Module ExtractorProofs.
Import Str RegExp Method CodeExtractor Spec.
Local Open Scope nat_scope.

Lemma digit_not_space c : isDigit c = true -> isWhiteSpace c = false.
Proof.
  destruct c as [b0 b1 b2 b3 b4 b5 b6 b7].
  destruct b0, b1, b2, b3, b4, b5, b6, b7; vm_compute; congruence.
Qed.

Lemma trimEnd_ink c r : isWhiteSpace c = false -> trimEnd (String c r) <> "".
Proof.
  intros Hc. simpl. destruct (trimEnd r); [rewrite Hc|]; discriminate.
Qed.

Lemma trimStart_ink s :
  hasInk s = true ->
  exists c r, trimStart s = String c r /\ isWhiteSpace c = false.
Proof.
  induction s as [|c r IH]; simpl; [discriminate|].
  destruct (isWhiteSpace c) eqn:Hc; simpl; intros H.
  - apply IH, H.
  - exists c, r. split; [reflexivity | exact Hc].
Qed.

Lemma trim_ink s : hasInk s = true -> trim s <> "".
Proof.
  intros H. destruct (trimStart_ink s H) as (c & r & Heq & Hc).
  unfold trim. rewrite Heq. apply trimEnd_ink, Hc.
Qed.

Lemma trim_empty_no_ink s : trim s = "" -> hasInk s = false.
Proof.
  intros H. destruct (hasInk s) eqn:Hi; [|reflexivity].
  exfalso. exact (trim_ink s Hi H).
Qed.

(** A match of [numbered] starts with a digit. *)
Lemma numbered_starts_with_digit prev rest o :
  execAt flagM numbered prev rest = Some o ->
  exists c r, rest = String c r /\ isDigit c = true.
Proof.
  unfold execAt, numbered. simpl.
  destruct (atLineStart flagM prev); [|discriminate].
  destruct rest as [|c r]; simpl; [discriminate|].
  destruct (isDigit c) eqn:Hc; [|discriminate].
  intros _. exists c, r. split; [reflexivity | exact Hc].
Qed.

Lemma scan_numbered_ink rest : forall prev i skip,
  scan flagM numbered prev rest i skip <> [] -> hasInk rest = true.
Proof.
  induction rest as [|c r IH]; intros prev i skip H.
  - destruct skip; simpl in H; [|congruence].
    destruct (execAt flagM numbered prev "") eqn:He; [|congruence].
    apply numbered_starts_with_digit in He.
    destruct He as (c & r & Heq & _). discriminate.
  - simpl. destruct skip as [|k].
    + simpl in H.
      destruct (execAt flagM numbered prev (String c r)) eqn:He.
      * apply numbered_starts_with_digit in He.
        destruct He as (c' & r' & Heq & Hd). inversion Heq; subst.
        rewrite (digit_not_space _ Hd). reflexivity.
      * apply IH in H. rewrite H. apply orb_true_r.
    + simpl in H. apply IH in H. rewrite H. apply orb_true_r.
Qed.

Lemma insertHeader_not_nil h hs : insertHeader h hs <> [].
Proof. destruct hs; simpl; [|destruct (_ <=? _)]; discriminate. Qed.

Lemma headers_ink input : findHeaders input <> [] -> hasInk input = true.
Proof.
  unfold findHeaders, matchAll. intros H.
  apply (scan_numbered_ink input None 0 0).
  intros Hs. apply H. rewrite Hs. reflexivity.
Qed.


Lemma scan_indices fl r rest : forall prev i skip,
  Forall (fun m => i <= index m) (scan fl r prev rest i skip)
  /\ StronglySorted (fun a b => index a < index b) (scan fl r prev rest i skip).
Proof.
  assert (Hweak : forall i (ms : list Match),
            Forall (fun m => S i <= index m) ms ->
            Forall (fun m => i <= index m) ms).
  { intros i ms H. eapply Forall_impl; [exact H|]. simpl. intros; lia. }
  induction rest as [|c rest' IH]; intros prev i skip.
  - destruct skip; simpl; [|split; constructor].
    destruct (execAt fl r prev ""); split; repeat constructor.
  - destruct skip as [|k]; simpl.
    + destruct (execAt fl r prev (String c rest')) as [o|].
      * destruct (IH (Some c) (S i) (Nat.pred (fst o))) as [Hge Hs].
        split.
        -- constructor; [simpl; lia | apply Hweak, Hge].
        -- constructor; [exact Hs|].
           eapply Forall_impl; [exact Hge|]. simpl. intros; lia.
      * destruct (IH (Some c) (S i) 0) as [Hge Hs].
        split; [apply Hweak, Hge | exact Hs].
    + destruct (IH (Some c) (S i) k) as [Hge Hs].
      split; [apply Hweak, Hge | exact Hs].
Qed.

Lemma sortHeaders_sorted hs :
  StronglySorted (fun a b => hIndex a < hIndex b) hs -> sortHeaders hs = hs.
Proof.
  induction 1 as [|h hs Hs IH Hall]; [reflexivity|].
  unfold sortHeaders in *. simpl. rewrite IH.
  destruct hs as [|x rest]; [reflexivity|]. simpl.
  inversion Hall as [|? ? Hx _]; subst.
  destruct (Nat.leb_spec (hIndex h) (hIndex x)); [reflexivity | lia].
Qed.

Lemma map_sorted (ms : list Match) :
  StronglySorted (fun a b => index a < index b) ms ->
  StronglySorted (fun a b => hIndex a < hIndex b) (map headerOf ms).
Proof.
  induction 1 as [|m ms Hs IH Hall]; simpl; constructor; [exact IH|].
  apply Forall_map. exact Hall.
Qed.

(** The matches come in the order of the text, so that the sort of
    [findHeaders] leaves them in place. *)
Lemma findHeaders_in_text_order input :
  findHeaders input = map headerOf (matchAll flagM numbered input)
  /\ StronglySorted (fun a b => hIndex a < hIndex b) (findHeaders input).
Proof.
  pose proof (proj2 (scan_indices flagM numbered input None 0 0)) as Hs.
  apply map_sorted in Hs.
  unfold findHeaders. fold headerOf.
  change (scan flagM numbered None input 0 0)
    with (matchAll flagM numbered input) in Hs.
  rewrite (sortHeaders_sorted _ Hs). split; [reflexivity | exact Hs].
Qed.

Lemma isEmpty_false s : s <> "" -> isEmpty s = false.
Proof. destruct s; [congruence | reflexivity]. Qed.

Lemma extractFileSection_some E input h next options s :
  sectionContent input h next <> "" ->
  exists r s',
    extractFileSection E input h next options s = (Ok (Some r), s')
    /\ recordOf options (h, sectionContent input h next) r
    /\ extractedFiles s' = extractedFiles s.
Proof.
  intros Hne. unfold extractFileSection.
  rewrite (isEmpty_false _ Hne).
  unfold bind, generateFileId, newDateISO, tick, ret. simpl.
  eexists. eexists. split; [reflexivity|].
  split; [|reflexivity].
  split; reflexivity.
Qed.

Lemma extractSections_all E input options hs : forall s,
  Forall (fun p => snd p <> "") (sectionsOf input hs) ->
  exists rs s',
    extractSections E input options hs s = (Ok tt, s')
    /\ extractedFiles s' = extractedFiles s ++ rs
    /\ Forall2 (recordOf options) (sectionsOf input hs) rs.
Proof.
  induction hs as [|h rest IH]; intros s Hall.
  - exists [], s. simpl. rewrite app_nil_r. repeat split. constructor.
  - simpl in Hall. inversion Hall as [|? ? Hh Hrest]; subst. simpl in Hh.
    destruct (extractFileSection_some E input h (head rest) options s Hh)
      as (r & s1 & Hrun & Hrec & Hfiles).
    cbn [extractSections]. unfold bind at 1. rewrite Hrun.
    unfold bind at 1. unfold bind at 1. unfold push, updateStats, modify.
    cbn [fst snd].
    match goal with
    | |- context [extractSections E input options rest ?st] =>
        destruct (IH st Hrest) as (rs & s' & Hloop & Hfs & Hrs)
    end.
    exists (r :: rs), s'. split; [exact Hloop|]. split.
    + rewrite Hfs. simpl. rewrite Hfiles, <- app_assoc. reflexivity.
    + simpl. constructor; assumption.
Qed.


Lemma Forall2_length_eq {A B} (R : A -> B -> Prop) xs ys :
  Forall2 R xs ys -> length xs = length ys.
Proof. induction 1; simpl; congruence. Qed.

Lemma sectionsOf_length input hs : length (sectionsOf input hs) = length hs.
Proof. induction hs; simpl; congruence. Qed.

(** The run of [extractFiles] in terms of the headers that
    [findHeaders] returns and of the sections that [sectionsOf] cuts
    between them: one record for each header, in their order, or one
    more when [generateConfig] is set, the last one then being the
    manifest [project-config.json].  What the headers and the sections
    of a given text are is settled in module [NumberedTextLaws]. *)
Lemma extractFiles_one_record_per_header
    (E : Env) (input : string) (options : Options) (this : Extractor) :
  0 < length (findHeaders input) ->
  Forall (fun p => snd p <> "") (sectionsOf input (findHeaders input)) ->
  exists (records rs : list FileRecord) (this' : Extractor),
    extractFiles E input options this = (Ok records, this')
    /\ extractedFiles this' = records
    /\ length records
       = length (findHeaders input)
         + (if generateConfig options then 1 else 0)
    /\ StronglySorted (fun a b => hIndex a < hIndex b) (findHeaders input)
    /\ Forall2 (recordOf options) (sectionsOf input (findHeaders input)) rs
    /\ (if generateConfig options
        then exists m, records = rs ++ [m]
                       /\ fileName m = "project-config.json"
        else records = rs).
Proof.
  intros Hn Hall.
  assert (Hink : hasInk input = true).
  { apply headers_ink. destruct (findHeaders input); simpl in Hn; [lia|discriminate]. }
  pose proof (trim_ink input Hink) as Htrim.
  assert (Hin : input <> "") by (intros ->; apply Htrim; reflexivity).
  unfold extractFiles.
  rewrite (isEmpty_false _ Hin), (isEmpty_false _ Htrim). cbn [orb].
  unfold bind at 1. unfold clearFiles, modify. cbn [fst snd].
  unfold bind at 1. unfold resetStats, modify. cbn [fst snd].
  destruct (Nat.eqb_spec (length (findHeaders input)) 0) as [H0|_]; [lia|].
  cbv beta. unfold bind at 1.
  match goal with
  | |- context [extractSections E input options (findHeaders input) ?st] =>
      destruct (extractSections_all E input options (findHeaders input) st Hall)
        as (rs & s1 & Hloop & Hfs & Hrs)
  end.
  simpl in Hfs.
  pose proof (Forall2_length_eq _ _ _ Hrs) as Hlen.
  rewrite sectionsOf_length in Hlen.
  rewrite Hloop.
  unfold bind at 1. unfold get at 1. cbn [fst snd].
  rewrite Hfs.
  destruct (Nat.ltb_spec 0 (length rs)) as [_|Hz]; [|lia].
  rewrite andb_true_r.
  destruct (generateConfig options) eqn:Hg.
  - unfold when, bind, generateConfigFile, newDateISO, generateFileId, tick,
      get, ret, push, modify, gets. cbn [fst snd].
    eexists. exists rs. eexists. split; [reflexivity|].
    cbn [extractedFiles]. rewrite Hfs.
    split; [reflexivity|]. split; [rewrite length_app; simpl; lia|].
    split; [apply findHeaders_in_text_order|].
    split; [exact Hrs|].
    eexists. split; reflexivity.
  - unfold when, bind, ret, gets. cbn [fst snd].
    exists rs, rs, s1. rewrite Hfs.
    split; [reflexivity|]. split; [reflexivity|]. split; [lia|].
    split; [apply findHeaders_in_text_order|].
    split; [exact Hrs | reflexivity].
Qed.




End ExtractorProofs.

(** ** Properties of the organizer *)

Module OrganizerProofs.
Import Str RegExp Method FileOrganizer Spec Logic.
Local Open Scope nat_scope.
Local Open Scope method_scope.

(** *** Dry runs: a frame rule for the methods *)

Lemma DryAt_quiet {A} (m : M Organizer A) (s : Organizer) :
  files (snd (m s)) = files s ->
  organizationLog (snd (m s)) = organizationLog s ->
  DryAt 0 m s.
Proof.
  intros Hf Hl. split; [exact Hf|]. exists [].
  rewrite app_nil_r. repeat split; [exact Hl | constructor].
Qed.

Lemma DryAt_ret {A} (a : A) s : DryAt 0 (ret a) s.
Proof. apply DryAt_quiet; reflexivity. Qed.

Lemma DryAt_throw {A} n e s : DryAt n (throw (A := A) e) s.
Proof.
  split; [reflexivity|]. exists []. rewrite app_nil_r.
  repeat split; [constructor | simpl; discriminate].
Qed.

Lemma DryAt_lift {A} (r : Result A) s : DryAt 0 (lift r) s.
Proof. apply DryAt_quiet; reflexivity. Qed.

Lemma DryAt_gets {A} (g : Organizer -> A) s : DryAt 0 (gets g) s.
Proof. apply DryAt_quiet; reflexivity. Qed.

Lemma DryAt_get s : DryAt 0 get s.
Proof. apply DryAt_quiet; reflexivity. Qed.

Lemma DryAt_tick s : DryAt 0 tick s.
Proof. apply DryAt_quiet; reflexivity. Qed.

Lemma DryAt_now E s : DryAt 0 (newDateISO E) s.
Proof. apply DryAt_quiet; reflexivity. Qed.

Lemma DryAt_id E s : DryAt 0 (generateId E) s.
Proof. apply DryAt_quiet; reflexivity. Qed.

Lemma DryAt_log E o s : DryAt 1 (logOperation E o true) s.
Proof.
  split; [reflexivity|]. eexists. split; [reflexivity|].
  split; [repeat constructor | reflexivity].
Qed.

Lemma DryAt_bind {A B} n1 n2 (m : M Organizer A) (f : A -> M Organizer B) s :
  DryAt n1 m s ->
  (forall a s', m s = (Ok a, s') -> DryAt n2 (f a) s') ->
  DryAt (n1 + n2) (x <- m ;; f x) s.
Proof.
  intros (Hf & l1 & Hl1 & Hd1 & Hn1) Hk.
  unfold DryAt, bind. destruct (m s) as [[a|e] s'] eqn:Hm; simpl in *.
  - destruct (Hk a s' eq_refl) as (Hf2 & l2 & Hl2 & Hd2 & Hn2).
    split; [congruence|]. exists (l1 ++ l2).
    split; [rewrite Hl2, Hl1, app_assoc; reflexivity|].
    split; [apply Forall_app; split; assumption|].
    intros b Hb. rewrite length_app, (Hn1 a eq_refl), (Hn2 b Hb). reflexivity.
  - split; [exact Hf|]. exists l1. repeat split; try assumption.
    intros b Hb. discriminate.
Qed.

Lemma DryAt_bind0 {A B} n (m : M Organizer A) (f : A -> M Organizer B) s :
  DryAt 0 m s ->
  (forall a s', m s = (Ok a, s') -> DryAt n (f a) s') ->
  DryAt n (x <- m ;; f x) s.
Proof. intros H1 H2. exact (DryAt_bind 0 n m f s H1 H2). Qed.






(** One step of a method in a dry run. *)
Ltac dry_step :=
  first
    [ apply DryAt_ret | apply DryAt_throw | apply DryAt_lift
    | apply DryAt_gets | apply DryAt_get | apply DryAt_tick
    | apply DryAt_now | apply DryAt_id | apply DryAt_log
    | apply DryAt_bind0; [| intros ? ? ?] ].

Ltac dry := repeat dry_step.





















Lemma ReturnsFiles_gets : ReturnsFiles (gets files).
Proof. intros s rs H. simpl in H. inversion H. reflexivity. Qed.

Lemma ReturnsFiles_bind {A} (m : M Organizer A) f :
  (forall a, ReturnsFiles (f a)) -> ReturnsFiles (x <- m ;; f x).
Proof.
  intros H s rs. unfold bind. destruct (m s) as [[a|e] s'].
  - apply H.
  - simpl. discriminate.
Qed.

Lemma organizeFiles_run E options this :
  configIsValid this = true ->
  organizeFiles E options this
  = afterCheck E options (config this ≫= data) (setLog [] this).
Proof. intros H. unfold organizeFiles, bind at 1, get. simpl. rewrite H. reflexivity. Qed.

Lemma organizeFiles_returns_files E options : ReturnsFiles (organizeFiles E options).
Proof.
  unfold organizeFiles. apply ReturnsFiles_bind. intros this.
  destruct (negb (configIsValid this)); [intros s rs; simpl; discriminate|].
  repeat (apply ReturnsFiles_bind; intros ?). apply ReturnsFiles_gets.
Qed.




(** *** Two dry runs side by side *)

Lemma Sim_ret {A} (RA : A -> A -> Prop) a1 a2 :
  RA a1 a2 -> Sim RA (ret a1) (ret a2).
Proof. intros H s1 s2 HR. split; [exact H | exact HR]. Qed.

Lemma Sim_throw {A} (RA : A -> A -> Prop) e : Sim RA (throw e) (throw e).
Proof. intros s1 s2 HR. split; [reflexivity | exact HR]. Qed.

Lemma Sim_lift {A} (r : Result A) : Sim eq (lift r) (lift r).
Proof. intros s1 s2 HR. split; [destruct r; reflexivity | exact HR]. Qed.

Lemma Sim_bind {A B} (RA : A -> A -> Prop) (RB : B -> B -> Prop)
    (m1 m2 : M Organizer A) (f1 f2 : A -> M Organizer B) :
  Sim RA m1 m2 ->
  (forall a1 a2, RA a1 a2 -> Sim RB (f1 a1) (f2 a2)) ->
  Sim RB (x <- m1 ;; f1 x) (x <- m2 ;; f2 x).
Proof.
  intros Hm Hf s1 s2 HR. destruct (Hm s1 s2 HR) as [Ha HR'].
  unfold bind.
  destruct (m1 s1) as [[a1|e1] s1'], (m2 s2) as [[a2|e2] s2'];
    simpl in *; try contradiction.
  - apply Hf; assumption.
  - split; assumption.
Qed.

Lemma Sim_bind_any {A B} (RB : B -> B -> Prop)
    (m1 m2 : M Organizer A) (f1 f2 : A -> M Organizer B) :
  Sim any m1 m2 ->
  (forall a1 a2, Sim RB (f1 a1) (f2 a2)) ->
  Sim RB (x <- m1 ;; f1 x) (x <- m2 ;; f2 x).
Proof. intros Hm Hf. apply (Sim_bind any); [exact Hm | intros; apply Hf]. Qed.

Lemma Sim_bind_eq {A B} (RB : B -> B -> Prop)
    (m1 m2 : M Organizer A) (f1 f2 : A -> M Organizer B) :
  Sim eq m1 m2 ->
  (forall a, Sim RB (f1 a) (f2 a)) ->
  Sim RB (x <- m1 ;; f1 x) (x <- m2 ;; f2 x).
Proof. intros Hm Hf. apply (Sim_bind eq); [exact Hm | intros ? ? ->; apply Hf]. Qed.

Lemma Sim_now E1 E2 : Sim any (newDateISO E1) (newDateISO E2).
Proof. intros s1 s2 HR. split; [exact I | exact HR]. Qed.

Lemma Sim_id E1 E2 : Sim any (generateId E1) (generateId E2).
Proof. intros s1 s2 HR. split; [exact I | exact HR]. Qed.

Lemma Sim_find n : Sim eq (findFileByName n) (findFileByName n).
Proof.
  intros s1 s2 HR. split; [|exact HR].
  simpl. destruct HR as [-> _]. reflexivity.
Qed.

Lemma Sim_get : Sim (fun a b => files a = files b) get get.
Proof. intros s1 s2 HR. split; [exact (proj1 HR) | exact HR]. Qed.

Lemma Sim_log E1 E2 o1 o2 d :
  eraseOp o1 = eraseOp o2 ->
  Sim eq (logOperation E1 o1 d) (logOperation E2 o2 d).
Proof.
  intros Ho s1 s2 [Hf Hl]. split; [reflexivity|]. split; [exact Hf|].
  simpl. rewrite !map_app, Hl. simpl. unfold eraseEntry at 2 4. simpl.
  rewrite Ho. reflexivity.
Qed.

Lemma Sim_forEach {A} (xs : list A) (b1 b2 : A -> M Organizer unit) :
  (forall x, Sim eq (b1 x) (b2 x)) -> Sim eq (forEach xs b1) (forEach xs b2).
Proof.
  intros H. induction xs as [|x xs IH]; simpl.
  - apply Sim_ret. reflexivity.
  - apply Sim_bind_eq; [apply H | intros; apply IH].
Qed.

Lemma Sim_forEachIndexed {A} (xs : list A) (b1 b2 : nat -> A -> M Organizer unit) :
  (forall i x, Sim eq (b1 i x) (b2 i x)) ->
  forall i, Sim eq (forEachIndexed i xs b1) (forEachIndexed i xs b2).
Proof.
  intros H. induction xs as [|x xs IH]; intros i; simpl.
  - apply Sim_ret. reflexivity.
  - apply Sim_bind_eq; [apply H | intros; apply IH].
Qed.

Ltac sim_leaf :=
  first [ apply Sim_ret; reflexivity | apply Sim_throw | apply Sim_lift
        | apply Sim_find | apply Sim_log; reflexivity ].

Ltac sim_step :=
  first
    [ sim_leaf
    | apply Sim_bind_any; [first [apply Sim_now | apply Sim_id] | intros ? ?]
    | apply Sim_bind_eq; [sim_leaf | intros ?] ].

Ltac sim := repeat sim_step.

Section TwoPlatforms.

Variables E1 E2 : Env.
Hypothesis same_RegExp :
  forall p s r, RegExp_replace E1 p s r = RegExp_replace E2 p s r.

Lemma sim_applyFileRenames config :
  Sim eq (applyFileRenames E1 config true) (applyFileRenames E2 config true).
Proof.
  apply Sim_forEach. intros [oldName newName].
  apply Sim_bind_eq; [apply Sim_find|]. intros [[i file]|]; sim.
Qed.

Lemma sim_applyExtensionChanges config :
  Sim eq (applyExtensionChanges E1 config true)
         (applyExtensionChanges E2 config true).
Proof.
  apply Sim_forEach. intros [fileName' newExtension].
  apply Sim_bind_eq; [apply Sim_find|]. intros [[i file]|]; sim.
Qed.

Lemma sim_applyFolderMappings config :
  Sim eq (applyFolderMappings E1 config true)
         (applyFolderMappings E2 config true).
Proof.
  apply Sim_forEach. intros [fileName' folderPath'].
  apply Sim_bind_eq; [apply Sim_find|]. intros [[i file]|]; sim.
Qed.

Lemma applyReplacements_same rs : forall c,
  applyReplacements E1 rs c = applyReplacements E2 rs c.
Proof.
  induction rs as [|r rs IH]; intros c; simpl; [reflexivity|].
  rewrite same_RegExp. destruct (RegExp_replace E2 _ _ _); [apply IH | reflexivity].
Qed.

Lemma sim_applyContentUpdates config :
  Sim eq (applyContentUpdates E1 config true)
         (applyContentUpdates E2 config true).
Proof using same_RegExp.
  apply Sim_forEach. intros [fileName' updates].
  apply Sim_bind_eq; [apply Sim_find|]. intros [[i file]|]; [|sim].
  destruct (replacements updates) as [rs|];
    [rewrite applyReplacements_same|]; sim.
Qed.

Lemma sim_applyCopyToMultipleLocations config :
  Sim eq (applyCopyToMultipleLocations E1 config true)
         (applyCopyToMultipleLocations E2 config true).
Proof.
  apply Sim_forEach. intros [fileName' locations].
  apply Sim_bind_eq; [apply Sim_find|]. intros [[i file]|]; [|sim].
  apply Sim_forEachIndexed. intros index location. sim.
Qed.

Lemma sim_applyMergeFiles config :
  Sim eq (applyMergeFiles E1 config true) (applyMergeFiles E2 config true).
Proof.
  unfold applyMergeFiles. generalize (lookupMerge "mergeStrategy" config).
  intros strategy'.
  apply Sim_forEach. intros [mergedFileName [names|str]]; [|sim].
  apply (Sim_bind (fun a b => files a = files b)); [apply Sim_get|].
  intros this1 this2 ->.
  destruct (0 <? length (omap (findIn (files this2)) names)); sim.
Qed.

Lemma sim_splitByClass sourceFile pkg imps ms :
  Sim sameNames (splitByClass E1 sourceFile pkg imps ms)
                (splitByClass E2 sourceFile pkg imps ms).
Proof.
  induction ms as [|m ms IH]; simpl; [apply Sim_ret; reflexivity|].
  apply Sim_bind_any; [apply Sim_id|]. intros id1 id2.
  apply Sim_bind_any; [apply Sim_now|]. intros t1 t2.
  apply Sim_bind_any; [apply Sim_now|]. intros c1 c2.
  apply (Sim_bind sameNames); [apply IH|]. intros l1 l2 Hl.
  apply Sim_ret. unfold sameNames in *. simpl. rewrite Hl. reflexivity.
Qed.

Lemma sim_splitByLines sourceFile n fuel : forall remaining i,
  Sim sameNames (splitByLines E1 fuel sourceFile n remaining i)
                (splitByLines E2 fuel sourceFile n remaining i).
Proof.
  induction fuel as [|fuel IH]; intros remaining i; simpl;
    [apply Sim_ret; reflexivity|].
  destruct remaining; [apply Sim_ret; reflexivity|].
  apply Sim_bind_any; [apply Sim_id|]. intros id1 id2.
  apply Sim_bind_any; [apply Sim_now|]. intros t1 t2.
  apply Sim_bind_any; [apply Sim_now|]. intros c1 c2.
  apply (Sim_bind sameNames); [apply IH|]. intros l1 l2 Hl.
  apply Sim_ret. unfold sameNames in *. simpl. rewrite Hl. reflexivity.
Qed.

Lemma sim_splitFileContent sourceFile splitConfig :
  Sim sameNames (splitFileContent E1 sourceFile splitConfig)
                (splitFileContent E2 sourceFile splitConfig).
Proof.
  unfold splitFileContent.
  destruct (strategy splitConfig) as [st|]; [|apply Sim_ret; reflexivity].
  destruct (String.eqb st "by_class"); [apply sim_splitByClass|].
  destruct (String.eqb st "by_lines"); [|apply Sim_ret; reflexivity].
  cbv zeta. destruct (_ <? 0)%Z; [apply Sim_throw | apply sim_splitByLines].
Qed.

Lemma sim_applySplitFiles config :
  Sim eq (applySplitFiles E1 config true) (applySplitFiles E2 config true).
Proof.
  apply Sim_forEach. intros [sourceFileName splitConfig].
  apply Sim_bind_eq; [apply Sim_find|]. intros [[i file]|]; [|sim].
  apply (Sim_bind sameNames); [apply sim_splitFileContent|].
  intros l1 l2 Hl. unfold sameNames in Hl.
  apply Sim_bind_any; [apply Sim_now|]. intros t1 t2.
  apply Sim_bind_eq; [apply Sim_ret; reflexivity|]. intros [].
  apply Sim_log. simpl. rewrite Hl. reflexivity.
Qed.

Lemma sim_section {A} (o : option (list A))
    (f1 f2 : list A -> M Organizer unit) :
  (forall c, Sim eq (f1 c) (f2 c)) -> Sim eq (section o f1) (section o f2).
Proof. intros H. destruct o; simpl; [apply H | apply Sim_ret; reflexivity]. Qed.

Lemma sim_applyOperations d :
  Sim eq (applyOperations E1 d true) (applyOperations E2 d true).
Proof using same_RegExp.
  unfold applyOperations.
  repeat (apply Sim_bind_eq; [apply sim_section; intros c|intros []]);
    [apply sim_applyFileRenames | apply sim_applyExtensionChanges
    | apply sim_applyFolderMappings | apply sim_applyContentUpdates
    | apply sim_applyCopyToMultipleLocations | apply sim_applyMergeFiles |].
  apply sim_section. intros c. apply sim_applySplitFiles.
Qed.

Lemma sim_validate : Sim eq validateOrganizationResults validateOrganizationResults.
Proof. intros s1 s2 HR. split; [reflexivity | exact HR]. Qed.

Lemma sim_report : Sim any (generateOrganizationReport E1) (generateOrganizationReport E2).
Proof. intros s1 s2 HR. split; [exact I | exact HR]. Qed.

Lemma sim_afterCheck options d :
  dryRunOpt options = true ->
  Sim eq (afterCheck E1 options d) (afterCheck E2 options d).
Proof using same_RegExp.
  intros Hdry. unfold afterCheck, finish. rewrite Hdry.
  apply Sim_bind_eq.
  { destruct d; [apply sim_applyOperations | apply Sim_throw]. }
  intros []. apply Sim_bind_eq.
  { destruct (validateResults options);
      [apply sim_validate | apply Sim_ret; reflexivity]. }
  intros []. apply Sim_bind_eq.
  { destruct (generateReport options); [|apply Sim_ret; reflexivity].
    apply Sim_bind_any; [apply sim_report|]. intros. apply Sim_ret. reflexivity. }
  intros []. intros s1 s2 HR. split; [exact (proj1 HR) | exact HR].
Qed.

End TwoPlatforms.

(** *** Resolution of a file reference *)

Lemma findIn_cons x l n :
  findIn (x :: l) n
  = if matchesName n x then Some (0, x)
    else prod_map S (fun f => f) <$> findIn l n.
Proof.
  unfold findIn. simpl. destruct (matchesName n x); simpl.
  - destruct (decide (true = true)); [reflexivity | congruence].
  - destruct (decide (false = true)); [congruence|].
    destruct (list_find _ l) as [[j y]|]; reflexivity.
Qed.

Lemma findIn_lookup fs n i file :
  findIn fs n = Some (i, file) -> fs !! i = Some file.
Proof. unfold findIn. intros H. apply list_find_Some in H. apply H. Qed.

Lemma no_dot_lastIndexOf s : forall i,
  includes s "." = false -> lastIndexOfFrom s "." i = (-1)%Z.
Proof.
  induction s as [|c r IH]; intros i H.
  - reflexivity.
  - change (includes (String c r) ".")
      with (startsWith (String c r) "." || includes r ".") in H.
    apply orb_false_iff in H. destruct H as [Hs Hi].
    change (lastIndexOfFrom (String c r) "." i)
      with (let later := lastIndexOfFrom r "." (S i) in
            if (0 <=? later)%Z then later
            else if startsWith (String c r) "." then Z.of_nat i else (-1)%Z).
    rewrite (IH (S i) Hi), Hs. reflexivity.
Qed.

Lemma no_dot_base s :
  includes s "." = false -> substring s 0%Z (lastIndexOf s ".") = "".
Proof.
  intros H. unfold lastIndexOf. rewrite (no_dot_lastIndexOf s 0 H).
  assert (Hc : forall z, (z <= 0)%Z -> clamp s z = 0).
  { intros z Hz. unfold clamp. lia. }
  unfold substring. rewrite (Hc 0%Z), (Hc (-1)%Z) by lia. reflexivity.
Qed.


Lemma bind_ok {St A B} (m : M St A) (f : A -> M St B) s a s' :
  m s = (Ok a, s') -> (x <- m ;; f x) s = f a s'.
Proof. intros H. unfold bind. rewrite H. reflexivity. Qed.

Lemma bind_throw {St A B} (m : M St A) (f : A -> M St B) s e s' :
  m s = (Throw e, s') -> (x <- m ;; f x) s = (Throw e, s').
Proof. intros H. unfold bind. rewrite H. reflexivity. Qed.

Lemma finish_ok E options s :
  exists s',
    finish E options s = (Ok (files s), s')
    /\ files s' = files s
    /\ organizationLog s' = organizationLog s
    /\ (validateResults options = true ->
        validationResults s' = Some (validate (files s))).
Proof.
  unfold finish.
  destruct (validateResults options), (generateReport options);
    (eexists; split; [reflexivity|]);
    repeat split; try reflexivity; intros; discriminate.
Qed.

Lemma afterCheck_ops E options d s s1 :
  applyOperations E d (dryRunOpt options) s = (Ok tt, s1) ->
  afterCheck E options (Some d) s = finish E options s1.
Proof. intros H. unfold afterCheck. rewrite (bind_ok _ _ _ _ _ H). reflexivity. Qed.

(** The three renaming operations on one rule whose file is found. *)
Lemma rename_step E oldName newName this i file :
  findIn (files this) oldName = Some (i, file) ->
  exists this' g t,
    applyFileRenames E [(oldName, newName)] false this = (Ok tt, this')
    /\ files this' = alter g i (files this)
    /\ forall x, fileName (g x) = newName /\ currentPath (g x) = newName
                 /\ originalPath (g x) = originalPath x
                 /\ operations (g x)
                    = operations x ++ [OpRename (currentPath file) newName t].
Proof.
  intros Hfind. unfold applyFileRenames. cbn [forEach].
  unfold bind at 1. unfold bind at 1. unfold findFileByName, gets at 1.
  cbn [fst snd]. rewrite Hfind.
  unfold bind, newDateISO, tick, when, negb, logOperation, generateId,
    tick, ret, modify, mutate, modify. cbn [fst snd].
  eexists. eexists. eexists. split; [reflexivity|]. split; [reflexivity|].
  intros x. repeat split.
Qed.

Lemma extension_step E key newExtension this i file :
  findIn (files this) key = Some (i, file) ->
  exists this' g,
    applyExtensionChanges E [(key, newExtension)] false this = (Ok tt, this')
    /\ files this' = alter g i (files this)
    /\ forall x,
         fileName (g x)
         = substring key 0%Z (lastIndexOf key ".") +:+ "." +:+ newExtension
         /\ currentPath (g x)
            = substring key 0%Z (lastIndexOf key ".") +:+ "." +:+ newExtension
         /\ extension (g x) = newExtension
         /\ status (g x) = Some extension_changed
         /\ originalPath (g x) = originalPath x.
Proof.
  intros Hfind. unfold applyExtensionChanges. cbn [forEach].
  unfold bind at 1. unfold bind at 1. unfold findFileByName, gets at 1.
  cbn [fst snd]. rewrite Hfind.
  unfold bind, newDateISO, tick, when, negb, logOperation, generateId,
    tick, ret, modify, mutate, modify. cbn [fst snd].
  eexists. eexists. split; [reflexivity|]. split; [reflexivity|].
  intros x. repeat split.
Qed.

Lemma folder_step E key folderPath' this i file :
  findIn (files this) key = Some (i, file) ->
  exists this' g t,
    applyFolderMappings E [(key, folderPath')] false this = (Ok tt, this')
    /\ files this' = alter g i (files this)
    /\ forall x, fileName (g x) = fileName x
                 /\ currentPath (g x)
                    = joinPath (Some folderPath') (fileName file)
                 /\ originalPath (g x) = originalPath x
                 /\ operations (g x)
                    = operations x
                      ++ [OpMove (currentPath file)
                                 (joinPath (Some folderPath') (fileName file))
                                 folderPath' t].
Proof.
  intros Hfind. unfold applyFolderMappings. cbn [forEach].
  unfold bind at 1. unfold bind at 1. unfold findFileByName, gets at 1.
  cbn [fst snd]. rewrite Hfind.
  unfold bind, newDateISO, tick, when, negb, logOperation, generateId,
    tick, ret, modify, mutate, modify. cbn [fst snd].
  eexists. eexists. eexists. split; [reflexivity|]. split; [reflexivity|].
  intros x. repeat split.
Qed.

Lemma loadFiles_single E f s :
  exists g s',
    loadFiles E [f] s = (Ok tt, s')
    /\ files s' = [g] /\ config s' = config s
    /\ fileName g = fileName f /\ originalPath g = Some (fileName f)
    /\ currentPath g = fileName f /\ operations g = [].
Proof.
  unfold loadFiles, loadEach.
  destruct (truthy (id f));
    (eexists; eexists; split; [reflexivity|]); repeat split.
Qed.

Lemma findIn_single_original g key :
  originalPath g = Some key -> findIn [g] key = Some (0, g).
Proof.
  intros H. rewrite findIn_cons. unfold matchesName.
  rewrite H, String.eqb_refl, orb_true_r. reflexivity.
Qed.

(** C10.  [applyExtensionChanges] builds the new name from the key of
    the rule.  Whenever the key resolves to a record, by its file name,
    its original path or its current path, the record gets
    [key.substring(0, key.lastIndexOf('.')) + '.' + newExtension] as
    file name and as current path, whatever its file name was; the
    base is empty when the key has no dot.  So for a record loaded as
    [key] and renamed by a rule of the same configuration, the
    extension rule keyed by [key] finds the record through its
    original path and puts back the old base name. *)
Theorem extensionChange_uses_rule_key
    (E : Env) (key newExtension : string) :
  let newName :=
    substring key 0%Z (lastIndexOf key ".") +:+ "." +:+ newExtension in
  (forall (this : Organizer) (i : nat) (file : FileRecord),
     findIn (files this) key = Some (i, file) ->
     exists this' file',
       applyExtensionChanges E [(key, newExtension)] false this
       = (Ok tt, this')
       /\ files this' !! i = Some file'
       /\ fileName file' = newName /\ currentPath file' = newName
       /\ extension file' = newExtension
       /\ status file' = Some extension_changed
       /\ originalPath file' = originalPath file)
  /\ (includes key "." = false -> newName = "." +:+ newExtension)
  /\ (forall (f : FileRecord) (renamedTo : string) (options : Options),
        fileName f = key -> truthy key = true -> truthy renamedTo = true ->
        dryRunOpt options = false ->
        exists f' this',
          organize E [f]
            (Some {| fileRenames := Some [(key, renamedTo)];
                     extensionChanges := Some [(key, newExtension)];
                     folderMappings := None; contentUpdates := None;
                     copyToMultipleLocations := None; mergeFiles := None;
                     splitFiles := None; otherKeys := [] |})
            options newOrganizer
          = (Ok [f'], this')
          /\ fileName f' = newName /\ currentPath f' = newName).
Proof.
  intros newName. split; [|split].
  - intros this i file Hfind.
    pose proof (findIn_lookup _ _ _ _ Hfind) as Hi.
    destruct (extension_step E key newExtension this i file Hfind)
      as (this' & g & Hrun & Hfs & Hg).
    exists this', (g file). split; [exact Hrun|]. split.
    { rewrite Hfs, list_lookup_alter. destruct (decide (i = i)); [|congruence].
      rewrite Hi. reflexivity. }
    apply Hg.
  - intros H. unfold newName. rewrite (no_dot_base key H). reflexivity.
  - intros f renamedTo options Hname Hkey Hnew Hdry.
    set (cfg := {| fileRenames := Some [(key, renamedTo)];
                   extensionChanges := Some [(key, newExtension)];
                   folderMappings := None; contentUpdates := None;
                   copyToMultipleLocations := None; mergeFiles := None;
                   splitFiles := None; otherKeys := [] |}).
    destruct (loadFiles_single E f newOrganizer)
      as (g & s0 & Hload & Hfs0 & _ & Hg1 & Hg2 & Hg3 & _).
    rewrite Hname in Hg2.
    unfold organize. rewrite (bind_ok _ _ _ _ _ Hload).
    assert (Hcfg : loadConfig (Some cfg) s0
                   = (Ok tt, setConfig (Some (validateAndNormalizeConfig (Some cfg))) s0)
                   /\ isValid (validateAndNormalizeConfig (Some cfg)) = true).
    { unfold loadConfig, validateAndNormalizeConfig. simpl.
      rewrite Hkey, Hnew. simpl. split; reflexivity. }
    destruct Hcfg as [Hcfg Hvalid].
    rewrite (bind_ok _ _ _ _ _ Hcfg).
    rewrite organizeFiles_run by exact Hvalid.
    set (s1 := setLog [] (setConfig _ s0)).
    assert (Hfs1 : files s1 = [g]) by exact Hfs0.
    destruct (rename_step E key renamedTo s1 0 g)
      as (s2 & r & t1 & Hren & Hfs2 & Hr).
    { rewrite Hfs1. apply findIn_single_original, Hg2. }
    rewrite Hfs1 in Hfs2. simpl in Hfs2.
    destruct (extension_step E key newExtension s2 0 (r g))
      as (s3 & x & Hext & Hfs3 & Hx).
    { rewrite Hfs2. apply findIn_single_original.
      rewrite (proj1 (proj2 (proj2 (Hr g)))). exact Hg2. }
    rewrite Hfs2 in Hfs3. simpl in Hfs3.
    assert (Hops : applyOperations E cfg (dryRunOpt options) s1 = (Ok tt, s3)).
    { rewrite Hdry. unfold applyOperations, cfg.
      cbn [fileRenames extensionChanges folderMappings contentUpdates
           copyToMultipleLocations mergeFiles splitFiles section].
      rewrite (bind_ok _ _ _ _ _ Hren), (bind_ok _ _ _ _ _ Hext).
      reflexivity. }
    replace (config (setConfig (Some (validateAndNormalizeConfig (Some cfg))) s0) ≫= data)
      with (Some cfg) by reflexivity.
    fold s1. rewrite (afterCheck_ops _ _ _ _ _ Hops).
    destruct (finish_ok E options s3) as (s4 & Hfin & _).
    rewrite Hfin, Hfs3. exists (x (r g)), s4.
    split; [reflexivity|]. split; apply Hx.
Qed.

(** C3.  For the working set loaded from one record named [a.kt] and
    the configuration [{fileRenames: {"a.kt": "B.kt"}, folderMappings:
    {"a.kt": "src"}}], [organizeFiles] renames first and maps folders
    afterwards: the folder rule, keyed by the old name, finds the
    renamed record through its original path.  The record ends with
    the file name [B.kt] and the current path [src/B.kt], and its
    operations are the rename from [a.kt] to [B.kt] followed by the
    move from [B.kt] to [src/B.kt]. *)
Theorem rename_then_folder_mapping
    (E : Env) (f : FileRecord) (options : Options) :
  fileName f = "a.kt" -> dryRunOpt options = false ->
  exists f' this' t1 t2,
    organize E [f]
      (Some {| fileRenames := Some [("a.kt", "B.kt")];
               extensionChanges := None;
               folderMappings := Some [("a.kt", "src")];
               contentUpdates := None; copyToMultipleLocations := None;
               mergeFiles := None; splitFiles := None; otherKeys := [] |})
      options newOrganizer
    = (Ok [f'], this')
    /\ files this' = [f']
    /\ fileName f' = "B.kt" /\ currentPath f' = "src/B.kt"
    /\ operations f'
       = [OpRename "a.kt" "B.kt" t1; OpMove "B.kt" "src/B.kt" "src" t2].
Proof.
  intros Hname Hdry.
  set (cfg := {| fileRenames := Some [("a.kt", "B.kt")];
                 extensionChanges := None;
                 folderMappings := Some [("a.kt", "src")];
                 contentUpdates := None; copyToMultipleLocations := None;
                 mergeFiles := None; splitFiles := None; otherKeys := [] |}).
  destruct (loadFiles_single E f newOrganizer)
    as (g & s0 & Hload & Hfs0 & _ & Hg1 & Hg2 & Hg3 & Hg4).
  rewrite Hname in Hg2, Hg3.
  unfold organize. rewrite (bind_ok _ _ _ _ _ Hload).
  assert (Hcfg : loadConfig (Some cfg) s0
                 = (Ok tt, setConfig (Some (validateAndNormalizeConfig (Some cfg))) s0))
    by reflexivity.
  rewrite (bind_ok _ _ _ _ _ Hcfg).
  rewrite organizeFiles_run by reflexivity.
  set (s1 := setLog [] (setConfig _ s0)).
  assert (Hfs1 : files s1 = [g]) by exact Hfs0.
  destruct (rename_step E "a.kt" "B.kt" s1 0 g)
    as (s2 & r & t1 & Hren & Hfs2 & Hr).
  { rewrite Hfs1. apply findIn_single_original, Hg2. }
  rewrite Hfs1 in Hfs2. simpl in Hfs2.
  destruct (Hr g) as (Hrn & Hrp & Hro & Hrops).
  destruct (folder_step E "a.kt" "src" s2 0 (r g))
    as (s3 & x & t2 & Hmove & Hfs3 & Hx).
  { rewrite Hfs2. apply findIn_single_original. rewrite Hro. exact Hg2. }
  rewrite Hfs2 in Hfs3. simpl in Hfs3.
  destruct (Hx (r g)) as (Hxn & Hxp & _ & Hxops).
  assert (Hops : applyOperations E cfg (dryRunOpt options) s1 = (Ok tt, s3)).
  { rewrite Hdry. unfold applyOperations, cfg.
    cbn [fileRenames extensionChanges folderMappings contentUpdates
         copyToMultipleLocations mergeFiles splitFiles section].
    rewrite (bind_ok _ _ _ _ _ Hren). unfold ret at 1.
    rewrite (bind_ok _ _ _ _ _ (eq_refl : (fun s => (Ok tt, s)) s2 = (Ok tt, s2))).
    rewrite (bind_ok _ _ _ _ _ Hmove). reflexivity. }
  replace (config s1 ≫= data) with (Some cfg) by reflexivity.
  rewrite (afterCheck_ops _ _ _ _ _ Hops).
  destruct (finish_ok E options s3) as (s4 & Hfin & Hfs4 & _).
  rewrite Hfin, Hfs3. exists (x (r g)), s4, t1, t2.
  split; [reflexivity|]. split; [rewrite Hfs4; exact Hfs3|].
  split; [rewrite Hxn; exact Hrn|].
  split; [rewrite Hxp, Hrn; reflexivity|].
  rewrite Hxops, Hrops, Hg4, Hrp, Hrn, Hg3. reflexivity.
Qed.

(** *** Validation of the configuration *)

Lemma folderErrors_unsafe mappings fileName' folderPath' :
  In (fileName', folderPath') mappings ->
  includes folderPath' ".." = true \/ startsWith folderPath' "/" = true ->
  In ("Path non sicuro in folderMappings: " +:+ folderPath')
     (folderErrors mappings).
Proof.
  intros Hin Hbad. unfold folderErrors. apply in_flat_map.
  exists (fileName', folderPath'). split; [exact Hin|].
  assert (H : includes folderPath' ".." || startsWith folderPath' "/" = true).
  { destruct Hbad as [-> | ->]; [reflexivity | apply orb_true_r]. }
  rewrite H. left. reflexivity.
Qed.

(** C7.  A configuration whose [folderMappings] holds a folder path
    that contains [..] or starts with [/], such as [../etc], does not
    pass [validateAndNormalizeConfig]: [isValid] is [false] and
    [errors] names the path.  [loadConfig] throws on it without
    touching the records, and from the state it leaves, every call of
    [organizeFiles] throws before the first operation: no record is
    changed and nothing is logged. *)
Theorem unsafe_folder_mapping_is_rejected
    (c : Configuration) (mappings : list (string * string))
    (fileName' folderPath' : string) :
  folderMappings c = Some mappings ->
  In (fileName', folderPath') mappings ->
  includes folderPath' ".." = true \/ startsWith folderPath' "/" = true ->
  isValid (validateAndNormalizeConfig (Some c)) = false
  /\ errors (validateAndNormalizeConfig (Some c)) <> []
  /\ In ("Path non sicuro in folderMappings: " +:+ folderPath')
        (errors (validateAndNormalizeConfig (Some c)))
  /\ forall (E : Env) (options : Options) (this : Organizer),
       fst (loadConfig (Some c) this)
       = Throw (InvalidConfig (errors (validateAndNormalizeConfig (Some c))))
       /\ files (snd (loadConfig (Some c) this)) = files this
       /\ organizeFiles E options (snd (loadConfig (Some c) this))
          = (Throw ConfigNotLoaded, snd (loadConfig (Some c) this)).
Proof.
  intros Hmap Hin Hbad.
  pose proof (folderErrors_unsafe _ _ _ Hin Hbad) as Herr.
  assert (Hin' : In ("Path non sicuro in folderMappings: " +:+ folderPath')
                    (errors (validateAndNormalizeConfig (Some c)))).
  { cbn [validateAndNormalizeConfig errors]. rewrite Hmap.
    apply in_or_app. right. apply in_or_app. left. exact Herr. }
  assert (Hne : errors (validateAndNormalizeConfig (Some c)) <> []).
  { intros H. rewrite H in Hin'. exact Hin'. }
  assert (Hinv : isValid (validateAndNormalizeConfig (Some c)) = false).
  { cbn [validateAndNormalizeConfig isValid errors] in *.
    destruct (_ ++ _ ++ _); [congruence | reflexivity]. }
  split; [exact Hinv|]. split; [exact Hne|]. split; [exact Hin'|].
  intros E options this.
  assert (Hload : loadConfig (Some c) this
                  = (Throw (InvalidConfig
                              (errors (validateAndNormalizeConfig (Some c)))),
                     setConfig (Some (validateAndNormalizeConfig (Some c))) this)).
  { unfold loadConfig, bind, modify, throw. cbv zeta. cbn [fst snd].
    rewrite Hinv. reflexivity. }
  rewrite Hload. cbn [fst snd].
  split; [reflexivity|]. split; [reflexivity|].
  unfold organizeFiles, bind, get, throw, configIsValid.
  cbn [fst snd config setConfig]. rewrite Hinv. reflexivity.
Qed.

(** *** Validation of the results *)

Lemma listIndexOf_bound names p : forall i o,
  names !! i = Some p ->
  exists k, listIndexOf names p o = Some k /\ k <= o + i.
Proof.
  induction names as [|y rest IH]; intros i o H; [discriminate|].
  simpl. destruct (String.eqb_spec y p) as [->|Hne].
  - exists o. split; [reflexivity | lia].
  - destruct i as [|i]; [simpl in H; congruence|].
    destruct (IH i (o + 1) H) as (k & Hk & Hle).
    exists k. split; [exact Hk | lia].
Qed.

Lemma notFirst_in names p k : 
  listIndexOf names p 0 = Some k ->
  forall rest j o, rest !! j = Some p -> k <> o + j ->
  In p (notFirst names rest o).
Proof.
  intros Hk. induction rest as [|x rest IH]; intros j o Hj Hne; [discriminate|].
  destruct j as [|j]; simpl in Hj.
  - inversion Hj; subst x. simpl. rewrite Hk.
    destruct (Nat.eqb_spec k o); [lia|]. left. reflexivity.
  - simpl. assert (Hin : In p (notFirst names rest (o + 1))).
    { apply (IH j); [exact Hj | lia]. }
    destruct (match listIndexOf names x 0 with
              | Some j0 => negb (j0 =? o)
              | None => true
              end); [right|]; exact Hin.
Qed.

Lemma setAdd_keeps set' x y : In y set' -> In y (setAdd set' x).
Proof.
  intros H. unfold setAdd. destruct (existsb _ _); [exact H|].
  apply in_or_app. left. exact H.
Qed.

Lemma setAdd_adds set' x : In x (setAdd set' x).
Proof.
  unfold setAdd. destruct (existsb (String.eqb x) set') eqn:He.
  - apply existsb_exists in He. destruct He as (y & Hy & Heq).
    apply String.eqb_eq in Heq. subst y. exact Hy.
  - apply in_or_app. right. left. reflexivity.
Qed.

Lemma fold_setAdd_keeps xs : forall acc y,
  In y acc -> In y (fold_left setAdd xs acc).
Proof.
  induction xs as [|x xs IH]; intros acc y H; [exact H|].
  simpl. apply IH, setAdd_keeps, H.
Qed.

Lemma fold_setAdd_in xs : forall acc y,
  In y xs -> In y (fold_left setAdd xs acc).
Proof.
  induction xs as [|x xs IH]; intros acc y H; [destruct H|].
  simpl. destruct H as [->|H].
  - apply fold_setAdd_keeps, setAdd_adds.
  - apply IH, H.
Qed.

Lemma duplicate_listed (fs : list FileRecord) i j a b :
  i <> j -> fs !! i = Some a -> fs !! j = Some b ->
  currentPath a = currentPath b ->
  exists ds,
    In ("File duplicati: " +:+ join ", " ds) (v_errors (validate fs))
    /\ In (currentPath a) ds.
Proof.
  intros Hij Ha Hb Hp.
  set (names := map currentPath fs).
  set (p := currentPath a).
  assert (Hni : names !! i = Some p).
  { unfold names. rewrite list_lookup_fmap, Ha. reflexivity. }
  assert (Hnj : names !! j = Some p).
  { unfold names, p. rewrite list_lookup_fmap, Hb, Hp. reflexivity. }
  assert (Hdup : In p (notFirst names names 0)).
  { destruct (listIndexOf_bound names p i 0 Hni) as (k & Hk & Hki).
    destruct (listIndexOf_bound names p j 0 Hnj) as (k' & Hk' & Hkj).
    assert (k' = k) by congruence. subst k'.
    destruct (Nat.lt_trichotomy i j) as [Hlt|[Heq|Hgt]]; [|lia|].
    - apply (notFirst_in names p k Hk names j 0 Hnj). lia.
    - apply (notFirst_in names p k Hk names i 0 Hni). lia. }
  exists (fold_left setAdd (notFirst names names 0) []).
  split; [|apply fold_setAdd_in, Hdup].
  unfold validate. cbn [v_errors]. fold names.
  destruct (notFirst names names 0) as [|d ds] eqn:Hd; [destruct Hdup|].
  simpl length. cbn [Nat.ltb Nat.leb]. left. reflexivity.
Qed.

(** C8.  When [organizeFiles] returns and validation was asked for
    (the default), the validation results hold, for any two records
    of the final working set with the same current path, live ones in
    particular, an entry of [errors] of the form [File duplicati: ...]
    that lists this path.  The validation itself throws nothing and
    changes neither the records nor the log. *)
Theorem duplicate_paths_are_reported
    (E : Env) (options : Options) (this this' : Organizer)
    (rs : list FileRecord) (i j : nat) (a b : FileRecord) :
  validateResults options = true ->
  organizeFiles E options this = (Ok rs, this') ->
  i <> j -> files this' !! i = Some a -> files this' !! j = Some b ->
  isLive a = true -> isLive b = true ->
  currentPath a = currentPath b ->
  (exists v ds,
     validationResults this' = Some v
     /\ In ("File duplicati: " +:+ join ", " ds) (v_errors v)
     /\ In (currentPath a) ds)
  /\ rs = files this'
  /\ forall s,
       fst (validateOrganizationResults s) = Ok tt
       /\ files (snd (validateOrganizationResults s)) = files s
       /\ organizationLog (snd (validateOrganizationResults s))
          = organizationLog s.
Proof.
  intros Hopt Hrun Hij Ha Hb _ _ Hp.
  split; [|split; [|intros s; repeat split]].
  - destruct (configIsValid this) eqn:Hvalid.
    + rewrite (organizeFiles_run E options this Hvalid) in Hrun.
      unfold afterCheck in Hrun.
      destruct (config this ≫= data) as [d|];
        [|unfold bind, throw in Hrun; simpl in Hrun; discriminate].
      destruct (applyOperations E d (dryRunOpt options) (setLog [] this))
        as [[[]|e] s1] eqn:Hops.
      * rewrite (bind_ok _ _ _ _ _ Hops) in Hrun.
        destruct (finish_ok E options s1) as (s2 & Hfin & Hfs & _ & Hval).
        rewrite Hfin in Hrun.
        inversion Hrun; subst rs this'.
        rewrite Hfs in Ha, Hb.
        destruct (duplicate_listed (files s1) i j a b Hij Ha Hb Hp)
          as (ds & Hin & Hds).
        exists (validate (files s1)), ds.
        split; [apply Hval, Hopt|]. split; assumption.
      * rewrite (bind_throw _ _ _ _ _ Hops) in Hrun. discriminate.
    + unfold organizeFiles, bind, get in Hrun. simpl in Hrun.
      rewrite Hvalid in Hrun. discriminate.
  - pose proof (organizeFiles_returns_files E options this rs) as H.
    rewrite Hrun in H. apply H. reflexivity.
Qed.

(** *** Patterns without syntax characters *)

Lemma plain_char c :
  Platform.isSyntaxChar c = false ->
  ascii_eqb c "\" = false /\ Platform.plainToken c = Platform.TChar c.
Proof.
  destruct c as [b0 b1 b2 b3 b4 b5 b6 b7].
  destruct b0, b1, b2, b3, b4, b5, b6, b7; vm_compute; intros H;
    first [discriminate H | split; reflexivity].
Qed.

Lemma tokens_literal s :
  isLiteralPattern s = true ->
  Platform.tokens s = map Platform.TChar (list_ascii_of_string s).
Proof.
  induction s as [|c r IH]; [reflexivity|].
  unfold isLiteralPattern. cbn [list_ascii_of_string forallb].
  intros H. apply andb_true_iff in H. destruct H as [Hc Hr].
  apply negb_true_iff in Hc. destruct (plain_char c Hc) as [Hb Hp].
  cbn [Platform.tokens]. rewrite Hb, Hp. cbn [map]. f_equal. apply IH, Hr.
Qed.

Lemma build_pending s : forall c,
  Platform.build (Some (Platform.TChar c))
                 (map Platform.TChar (list_ascii_of_string s))
  = Platform.Pattern (Seq (Chr c) (litSeq s)).
Proof.
  induction s as [|c' r IH]; intros c; [reflexivity|].
  cbn [list_ascii_of_string map Platform.build]. rewrite IH. reflexivity.
Qed.

Lemma parse_literal s :
  isLiteralPattern s = true -> Platform.parse s = Platform.Pattern (litSeq s).
Proof.
  intros H. unfold Platform.parse. rewrite (tokens_literal s H).
  destruct s as [|c r]; [reflexivity|].
  cbn [list_ascii_of_string map Platform.build]. rewrite build_pending.
  reflexivity.
Qed.

Lemma run_litSeq s : forall prev rest n,
  run noFlags (litSeq s) prev rest n None (fun _ _ n' g => Some (n', g))
  = if startsWith rest s then Some (n + len s, None) else None.
Proof.
  induction s as [|c r IH]; intros prev rest n.
  - simpl. destruct rest; rewrite Nat.add_0_r; reflexivity.
  - cbn [litSeq run]. destruct rest as [|x rest']; [reflexivity|].
    cbn [startsWith]. unfold charMatches. cbn [ignoreCase noFlags].
    destruct (ascii_eqb c x); [|reflexivity].
    rewrite IH. cbn [andb len String.length].
    replace (S n + len r) with (n + S (len r)) by lia. reflexivity.
Qed.

Lemma take_prefix s : forall rest,
  startsWith rest s = true -> take (len s) rest = s.
Proof.
  induction s as [|c r IH]; intros rest H; [destruct rest; reflexivity|].
  destruct rest as [|x rest']; [discriminate|].
  cbn [startsWith] in H. apply andb_true_iff in H. destruct H as [Hc Hr].
  apply Ascii.eqb_eq in Hc. subst x.
  cbn [len String.length take]. f_equal. apply IH, Hr.
Qed.

Lemma scan_literal find' rest : forall prev i skip,
  scan noFlags (litSeq find') prev rest i skip = occurrences find' rest i skip.
Proof.
  induction rest as [|c rest' IH]; intros prev i skip.
  - destruct skip; [|reflexivity].
    cbn [scan occurrences]. unfold execAt. rewrite run_litSeq.
    destruct (startsWith "" find') eqn:Hs; [|reflexivity].
    unfold mkMatch. cbn [fst snd Nat.add]. rewrite (take_prefix _ _ Hs).
    reflexivity.
  - destruct skip as [|k]; cbn [scan occurrences]; [|apply IH].
    unfold execAt. rewrite run_litSeq.
    destruct (startsWith (String c rest') find') eqn:Hs; [|apply IH].
    unfold mkMatch. cbn [fst snd Nat.add]. rewrite (take_prefix _ _ Hs), IH.
    reflexivity.
Qed.

Lemma regExpReplace_literal find' subject repl :
  isLiteralPattern find' = true ->
  Platform.regExpReplace find' subject repl
  = Ok (replaceAllLiteral find' repl subject).
Proof.
  intros H. unfold Platform.regExpReplace. rewrite (parse_literal _ H).
  unfold replaceAll, matchAll, replaceAllLiteral. rewrite scan_literal.
  reflexivity.
Qed.

Lemma applyReplacements_literal E rs : forall c,
  Forall (fun r => isLiteralPattern (find r) = true) rs ->
  applyReplacements (Platform.withRegExp E) rs c
  = Ok (fold_left (fun c' r => replaceAllLiteral (find r) (replace r) c') rs c).
Proof.
  induction rs as [|r rs IH]; intros c H; [reflexivity|].
  inversion H as [|? ? Hr Hrs]; subst.
  cbn [applyReplacements fold_left Platform.withRegExp RegExp_replace].
  rewrite (regExpReplace_literal _ _ _ Hr). apply IH, Hrs.
Qed.

Lemma contentUpdates_step E this fileName' updates rs i file c :
  findIn (files this) fileName' = Some (i, file) ->
  replacements updates = Some rs ->
  applyReplacements E rs (content file) = Ok c ->
  exists this' file',
    applyContentUpdates E [(fileName', updates)] false this = (Ok tt, this')
    /\ files this' !! i = Some file'
    /\ content file' = finishUpdate updates c
    /\ size file' = blobSize (content file')
    /\ status file' = Some content_updated.
Proof.
  intros Hfind Hrs Hc.
  pose proof (findIn_lookup _ _ _ _ Hfind) as Hi.
  unfold applyContentUpdates. cbn [forEach].
  unfold bind at 1. unfold bind at 1. unfold findFileByName, gets at 1.
  cbn [fst snd]. rewrite Hfind, Hrs, Hc.
  unfold bind, lift, newDateISO, tick, when, negb, logOperation, generateId,
    tick, ret, modify, mutate, modify. cbn [fst snd].
  eexists. eexists. split; [reflexivity|].
  cbn [files setFiles setLog setReadings].
  split.
  { rewrite list_lookup_alter. destruct (decide (i = i)); [|congruence].
    rewrite Hi. reflexivity. }
  repeat split.
Qed.

(** C9, as amended.  For a rule of [contentUpdates] whose file is
    found, [applyContentUpdates] applies the find/replace pairs in the
    order of the list, each to the result of the one before, as
    [content.replace(new RegExp(find, 'g'), replace)]: [find] is a
    pattern.  The imports are then put in front and the package
    declaration is rewritten, as the rule asks; the record gets this
    content, its size is computed again from it and its status becomes
    [content_updated].  When no find string holds a syntax character
    of patterns, each pair replaces every occurrence of its find
    string. *)
Theorem contentUpdates_replace_in_order
    (E : Env) (this : Organizer) (fileName' : string)
    (updates : ContentUpdate) (rs : list Replacement)
    (i : nat) (file : FileRecord) :
  findIn (files this) fileName' = Some (i, file) ->
  replacements updates = Some rs ->
  (forall c,
     applyReplacements E rs (content file) = Ok c ->
     exists this' file',
       applyContentUpdates E [(fileName', updates)] false this
       = (Ok tt, this')
       /\ files this' !! i = Some file'
       /\ content file' = finishUpdate updates c
       /\ size file' = blobSize (content file')
       /\ status file' = Some content_updated)
  /\ (Forall (fun r => isLiteralPattern (find r) = true) rs ->
      exists this' file',
        applyContentUpdates (Platform.withRegExp E) [(fileName', updates)]
                            false this
        = (Ok tt, this')
        /\ files this' !! i = Some file'
        /\ content file'
           = finishUpdate updates
               (fold_left
                  (fun c r => replaceAllLiteral (find r) (replace r) c)
                  rs (content file))
        /\ size file' = blobSize (content file')
        /\ status file' = Some content_updated).
Proof.
  intros Hfind Hrs. split.
  - intros c Hc. exact (contentUpdates_step E _ _ _ _ _ _ c Hfind Hrs Hc).
  - intros Hlit.
    apply (contentUpdates_step (Platform.withRegExp E) _ _ _ _ _ _ _ Hfind Hrs).
    apply applyReplacements_literal, Hlit.
Qed.

(** C5, as amended.  Take two dry runs of [organizeFiles] that start
    with the same records and the same valid configuration, at
    different readings of the clock and of the random generator (the
    second run after the first on one organizer, or two organizers).
    Their logs have the same entries in the same order, entry by entry
    equal in the operation, its fields and the [dryRun] mark, and
    differ at most in the [timestamp] and [id] of the entries; the two
    runs return the same records or throw the same exception. *)
Theorem dryRun_logs_agree_up_to_timestamp_and_id
    (E1 E2 : Env) (options : Options) (this1 this2 : Organizer) :
  (forall p s r, RegExp_replace E1 p s r = RegExp_replace E2 p s r) ->
  configIsValid this1 = true ->
  files this1 = files this2 -> config this1 = config this2 ->
  dryRunOpt options = true ->
  map eraseEntry (organizationLog (snd (organizeFiles E1 options this1)))
  = map eraseEntry (organizationLog (snd (organizeFiles E2 options this2)))
  /\ fst (organizeFiles E1 options this1)
     = fst (organizeFiles E2 options this2).
Proof.
  intros Hre Hvalid Hfiles Hconfig Hdry.
  assert (Hvalid2 : configIsValid this2 = true).
  { unfold configIsValid in *. rewrite <- Hconfig. exact Hvalid. }
  rewrite (organizeFiles_run E1 options this1 Hvalid).
  rewrite (organizeFiles_run E2 options this2 Hvalid2).
  rewrite <- Hconfig.
  destruct (sim_afterCheck E1 E2 Hre options (config this1 ≫= data) Hdry
              (setLog [] this1) (setLog [] this2)) as [Hres [_ Hlog]].
  { split; [exact Hfiles | reflexivity]. }
  split; [exact Hlog|].
  destruct (fst (afterCheck E1 _ _ _)), (fst (afterCheck E2 _ _ _));
    simpl in Hres; congruence || contradiction.
Qed.

(** C5, as stated, fails: the second dry run writes other timestamps
    and other ids than the first. *)
Lemma dryRun_logs_differ :
  organizationLog Samples.firstRun <> organizationLog Samples.secondRun.
Proof. vm_compute. discriminate. Qed.

(** C9, as stated, fails: the find string [a.b] is a pattern, whose dot
    matches any character, so that the content [axb], which does not
    hold the string [a.b], becomes [Q]. *)
Lemma contentUpdates_find_is_a_pattern :
  exists this' file',
    applyContentUpdates Platform.sampleEnv [("a.kt", Samples.dotRule)] false
      (Samples.loaded [Samples.sampleFile "a.kt" "axb"] Samples.noRules)
    = (Ok tt, this')
    /\ files this' !! 0 = Some file'
    /\ content file' = "Q"
    /\ replaceAllLiteral "a.b" "Q" "axb" = "axb"
    /\ content file' <> replaceAllLiteral "a.b" "Q" "axb".
Proof.
  eexists. eexists. split; [vm_compute; reflexivity|].
  split; [reflexivity|]. split; [reflexivity|]. split; [reflexivity|].
  vm_compute. discriminate.
Qed.

(** C6 on the code: two Kotlin sources that share the import line
    [import a.B], merged with the strategy [package_merge].  The
    merged record is created, and its content holds the line twice;
    the run then throws on the key [mergeStrategy].  Two Java sources,
    whose import line ends with a semicolon, give the line once. *)
Lemma package_merge_repeats_kotlin_import :
  exists this' a b m,
    organize Platform.sampleEnv [Samples.kotlinA; Samples.kotlinB]
             (Some Samples.packageMerge) defaultOptions newOrganizer
    = (Throw (TypeError "sourceFiles.map"), this')
    /\ files this' = [a; b; m]
    /\ status m = Some merged
    /\ content m
       = mergeFileContents [Samples.kotlinA; Samples.kotlinB]
                           (MString "package_merge")
    /\ lineCount "import a.B" (content Samples.kotlinA) = 1
    /\ lineCount "import a.B" (content Samples.kotlinB) = 1
    /\ lineCount "import a.B" (content m) = 2
    /\ lineCount "import a.B;"
         (mergeFileContents [Samples.javaA; Samples.javaB]
                            (MString "package_merge")) = 1.
Proof.
  eexists. eexists. eexists. eexists.
  split; [vm_compute; reflexivity|].
  repeat split; vm_compute; reflexivity.
Qed.

(** *** Instances *)

Lemma rename_then_folder_mapping_witness :
  exists f' this' t1 t2,
    organize Platform.sampleEnv [Samples.sampleFile "a.kt" "x"]
             (Some Samples.renameAndMove) defaultOptions newOrganizer
    = (Ok [f'], this')
    /\ files this' = [f']
    /\ fileName f' = "B.kt" /\ currentPath f' = "src/B.kt"
    /\ operations f'
       = [OpRename "a.kt" "B.kt" t1; OpMove "B.kt" "src/B.kt" "src" t2].
Proof.
  apply (rename_then_folder_mapping Platform.sampleEnv
           (Samples.sampleFile "a.kt" "x") defaultOptions); reflexivity.
Defined.

Lemma dryRun_logs_agree_up_to_timestamp_and_id_witness :
  map eraseEntry (organizationLog Samples.firstRun)
  = map eraseEntry (organizationLog Samples.secondRun)
  /\ fst (organizeFiles Platform.sampleEnv Samples.dry
            (Samples.loaded [Samples.sampleFile "a.kt" "x"] Samples.renameAndMove))
     = fst (organizeFiles Platform.sampleEnv Samples.dry Samples.firstRun).
Proof.
  apply (dryRun_logs_agree_up_to_timestamp_and_id
           Platform.sampleEnv Platform.sampleEnv Samples.dry
           (Samples.loaded [Samples.sampleFile "a.kt" "x"] Samples.renameAndMove)
           Samples.firstRun).
  - intros p s r. reflexivity.
  - reflexivity.
  - reflexivity.
  - reflexivity.
  - reflexivity.
Defined.

Lemma unsafe_folder_mapping_is_rejected_witness :
  isValid (validateAndNormalizeConfig (Some Samples.unsafeMapping)) = false
  /\ errors (validateAndNormalizeConfig (Some Samples.unsafeMapping)) <> []
  /\ In ("Path non sicuro in folderMappings: " +:+ "../etc")
        (errors (validateAndNormalizeConfig (Some Samples.unsafeMapping)))
  /\ forall (E : Env) (options : Options) (this : Organizer),
       fst (loadConfig (Some Samples.unsafeMapping) this)
       = Throw (InvalidConfig
                  (errors (validateAndNormalizeConfig (Some Samples.unsafeMapping))))
       /\ files (snd (loadConfig (Some Samples.unsafeMapping) this)) = files this
       /\ organizeFiles E options (snd (loadConfig (Some Samples.unsafeMapping) this))
          = (Throw ConfigNotLoaded, snd (loadConfig (Some Samples.unsafeMapping) this)).
Proof.
  apply (unsafe_folder_mapping_is_rejected Samples.unsafeMapping
           [("a.kt", "../etc")] "a.kt" "../etc").
  - reflexivity.
  - left. reflexivity.
  - left. reflexivity.
Defined.

Lemma duplicate_paths_are_reported_witness :
  (exists v ds,
     validationResults (snd Samples.clashRun) = Some v
     /\ In ("File duplicati: " +:+ join ", " ds) (v_errors v)
     /\ In (currentPath (Samples.nthFile 0 (snd Samples.clashRun))) ds)
  /\ files (snd Samples.clashRun) = files (snd Samples.clashRun)
  /\ forall s,
       fst (validateOrganizationResults s) = Ok tt
       /\ files (snd (validateOrganizationResults s)) = files s
       /\ organizationLog (snd (validateOrganizationResults s))
          = organizationLog s.
Proof.
  apply (duplicate_paths_are_reported Platform.sampleEnv defaultOptions
           (Samples.loaded [Samples.sampleFile "a.kt" "x";
                            Samples.sampleFile "b.kt" "y"] Samples.clash)
           (snd Samples.clashRun) (files (snd Samples.clashRun)) 0 1
           (Samples.nthFile 0 (snd Samples.clashRun))
           (Samples.nthFile 1 (snd Samples.clashRun))).
  - reflexivity.
  - vm_compute. reflexivity.
  - discriminate.
  - vm_compute. reflexivity.
  - vm_compute. reflexivity.
  - vm_compute. reflexivity.
  - vm_compute. reflexivity.
  - vm_compute. reflexivity.
Defined.

Lemma contentUpdates_replace_in_order_witness :
  (exists this' file',
     applyContentUpdates Platform.sampleEnv
       [("a.kt", Samples.dotRule)] false
       (Samples.loaded [Samples.sampleFile "a.kt" "axb"] Samples.noRules)
     = (Ok tt, this')
     /\ files this' !! 0 = Some file'
     /\ content file' = finishUpdate Samples.dotRule "Q"
     /\ size file' = blobSize (content file')
     /\ status file' = Some content_updated)
  /\ exists this' file',
       applyContentUpdates (Platform.withRegExp Platform.sampleEnv)
         [("a.kt", Samples.plainRule)] false
         (Samples.loaded [Samples.sampleFile "a.kt" "xx.x"] Samples.noRules)
       = (Ok tt, this')
       /\ files this' !! 0 = Some file'
       /\ content file'
          = finishUpdate Samples.plainRule
              (fold_left
                 (fun c r => replaceAllLiteral (find r) (replace r) c)
                 [{| find := "x"; replace := "y" |};
                  {| find := "yy"; replace := "z" |}]
                 "xx.x")
       /\ size file' = blobSize (content file')
       /\ status file' = Some content_updated.
Proof.
  split.
  - apply (proj1 (contentUpdates_replace_in_order Platform.sampleEnv
             (Samples.loaded [Samples.sampleFile "a.kt" "axb"] Samples.noRules)
             "a.kt" Samples.dotRule
             [{| find := "a.b"; replace := "Q" |}]
             0 (Samples.nthFile 0
                  (Samples.loaded [Samples.sampleFile "a.kt" "axb"]
                                  Samples.noRules))
             ltac:(vm_compute; reflexivity) ltac:(reflexivity)) "Q").
    vm_compute. reflexivity.
  - apply (proj2 (contentUpdates_replace_in_order Platform.sampleEnv
             (Samples.loaded [Samples.sampleFile "a.kt" "xx.x"] Samples.noRules)
             "a.kt" Samples.plainRule
             [{| find := "x"; replace := "y" |};
              {| find := "yy"; replace := "z" |}]
             0 (Samples.nthFile 0
                  (Samples.loaded [Samples.sampleFile "a.kt" "xx.x"]
                                  Samples.noRules))
             ltac:(vm_compute; reflexivity) ltac:(reflexivity))).
    repeat constructor.
Defined.

Lemma extensionChange_uses_rule_key_witness :
  (exists this' file',
     applyExtensionChanges Platform.sampleEnv [("Makefile", "txt")] false
       (Samples.loaded [Samples.sampleFile "Makefile" "x"] Samples.noRules)
     = (Ok tt, this')
     /\ files this' !! 0 = Some file'
     /\ fileName file' = ".txt" /\ currentPath file' = ".txt"
     /\ extension file' = "txt"
     /\ status file' = Some extension_changed
     /\ originalPath file' = Some "Makefile")
  /\ "" +:+ "." +:+ "txt" = "." +:+ "txt"
  /\ exists f' this',
       organize Platform.sampleEnv [Samples.sampleFile "a.kt" "x"]
         (Some {| fileRenames := Some [("a.kt", "B.kt")];
                  extensionChanges := Some [("a.kt", "java")];
                  folderMappings := None; contentUpdates := None;
                  copyToMultipleLocations := None; mergeFiles := None;
                  splitFiles := None; otherKeys := [] |})
         defaultOptions newOrganizer
       = (Ok [f'], this')
       /\ fileName f' = "a.java" /\ currentPath f' = "a.java".
Proof.
  split; [|split].
  - apply (proj1 (extensionChange_uses_rule_key
                    Platform.sampleEnv "Makefile" "txt")
             (Samples.loaded [Samples.sampleFile "Makefile" "x"] Samples.noRules)
             0 (Samples.nthFile 0
                  (Samples.loaded [Samples.sampleFile "Makefile" "x"] Samples.noRules))).
    reflexivity.
  - apply (proj1 (proj2 (extensionChange_uses_rule_key
                           Platform.sampleEnv "Makefile" "txt"))).
    reflexivity.
  - apply (proj2 (proj2 (extensionChange_uses_rule_key
                           Platform.sampleEnv "a.kt" "java"))
             (Samples.sampleFile "a.kt" "x") "B.kt" defaultOptions);
      reflexivity.
Defined.

End OrganizerProofs.

(** ** Further properties of the organizer *)

Module RecordLaws.
Import Str RegExp Method FileOrganizer Spec Logic Invariants.
Local Open Scope nat_scope.
Local Open Scope method_scope.

(** *** The working set only grows *)

Lemma extends_refl f : extends f f.
Proof.
  repeat split. exists []. rewrite app_nil_r. reflexivity.
Qed.

Lemma extends_trans f g h : extends f g -> extends g h -> extends f h.
Proof.
  intros (a1 & a2 & a3 & a4 & a5 & a6 & a7 & a8 & a9 & o1 & Ho1)
         (b1 & b2 & b3 & b4 & b5 & b6 & b7 & b8 & b9 & o2 & Ho2).
  repeat split; try congruence.
  exists (o1 ++ o2). rewrite Ho2, Ho1, app_assoc. reflexivity.
Qed.

Lemma grows_refl fs : grows fs fs.
Proof.
  exists fs, []. split; [rewrite app_nil_r; reflexivity|].
  induction fs; constructor; [apply extends_refl | assumption].
Qed.

Lemma Forall2_extends_trans fs : forall gs hs,
  Forall2 extends fs gs -> Forall2 extends gs hs -> Forall2 extends fs hs.
Proof.
  induction fs as [|f fs IH]; intros gs hs H1 H2.
  - inversion H1; subst. inversion H2; subst. constructor.
  - inversion H1; subst. inversion H2; subst. constructor.
    + eapply extends_trans; eassumption.
    + eapply IH; eassumption.
Qed.

Lemma grows_trans fs gs hs : grows fs gs -> grows gs hs -> grows fs hs.
Proof.
  intros (u1 & a1 & -> & H1) (u2 & a2 & -> & H2).
  apply Forall2_app_inv_l in H2 as (u2a & u2b & Ha & Hb & ->).
  exists u2a, (u2b ++ a2). split; [rewrite app_assoc; reflexivity|].
  eapply Forall2_extends_trans; eassumption.
Qed.

Lemma extends_mapFile fN fP fE fC fS fF o fSt f :
  extends f (mapFile fN fP fE fC fS fF (pushOp o) fSt f).
Proof. repeat split. exists [o]. reflexivity. Qed.

Lemma grows_alter fs i g :
  (forall f, extends f (g f)) -> grows fs (alter g i fs).
Proof.
  intros Hg. exists (alter g i fs), []. split; [rewrite app_nil_r; reflexivity|].
  revert i. induction fs as [|f fs IH]; intros i; [constructor|].
  destruct i; simpl; constructor; try apply Hg; try apply extends_refl.
  - clear. induction fs; constructor; [apply extends_refl | assumption].
  - apply IH.
Qed.

Lemma grows_push fs f : grows fs (fs ++ [f]).
Proof.
  exists fs, [f]. split; [reflexivity|].
  induction fs; constructor; [apply extends_refl | assumption].
Qed.

Lemma Keeps_quiet {A} (m : M Organizer A) :
  (forall s, files (snd (m s)) = files s) -> Keeps m.
Proof. intros H s. rewrite H. apply grows_refl. Qed.

Lemma Keeps_bind {A B} (m : M Organizer A) (f : A -> M Organizer B) :
  Keeps m -> (forall a, Keeps (f a)) -> Keeps (x <- m ;; f x).
Proof.
  intros Hm Hf s. unfold bind. specialize (Hm s).
  destruct (m s) as [[a|e] s']; simpl in *; [|exact Hm].
  eapply grows_trans; [exact Hm | apply Hf].
Qed.

Lemma Keeps_forEach {A} (xs : list A) (body : A -> M Organizer unit) :
  (forall x, Keeps (body x)) -> Keeps (forEach xs body).
Proof.
  intros Hb. induction xs as [|x xs IH]; simpl.
  - apply Keeps_quiet. reflexivity.
  - apply Keeps_bind; [apply Hb | intros _; exact IH].
Qed.

Lemma Keeps_forEachIndexed {A} (xs : list A)
    (body : nat -> A -> M Organizer unit) :
  (forall i x, Keeps (body i x)) -> forall i, Keeps (forEachIndexed i xs body).
Proof.
  intros Hb. induction xs as [|x xs IH]; intros i; simpl.
  - apply Keeps_quiet. reflexivity.
  - apply Keeps_bind; [apply Hb | intros _; apply IH].
Qed.

Lemma Keeps_mutate i fN fP fE fC fS fF o fSt :
  Keeps (mutate i (mapFile fN fP fE fC fS fF (pushOp o) fSt)).
Proof.
  intros s. simpl. apply grows_alter. intros f. apply extends_mapFile.
Qed.

Lemma Keeps_pushFile f : Keeps (pushFile f).
Proof. intros s. simpl. apply grows_push. Qed.

Lemma Keeps_when b (m : M Organizer unit) : Keeps m -> Keeps (when b m).
Proof.
  intros H. destruct b; simpl; [exact H | apply Keeps_quiet; reflexivity].
Qed.

Ltac keeps_leaf :=
  first
    [ apply Keeps_mutate | apply Keeps_pushFile
    | apply Keeps_quiet; reflexivity ].

Ltac keeps_step :=
  first
    [ keeps_leaf
    | apply Keeps_when
    | apply Keeps_bind; [| intros ?]
    | apply Keeps_forEach; intros ?
    | apply Keeps_forEachIndexed; intros ? ? ].

Ltac keeps := repeat keeps_step.

Lemma Keeps_applyFileRenames E config d : Keeps (applyFileRenames E config d).
Proof.
  unfold applyFileRenames. apply Keeps_forEach. intros [oldName newName].
  apply Keeps_bind; [keeps|]. intros [[i file]|]; keeps.
Qed.

Lemma Keeps_applyExtensionChanges E config d :
  Keeps (applyExtensionChanges E config d).
Proof.
  unfold applyExtensionChanges. apply Keeps_forEach. intros [k v].
  apply Keeps_bind; [keeps|]. intros [[i file]|]; keeps.
Qed.

Lemma Keeps_applyFolderMappings E config d :
  Keeps (applyFolderMappings E config d).
Proof.
  unfold applyFolderMappings. apply Keeps_forEach. intros [k v].
  apply Keeps_bind; [keeps|]. intros [[i file]|]; keeps.
Qed.

Lemma Keeps_applyContentUpdates E config d :
  Keeps (applyContentUpdates E config d).
Proof.
  unfold applyContentUpdates. apply Keeps_forEach. intros [k v].
  apply Keeps_bind; [keeps|]. intros [[i file]|]; keeps.
Qed.

Lemma Keeps_applyCopyToMultipleLocations E config d :
  Keeps (applyCopyToMultipleLocations E config d).
Proof.
  unfold applyCopyToMultipleLocations. apply Keeps_forEach. intros [k v].
  apply Keeps_bind; [keeps|]. intros [[i file]|]; keeps.
Qed.

Lemma Keeps_applyMergeFiles E config d : Keeps (applyMergeFiles E config d).
Proof.
  unfold applyMergeFiles. apply Keeps_forEach. intros [k [names|v]]; [|keeps].
  apply Keeps_bind; [keeps|]. intros this.
  destruct (0 <? _); [|keeps].
  apply Keeps_bind; [keeps|]. intros now.
  apply Keeps_bind; [|intros _; keeps].
  apply Keeps_when. apply Keeps_bind; [keeps|]. intros newId.
  apply Keeps_bind; [keeps|]. intros created'.
  apply Keeps_bind; [keeps|]. intros _.
  apply Keeps_forEach. intros [i f]. keeps.
Qed.

Lemma Keeps_splitByClass E sourceFile pkg imps ms :
  Keeps (splitByClass E sourceFile pkg imps ms).
Proof. induction ms as [|m ms IH]; simpl; keeps. exact IH. Qed.

Lemma Keeps_splitByLines E sourceFile n fuel : forall remaining i,
  Keeps (splitByLines E fuel sourceFile n remaining i).
Proof.
  induction fuel as [|fuel IH]; intros remaining i; simpl; [keeps|].
  destruct remaining; keeps. apply IH.
Qed.

Lemma Keeps_splitFileContent E sourceFile splitConfig :
  Keeps (splitFileContent E sourceFile splitConfig).
Proof.
  unfold splitFileContent. destruct (strategy splitConfig); [|keeps].
  destruct (String.eqb _ _); [apply Keeps_splitByClass|].
  destruct (String.eqb _ _); [|keeps].
  cbv zeta. destruct (_ <? 0)%Z; [keeps | apply Keeps_splitByLines].
Qed.

Lemma Keeps_applySplitFiles E config d : Keeps (applySplitFiles E config d).
Proof.
  unfold applySplitFiles. apply Keeps_forEach. intros [k v].
  apply Keeps_bind; [keeps|]. intros [[i file]|]; [|keeps].
  apply Keeps_bind; [apply Keeps_splitFileContent|]. intros parts. keeps.
Qed.

Lemma Keeps_section {A} (o : option A) (apply : A -> M Organizer unit) :
  (forall c, Keeps (apply c)) -> Keeps (section o apply).
Proof. intros H. destruct o; simpl; [apply H | keeps]. Qed.

Lemma Keeps_applyOperations E d dry : Keeps (applyOperations E d dry).
Proof.
  unfold applyOperations.
  repeat (apply Keeps_bind; [apply Keeps_section; intros c|intros _]);
    try apply Keeps_section; try intros c;
    auto using Keeps_applyFileRenames, Keeps_applyExtensionChanges,
      Keeps_applyFolderMappings, Keeps_applyContentUpdates,
      Keeps_applyCopyToMultipleLocations, Keeps_applyMergeFiles,
      Keeps_applySplitFiles.
Qed.

(** X1. Whatever the configuration and the options, [organizeFiles]
    removes no record and moves none: the records of before stay in
    their places, each with its id, its originalPath, its line count and
    its flags, and with its history of operations extended at the end;
    new records come after them.  This holds also when the run throws. *)
Theorem organizeFiles_keeps_every_record E options s :
  grows (files s) (files (snd (organizeFiles E options s))).
Proof.
  revert s. change (Keeps (organizeFiles E options)).
  unfold organizeFiles. apply Keeps_bind; [keeps|]. intros this.
  destruct (negb _); [keeps|].
  apply Keeps_bind; [keeps|]. intros _.
  apply Keeps_bind.
  { destruct (_ ≫= _); [apply Keeps_applyOperations | keeps]. }
  intros _. apply Keeps_bind.
  { apply Keeps_when. keeps. }
  intros _. apply Keeps_bind; [|intros _; keeps].
  destruct (generateReport options); keeps.
Qed.

End RecordLaws.

Module LoadLaws.
Import Str RegExp Method FileOrganizer Spec Logic Invariants OrganizerProofs.
Local Open Scope nat_scope.
Local Open Scope method_scope.

(** *** Methods that return *)

Lemma Returns_ret {A} (a : A) : Returns (ret a).
Proof. intros s. exists a. reflexivity. Qed.

Lemma Returns_bind {A B} (m : M Organizer A) (f : A -> M Organizer B) :
  Returns m -> (forall a, Returns (f a)) -> Returns (x <- m ;; f x).
Proof.
  intros Hm Hf s. unfold bind. destruct (Hm s) as [a Ha].
  destruct (m s) as [[a'|e] s']; simpl in Ha; [|discriminate].
  apply Hf.
Qed.

Lemma Returns_total {A} (g : Organizer -> A * Organizer) :
  Returns (fun s => (Ok (fst (g s)), snd (g s))).
Proof. intros s. eexists. reflexivity. Qed.

Lemma Returns_forEach {A} (xs : list A) (body : A -> M Organizer unit) :
  (forall x, Returns (body x)) -> Returns (forEach xs body).
Proof.
  intros Hb. induction xs as [|x xs IH]; simpl.
  - apply Returns_ret.
  - apply Returns_bind; [apply Hb | intros _; exact IH].
Qed.

Lemma Returns_when b (m : M Organizer unit) : Returns m -> Returns (when b m).
Proof. intros H. destruct b; [exact H | apply Returns_ret]. Qed.

Lemma Returns_now E : Returns (newDateISO E).
Proof. intros s. eexists. reflexivity. Qed.

Lemma Returns_id E : Returns (generateId E).
Proof. intros s. eexists. reflexivity. Qed.

Lemma Returns_log E o d : Returns (logOperation E o d).
Proof. intros s. eexists. reflexivity. Qed.

Lemma Returns_mutate i g : Returns (mutate i g).
Proof. intros s. eexists. reflexivity. Qed.

Lemma Returns_pushFile f : Returns (pushFile f).
Proof. intros s. eexists. reflexivity. Qed.

Lemma Returns_get : Returns get.
Proof. intros s. eexists. reflexivity. Qed.

Ltac returns_step :=
  first
    [ apply Returns_ret | apply Returns_now | apply Returns_id
    | apply Returns_log | apply Returns_mutate | apply Returns_pushFile
    | apply Returns_get
    | apply Returns_when
    | apply Returns_bind; [| intros ?] ].

Ltac returns := repeat returns_step.

(** *** loadFiles *)

Lemma startsWith_empty s : startsWith s "" = true.
Proof. destruct s; reflexivity. Qed.

Lemma loadEach_spec E fs : forall s,
  exists l s',
    loadEach E fs s = (Ok l, s')
    /\ Forall2 loadedFrom fs l
    /\ files s' = files s /\ config s' = config s
    /\ organizationLog s' = organizationLog s.
Proof.
  induction fs as [|file rest IH]; intros s.
  - exists [], s. repeat split. constructor.
  - simpl. unfold bind at 1.
    destruct (truthy (id file)) eqn:Hid.
    + simpl. unfold bind at 1.
      destruct (IH s) as (l & s' & Hl & HF & H1 & H2 & H3). rewrite Hl.
      eexists _, s'. split; [reflexivity|].
      split; [|auto]. constructor; [|exact HF].
      repeat split; simpl; intros; try congruence; reflexivity.
    + unfold generateId, bind at 1, tick. simpl. unfold bind at 1.
      destruct (IH (setReadings (readings s + 1) s))
        as (l & s' & Hl & HF & H1 & H2 & H3). rewrite Hl.
      eexists _, s'. split; [reflexivity|].
      split; [|auto]. constructor; [|exact HF].
      repeat split; simpl; intros; try congruence; try reflexivity.
      apply startsWith_empty.
Qed.

(** X2. [loadFiles] replaces the working set: whatever the organizer
    held, it then holds one record for each file passed, in the order
    passed; each has its fileName as originalPath and as currentPath,
    no operation and the status [pending]; a non-empty id is kept and an
    empty one is replaced by a generated id.  The configuration and the
    log are left as they were, and the method does not throw. *)
Theorem loadFiles_replaces_working_set E fs s :
  exists s',
    loadFiles E fs s = (Ok tt, s')
    /\ Forall2 loadedFrom fs (files s')
    /\ config s' = config s
    /\ organizationLog s' = organizationLog s.
Proof.
  destruct (loadEach_spec E fs s) as (l & s' & Hl & HF & H1 & H2 & H3).
  exists (setFiles l s'). unfold loadFiles. rewrite (bind_ok _ _ _ _ _ Hl).
  repeat split; assumption.
Qed.

(** *** The log of a run *)

(** X3. With a valid configuration loaded, [organizeFiles] starts from
    an empty log: the entries that an earlier run left have no effect
    on the result nor on the final state, which holds the entries of
    this run only. *)
Theorem organizeFiles_forgets_earlier_log E options s l :
  configIsValid s = true ->
  organizeFiles E options (setLog l s) = organizeFiles E options (setLog [] s).
Proof.
  intros H. rewrite !organizeFiles_run by exact H. reflexivity.
Qed.

(** *** Rules for files that are not there *)

Lemma forEach_skip {A} (xs : list A) (body : A -> M Organizer unit) s :
  Forall (fun x => body x s = (Ok tt, s)) xs ->
  forEach xs body s = (Ok tt, s).
Proof.
  induction 1 as [|x xs Hx _ IH]; [reflexivity|].
  simpl. rewrite (bind_ok _ _ _ _ _ Hx). exact IH.
Qed.

Lemma keyed_skip {A} (body : string -> A -> option (nat * FileRecord)
                              -> M Organizer unit) config s :
  (forall k v, body k v None s = (Ok tt, s)) ->
  Forall (unresolved (files s)) config ->
  forEach config (fun '(k, v) => found <- findFileByName k ;; body k v found) s
  = (Ok tt, s).
Proof.
  intros Hb Hu. apply forEach_skip.
  eapply Forall_impl; [exact Hu|]. intros [k v] Hk.
  unfold unresolved in Hk. simpl in Hk.
  unfold bind, findFileByName, gets. rewrite Hk. apply Hb.
Qed.

Lemma omap_unresolved fs names :
  Forall (fun n => findIn fs n = None) names -> omap (findIn fs) names = [].
Proof.
  induction 1 as [|n names Hn _ IH]; [reflexivity|].
  simpl. rewrite Hn. exact IH.
Qed.

Lemma applyOperations_skip E d dry s :
  Forall (unresolved (files s)) (entries (fileRenames d)) ->
  Forall (unresolved (files s)) (entries (extensionChanges d)) ->
  Forall (unresolved (files s)) (entries (folderMappings d)) ->
  Forall (unresolved (files s)) (entries (contentUpdates d)) ->
  Forall (unresolved (files s)) (entries (copyToMultipleLocations d)) ->
  Forall (unresolvedSources (files s)) (entries (mergeFiles d)) ->
  Forall (unresolved (files s)) (entries (splitFiles d)) ->
  applyOperations E d dry s = (Ok tt, s).
Proof.
  intros H1 H2 H3 H4 H5 H6 H7. unfold applyOperations.
  assert (S1 : section (fileRenames d)
                 (fun c => applyFileRenames E c dry) s = (Ok tt, s)).
  { destruct (fileRenames d) as [c|]; [|reflexivity]. simpl in *.
    unfold applyFileRenames.
    apply (keyed_skip (fun k v found => match found with
                                         | Some (i, file) => _
                                         | None => ret tt end));
      [reflexivity | exact H1]. }
  assert (S2 : section (extensionChanges d)
                 (fun c => applyExtensionChanges E c dry) s = (Ok tt, s)).
  { destruct (extensionChanges d) as [c|]; [|reflexivity]. simpl in *.
    unfold applyExtensionChanges.
    apply (keyed_skip (fun k v found => match found with
                                         | Some (i, file) => _
                                         | None => ret tt end));
      [reflexivity | exact H2]. }
  assert (S3 : section (folderMappings d)
                 (fun c => applyFolderMappings E c dry) s = (Ok tt, s)).
  { destruct (folderMappings d) as [c|]; [|reflexivity]. simpl in *.
    unfold applyFolderMappings.
    apply (keyed_skip (fun k v found => match found with
                                         | Some (i, file) => _
                                         | None => ret tt end));
      [reflexivity | exact H3]. }
  assert (S4 : section (contentUpdates d)
                 (fun c => applyContentUpdates E c dry) s = (Ok tt, s)).
  { destruct (contentUpdates d) as [c|]; [|reflexivity]. simpl in *.
    unfold applyContentUpdates.
    apply (keyed_skip (fun k v found => match found with
                                         | Some (i, file) => _
                                         | None => ret tt end));
      [reflexivity | exact H4]. }
  assert (S5 : section (copyToMultipleLocations d)
                 (fun c => applyCopyToMultipleLocations E c dry) s = (Ok tt, s)).
  { destruct (copyToMultipleLocations d) as [c|]; [|reflexivity]. simpl in *.
    unfold applyCopyToMultipleLocations.
    apply (keyed_skip (fun k v found => match found with
                                         | Some (i, file) => _
                                         | None => ret tt end));
      [reflexivity | exact H5]. }
  assert (S6 : section (mergeFiles d)
                 (fun c => applyMergeFiles E c dry) s = (Ok tt, s)).
  { destruct (mergeFiles d) as [c|]; [|reflexivity]. simpl in *.
    unfold applyMergeFiles. apply forEach_skip.
    eapply Forall_impl; [exact H6|]. intros [k v] (names & Hv & Hn).
    simpl in Hv. subst v. unfold bind at 1, get.
    rewrite (omap_unresolved _ _ Hn). reflexivity. }
  assert (S7 : section (splitFiles d)
                 (fun c => applySplitFiles E c dry) s = (Ok tt, s)).
  { destruct (splitFiles d) as [c|]; [|reflexivity]. simpl in *.
    unfold applySplitFiles.
    apply (keyed_skip (fun k v found => match found with
                                         | Some (i, file) => _
                                         | None => ret tt end));
      [reflexivity | exact H7]. }
  rewrite (bind_ok _ _ _ _ _ S1), (bind_ok _ _ _ _ _ S2),
          (bind_ok _ _ _ _ _ S3), (bind_ok _ _ _ _ _ S4),
          (bind_ok _ _ _ _ _ S5), (bind_ok _ _ _ _ _ S6).
  exact S7.
Qed.

(** X4. A rule whose key is the fileName, the originalPath or the
    currentPath of no record is skipped without an error: when this
    holds for every rule of a valid configuration (for a merge rule, for
    all its source names), [organizeFiles], dry or not, returns the
    records as they were and leaves an empty log. *)
Theorem rules_for_missing_files_are_skipped E options s c d :
  config s = Some c -> isValid c = true -> data c = Some d ->
  Forall (unresolved (files s)) (entries (fileRenames d)) ->
  Forall (unresolved (files s)) (entries (extensionChanges d)) ->
  Forall (unresolved (files s)) (entries (folderMappings d)) ->
  Forall (unresolved (files s)) (entries (contentUpdates d)) ->
  Forall (unresolved (files s)) (entries (copyToMultipleLocations d)) ->
  Forall (unresolvedSources (files s)) (entries (mergeFiles d)) ->
  Forall (unresolved (files s)) (entries (splitFiles d)) ->
  exists s',
    organizeFiles E options s = (Ok (files s), s')
    /\ files s' = files s
    /\ organizationLog s' = [].
Proof.
  intros Hc Hv Hd H1 H2 H3 H4 H5 H6 H7.
  rewrite organizeFiles_run by (unfold configIsValid; rewrite Hc; exact Hv).
  rewrite Hc. simpl. rewrite Hd.
  rewrite (afterCheck_ops E options d _ (setLog [] s))
    by (apply applyOperations_skip; assumption).
  destruct (finish_ok E options (setLog [] s)) as (s' & Hf & Hfiles & Hlog & _).
  exists s'. split; [exact Hf|]. split; [exact Hfiles | exact Hlog].
Qed.

(** *** A string among the values of [mergeFiles] *)

(** X5. Every value of the [mergeFiles] section is read as an array of
    source names.  When one of them is a string, as the value of a key
    [mergeStrategy] is, [applyMergeFiles] throws the TypeError of
    calling [map] on a string, in a dry run as in a real one. *)
Theorem string_in_mergeFiles_throws E config d k v :
  In (k, MString v) config ->
  forall s, fst (applyMergeFiles E config d s) = Throw (TypeError "sourceFiles.map").
Proof.
  unfold applyMergeFiles.
  match goal with |- context [forEach config ?b] => set (body := b) end.
  assert (Hb1 : forall k' names, Returns (body (k', MSources names))).
  { intros k' names. subst body. cbv beta iota.
    apply Returns_bind; [returns|]. intros this. cbv zeta.
    destruct (0 <? _); [|returns].
    apply Returns_bind; [returns|]. intros now.
    apply Returns_bind; [|intros _; returns].
    apply Returns_when. apply Returns_bind; [returns|]. intros newId.
    apply Returns_bind; [returns|]. intros created'.
    apply Returns_bind; [returns|]. intros _.
    apply Returns_forEach. intros [i f]. returns. }
  assert (Hb2 : forall k' v' s,
             body (k', MString v') s = (Throw (TypeError "sourceFiles.map"), s)).
  { reflexivity. }
  clearbody body.
  induction config as [|[k' v'] rest IH]; intros Hin s; [destruct Hin|].
  simpl. unfold bind. destruct v' as [names|v'].
  - destruct Hin as [Heq|Hin]; [discriminate|].
    destruct (Hb1 k' names s) as [[] Hr].
    destruct (body (k', MSources names) s) as [[[]|e] s1];
      simpl in Hr; [|discriminate].
    apply IH, Hin.
  - rewrite Hb2. reflexivity.
Qed.

(** *** The theorems at concrete inputs *)

Lemma organizeFiles_forgets_earlier_log_witness :
  organizeFiles Platform.sampleEnv Samples.dry
    (setLog (organizationLog Samples.firstRun)
            (Samples.loaded [Samples.sampleFile "a.kt" "x"]
                            Samples.renameAndMove))
  = organizeFiles Platform.sampleEnv Samples.dry
      (setLog [] (Samples.loaded [Samples.sampleFile "a.kt" "x"]
                                 Samples.renameAndMove)).
Proof.
  apply (organizeFiles_forgets_earlier_log Platform.sampleEnv Samples.dry
           (Samples.loaded [Samples.sampleFile "a.kt" "x"]
                           Samples.renameAndMove)
           (organizationLog Samples.firstRun)).
  vm_compute. reflexivity.
Defined.

Lemma rules_for_missing_files_are_skipped_witness :
  exists s',
    organizeFiles Platform.sampleEnv defaultOptions
      MoreSamples.stranger
    = (Ok (files MoreSamples.stranger), s')
    /\ files s'
       = files MoreSamples.stranger
    /\ organizationLog s' = [].
Proof.
  apply (rules_for_missing_files_are_skipped Platform.sampleEnv defaultOptions
           MoreSamples.stranger
           (validateAndNormalizeConfig (Some MoreSamples.manyRules))
           MoreSamples.manyRules);
    try (vm_compute; reflexivity);
    repeat constructor.
  exists ["a.kt"; "b.kt"]. split; [reflexivity|].
  repeat constructor.
Defined.

Lemma string_in_mergeFiles_throws_witness :
  fst (applyMergeFiles Platform.sampleEnv
         [("M.kt", MSources ["a.kt"; "b.kt"]);
          ("mergeStrategy", MString "package_merge")]
         true
         (Samples.loaded [Samples.kotlinA; Samples.kotlinB]
                         Samples.packageMerge))
  = Throw (TypeError "sourceFiles.map").
Proof.
  apply (string_in_mergeFiles_throws Platform.sampleEnv
           [("M.kt", MSources ["a.kt"; "b.kt"]);
            ("mergeStrategy", MString "package_merge")]
           true "mergeStrategy" "package_merge").
  right. left. reflexivity.
Defined.

End LoadLaws.

Module ConfigLaws.
Import Str RegExp Method FileOrganizer Spec Logic Invariants ConfigNotions
       OrganizerProofs.
Local Open Scope nat_scope.
Local Open Scope method_scope.

(** *** The configurations that are loaded *)

Lemma flat_map_nil {A B} (f : A -> list B) (l : list A) :
  flat_map f l = [] <-> Forall (fun x => f x = []) l.
Proof.
  induction l as [|x l IH]; simpl.
  - split; [constructor | reflexivity].
  - split.
    + intros H. apply app_eq_nil in H as [H1 H2].
      constructor; [exact H1 | apply IH, H2].
    + intros H. inversion H as [|? ? Hx Hl]; subst. rewrite Hx. simpl.
      apply IH, Hl.
Qed.

Lemma truthy_false s : truthy s = false <-> s = "".
Proof. destruct s; cbn; split; intros H; try discriminate; reflexivity. Qed.

Lemma truthy_true s : truthy s = true <-> s <> "".
Proof.
  destruct s; cbn; split; intros H; try discriminate; try reflexivity;
    congruence.
Qed.

Lemma renameErrors_nil l :
  renameErrors l = [] <-> Forall (fun e => fst e <> "" /\ snd e <> "") l.
Proof.
  unfold renameErrors. rewrite flat_map_nil. apply Forall_iff. intros [a b].
  simpl. destruct (truthy a) eqn:Ha, (truthy b) eqn:Hb; simpl;
    rewrite ?truthy_true, ?truthy_false in *; subst;
    split; try discriminate; try tauto; intros [? ?]; congruence.
Qed.

Lemma folderErrors_nil l :
  folderErrors l = []
  <-> Forall (fun e => includes (snd e) ".." = false
                       /\ startsWith (snd e) "/" = false) l.
Proof.
  unfold folderErrors. rewrite flat_map_nil. apply Forall_iff. intros [a b].
  simpl. destruct (includes b ".."), (startsWith b "/"); simpl;
    split; try discriminate; try tauto; intros [? ?]; congruence.
Qed.

Lemma copyErrors_nil l :
  copyErrors l = [] <-> Forall (fun e => snd e <> []) l.
Proof.
  unfold copyErrors. rewrite flat_map_nil. apply Forall_iff. intros [a b].
  simpl. destruct b; simpl; split; try discriminate; try tauto; congruence.
Qed.

Lemma ofSection_nil {A} (check : list A -> list string) (P : A -> Prop) o :
  (forall l, check l = [] <-> Forall P l) ->
  ofSection check o = [] <-> Forall P (entries o).
Proof.
  intros H. destruct o as [l|]; simpl; [apply H|].
  split; [constructor | reflexivity].
Qed.

Lemma length_eqb_nil {A} (l : list A) : (length l =? 0) = true <-> l = [].
Proof. destruct l; cbn; split; intros H; try discriminate; reflexivity. Qed.

Lemma valid_iff c :
  isValid (validateAndNormalizeConfig (Some c)) = true <-> acceptable c.
Proof.
  unfold validateAndNormalizeConfig. cbn [isValid].
  rewrite length_eqb_nil. unfold acceptable.
  rewrite <- (ofSection_nil renameErrors _ _ renameErrors_nil).
  rewrite <- (ofSection_nil folderErrors _ _ folderErrors_nil).
  rewrite <- (ofSection_nil copyErrors _ _ copyErrors_nil).
  split.
  - intros H. apply app_eq_nil in H as [H1 H]. apply app_eq_nil in H as [H2 H3].
    auto.
  - intros (H1 & H2 & H3). rewrite H1, H2, H3. reflexivity.
Qed.

(** X6. This is stated of the configurations whose sections have the
    shape that the operations read: [fileRenames] and [folderMappings]
    are objects from names to strings, [copyToMultipleLocations] is an
    object from names to arrays.  (The checks of the code that a
    section is an object and that the destinations are an array are
    not embedded: a typed configuration passes them.)  [loadConfig]
    accepts such a configuration exactly when no rename has an empty
    old or new name, no folder of [folderMappings] contains [..] or
    starts with [/], and no copy rule has an empty list of
    destinations.  Among these configurations nothing else is checked:
    not the folders of the copy destinations, nor the names of merged
    or split files.  Accepted or not, the result of the validation is
    stored and the records and the log are untouched. *)
Theorem loadConfig_accepts_exactly c s :
  (fst (loadConfig (Some c) s) = Ok tt <-> acceptable c)
  /\ snd (loadConfig (Some c) s)
     = setConfig (Some (validateAndNormalizeConfig (Some c))) s.
Proof.
  unfold loadConfig. cbv zeta. unfold bind, modify. cbn [fst snd].
  rewrite <- valid_iff.
  destruct (isValid (validateAndNormalizeConfig (Some c))); simpl;
    split; try reflexivity; split; congruence.
Qed.

(** X7. Top-level keys other than the seven sections never make a
    configuration invalid: the errors do not depend on them.  They
    give one warning when one of them is not [projectName],
    [description] or [version], and none otherwise. *)
Theorem unknown_sections_only_warn c keys :
  let v := validateAndNormalizeConfig (Some (withOtherKeys keys c)) in
  errors v = errors (validateAndNormalizeConfig (Some c))
  /\ isValid v = isValid (validateAndNormalizeConfig (Some c))
  /\ (warnings v = [] <-> Forall (fun k => In k knownKeys) keys)
  /\ length (warnings v) <= 1.
Proof.
  cbv zeta. unfold validateAndNormalizeConfig.
  cbn [errors isValid warnings withOtherKeys fileRenames folderMappings
       copyToMultipleLocations otherKeys].
  split; [reflexivity|]. split; [reflexivity|].
  match goal with |- context [List.filter ?q keys] => set (p := q) end.
  set (unknown := List.filter p keys).
  assert (Hk : forall k, p k = false <-> In k knownKeys).
  { intros k. subst p. cbv beta. unfold knownKeys, inList. rewrite in_app_iff.
    rewrite <- negb_orb, negb_false_iff, orb_true_iff.
    rewrite !existsb_exists.
    split.
    - intros [(x & Hx & He)|(x & Hx & He)];
        apply String.eqb_eq in He; subst x; auto.
    - intros [H|H]; [left|right]; exists k; split; auto;
        apply String.eqb_refl. }
  assert (Hu : unknown = [] <-> Forall (fun k => In k knownKeys) keys).
  { subst unknown. clearbody p. induction keys as [|k keys IH].
    - split; [constructor | reflexivity].
    - cbn [List.filter]. destruct (p k) eqn:Hb.
      + split; [discriminate|]. intros H. inversion H as [|? ? Hx Hl]; subst.
        apply Hk in Hx. congruence.
      + rewrite IH. split.
        * intros H. constructor; [apply Hk; exact Hb | exact H].
        * intros H. inversion H; assumption. }
  split.
  - rewrite <- Hu. destruct unknown; simpl; split; congruence.
  - destruct (0 <? length unknown); simpl; lia.
Qed.

(** *** The validation of the results *)

Lemma listIndexOf_fresh pre x post : forall o,
  ~ In x pre -> listIndexOf (pre ++ x :: post) x o = Some (o + length pre).
Proof.
  induction pre as [|y pre IH]; intros o Hn; simpl.
  - rewrite String.eqb_refl. f_equal. lia.
  - destruct (String.eqb_spec y x) as [->|Hne].
    + exfalso. apply Hn. left. reflexivity.
    + rewrite IH by (intros H; apply Hn; right; exact H). f_equal. lia.
Qed.

Lemma listIndexOf_earlier pre x rest : forall o,
  In x pre -> exists k, listIndexOf (pre ++ rest) x o = Some k
                        /\ k < o + length pre.
Proof.
  induction pre as [|y pre IH]; intros o Hin; [destruct Hin|].
  simpl. destruct (String.eqb_spec y x) as [->|Hne].
  - exists o. split; [reflexivity | lia].
  - destruct Hin as [Heq|Hin]; [congruence|].
    destruct (IH (o + 1) Hin) as (k & Hk & Hlt).
    exists k. split; [exact Hk | lia].
Qed.

Lemma notFirst_nil rest : forall pre,
  notFirst (pre ++ rest) rest (length pre) = []
  <-> NoDup rest /\ (forall x, In x rest -> ~ In x pre).
Proof.
  induction rest as [|x rest IH]; intros pre.
  - simpl. split; [intros _; split; [constructor | intros ? []] | reflexivity].
  - simpl notFirst.
    assert (Hstep : notFirst (pre ++ x :: rest) rest (length pre + 1) = []
                    <-> NoDup rest /\ (forall y, In y rest -> ~ In y (pre ++ [x]))).
    { specialize (IH (pre ++ [x])).
      rewrite <- app_assoc, length_app in IH. exact IH. }
    destruct (in_dec string_dec x pre) as [Hin|Hnot].
    + destruct (listIndexOf_earlier pre x (x :: rest) 0 Hin) as (k & Hk & Hlt).
      rewrite Hk. destruct (Nat.eqb_spec k (length pre)); [lia|]. simpl.
      split; [discriminate|]. intros [_ H]. exfalso.
      apply (H x); [left; reflexivity | exact Hin].
    + rewrite (listIndexOf_fresh pre x rest 0 Hnot). simpl.
      rewrite Nat.eqb_refl. simpl. rewrite Hstep. split.
      * intros [Hnd Hall]. split.
        -- constructor; [|exact Hnd]. intros Hx. apply list_elem_of_In in Hx.
           apply (Hall x Hx). apply in_or_app. right. left. reflexivity.
        -- intros y [<-|Hy]; [exact Hnot|]. intros Hp.
           apply (Hall y Hy). apply in_or_app. left. exact Hp.
      * intros [Hnd Hall]. inversion Hnd as [|? ? Hfresh Hrest]; subst.
        split; [assumption|].
        intros y Hy Hp. apply in_app_or in Hp as [Hp|[<-|[]]].
        -- apply (Hall y); [right; exact Hy | exact Hp].
        -- apply Hfresh, list_elem_of_In, Hy.
Qed.

Lemma filter_nil {A} (p : A -> bool) (l : list A) :
  List.filter p l = [] <-> Forall (fun x => p x = false) l.
Proof.
  induction l as [|x l IH]; simpl.
  - split; [constructor | reflexivity].
  - destruct (p x) eqn:Hp.
    + split; [discriminate|]. intros H. inversion H; congruence.
    + rewrite IH. split; [intros H; constructor; assumption|].
      intros H. inversion H; assumption.
Qed.

Lemma flag_nil {A} (l : list A) (msg : list string) :
  msg <> [] -> (if 0 <? length l then msg else []) = [] <-> l = [].
Proof.
  intros Hm. destruct l; simpl; split; congruence.
Qed.

Lemma isEmpty_true s : isEmpty s = true <-> s = "".
Proof. destruct s; cbn; split; intros H; try discriminate; reflexivity. Qed.

(** X8. The validation of the results reports no error exactly when
    the current paths of the records are pairwise different and none
    is empty or blank; it reports no warning exactly when no record has
    size zero.  All records count, the sources of a merge or a split
    too. *)
Theorem validation_passes_exactly s :
  exists v,
    validationResults (snd (validateOrganizationResults s)) = Some v
    /\ (v_errors v = []
        <-> NoDup (map currentPath (files s))
            /\ Forall (fun f => trim (currentPath f) <> "") (files s))
    /\ (v_warnings v = [] <-> Forall (fun f => size f <> 0) (files s)).
Proof.
  exists (validate (files s)). split; [reflexivity|].
  unfold validate. cbn [v_errors v_warnings]. split.
  - split.
    + intros H. apply app_eq_nil in H as [H1 H2].
      apply flag_nil in H1; [|discriminate].
      apply flag_nil in H2; [|discriminate].
      split.
      * apply (notFirst_nil _ []) in H1. apply H1.
      * apply filter_nil in H2. eapply Forall_impl; [exact H2|].
        intros f Hf. cbv beta in Hf. apply orb_false_iff in Hf as [_ Hf].
        intros He. rewrite He in Hf. discriminate.
    + intros [Hnd Hp].
      assert (H1 : notFirst (map currentPath (files s))
                            (map currentPath (files s)) 0 = []).
      { apply (notFirst_nil _ []). split; [exact Hnd | intros ? _ []]. }
      assert (H2 : List.filter
                     (fun f => negb (truthy (currentPath f))
                               || isEmpty (trim (currentPath f))) (files s) = []).
      { apply filter_nil. eapply Forall_impl; [exact Hp|].
        intros f Hf. cbv beta in Hf |- *. apply orb_false_iff. split.
        - apply negb_false_iff, truthy_true. intros He. apply Hf.
          rewrite He. reflexivity.
        - destruct (trim (currentPath f));
            [exfalso; apply Hf; reflexivity | reflexivity]. }
      rewrite H1, H2. reflexivity.
  - rewrite flag_nil by discriminate. rewrite filter_nil.
    apply Forall_iff. intros f. simpl. rewrite Nat.eqb_neq. reflexivity.
Qed.

End ConfigLaws.

Module SplitLaws.
Import Str RegExp Method FileOrganizer Spec Logic Invariants ConfigNotions
       SplitNotions OrganizerProofs.
Local Open Scope nat_scope.
Local Open Scope method_scope.

(** *** Strings *)

Lemma join_cons sep x y l :
  join sep (x :: y :: l) = x +:+ sep +:+ join sep (y :: l).
Proof. reflexivity. Qed.

Lemma app_cons x (a b : string) : String x a +:+ b = String x (a +:+ b).
Proof. reflexivity. Qed.

Lemma string_app_assoc (a b c : string) : (a +:+ b) +:+ c = a +:+ b +:+ c.
Proof.
  induction a as [|x a IH]; [reflexivity|].
  rewrite !app_cons, IH. reflexivity.
Qed.

Lemma join_app sep l1 : forall l2,
  l1 <> [] -> l2 <> [] ->
  join sep (l1 ++ l2) = join sep l1 +:+ sep +:+ join sep l2.
Proof.
  induction l1 as [|x l1 IH]; intros l2 H1 H2; [congruence|].
  destruct l1 as [|y l1].
  - destruct l2 as [|z l2]; [congruence|]. reflexivity.
  - change ((x :: y :: l1) ++ l2) with (x :: y :: (l1 ++ l2)).
    rewrite !join_cons.
    change (y :: l1 ++ l2) with ((y :: l1) ++ l2).
    rewrite IH by congruence. rewrite !string_app_assoc. reflexivity.
Qed.

Lemma splitChar_not_nil c s : splitChar c s <> [].
Proof.
  induction s as [|x r IH]; simpl; [discriminate|].
  destruct (ascii_eqb x c); [discriminate|].
  destruct (splitChar c r); discriminate.
Qed.

(** [s.split(c).join(c)] is [s]. *)
Lemma join_splitChar c s : join (String c "") (splitChar c s) = s.
Proof.
  induction s as [|x r IH]; [reflexivity|].
  simpl. destruct (ascii_eqb x c) eqn:Hx.
  - apply Ascii.eqb_eq in Hx. subst x.
    destruct (splitChar c r) as [|w ws] eqn:Hs;
      [exfalso; exact (splitChar_not_nil c r Hs)|].
    rewrite join_cons, IH. reflexivity.
  - destruct (splitChar c r) as [|w ws] eqn:Hs;
      [exfalso; exact (splitChar_not_nil c r Hs)|].
    destruct ws as [|w' ws]; simpl in *; rewrite <- IH; reflexivity.
Qed.

Lemma drop_app_len p : forall q, drop (len p) (p +:+ q) = q.
Proof.
  induction p as [|x p IH]; intros q; [destruct q; reflexivity|].
  rewrite app_cons. apply IH.
Qed.

Lemma len_app p q : len (p +:+ q) = len p + len q.
Proof.
  induction p as [|x p IH]; [reflexivity|].
  rewrite app_cons. unfold len in *. simpl. f_equal. exact IH.
Qed.

Lemma endsWith_app p q : endsWith (p +:+ q) q = true.
Proof.
  unfold endsWith. rewrite len_app.
  replace (len p + len q - len q) with (len p) by lia.
  rewrite drop_app_len, String.eqb_refl.
  destruct (Nat.leb_spec (len q) (len p + len q)); [reflexivity | lia].
Qed.

(** *** joinPath *)

(** X9. The path that [joinPath] builds ends with the file name.  With
    no folder or an empty one it is the file name; a folder that is not
    empty gives the same path whether it is written with a slash at its
    end or without. *)
Theorem joinPath_trailing_slash f :
  joinPath None f = f /\ joinPath (Some "") f = f
  /\ (forall o, endsWith (joinPath o f) f = true)
  /\ (forall p, p <> "" -> endsWith p "/" = false ->
        joinPath (Some (p +:+ "/")) f = joinPath (Some p) f
        /\ joinPath (Some p) f = p +:+ "/" +:+ f).
Proof.
  split; [reflexivity|]. split; [reflexivity|]. split.
  - intros [p|]; unfold joinPath.
    + destruct (isEmpty p); [apply (endsWith_app "")|].
      destruct (endsWith p "/"); [apply endsWith_app|].
      rewrite <- string_app_assoc. apply endsWith_app.
    + apply (endsWith_app "").
  - intros p Hp He. unfold joinPath. rewrite He, endsWith_app.
    destruct p as [|x p]; [congruence|]. simpl isEmpty. cbv iota.
    split; [apply string_app_assoc | reflexivity].
Qed.

(** *** Splitting by lines *)

Lemma splitByLines_chunks E sourceFile n fuel : forall remaining i s,
  exists parts s',
    splitByLines E fuel sourceFile n remaining i s = (Ok parts, s')
    /\ map content parts = map (join nl) (chunks fuel n remaining)
    /\ map lines parts = map (@length string) (chunks fuel n remaining)
    /\ Forall (fun p => size p = blobSize (content p)
                        /\ extension p = extension sourceFile
                        /\ currentPath p = fileName p
                        /\ status p = Some split_result
                        /\ isSplit p = true
                        /\ sourceFileId p = Some (id sourceFile)) parts
    /\ files s' = files s /\ organizationLog s' = organizationLog s.
Proof.
  induction fuel as [|fuel IH]; intros remaining i s.
  - exists [], s. repeat split; constructor.
  - destruct remaining as [|x rest].
    + exists [], s. repeat split; constructor.
    + cbn [splitByLines chunks].
      unfold generateId, newDateISO, tick.
      unfold bind at 1. unfold bind at 1. cbn [fst snd ret].
      unfold bind at 1. unfold bind at 1. cbn [fst snd ret].
      unfold bind at 1. unfold bind at 1. cbn [fst snd ret].
      unfold bind at 1.
      match goal with
      | [ |- context [splitByLines E fuel sourceFile n ?r ?j ?t] ] =>
          destruct (IH r j t) as (parts & s' & Hrun & Hc & Hl & Hall & Hf & Hlog)
      end.
      rewrite Hrun. eexists _, s'. split; [reflexivity|].
      cbn [map content lines splitRecord]. rewrite Hc, Hl.
      repeat split; try assumption.
      constructor; [repeat split | exact Hall].
Qed.

Lemma chunks_nil fuel n : chunks fuel n [] = [].
Proof. destruct fuel; reflexivity. Qed.

Lemma chunks_join fuel n : forall l,
  0 < n -> length l <= fuel ->
  join nl (map (join nl) (chunks fuel n l)) = join nl l.
Proof.
  induction fuel as [|fuel IH]; intros l Hn Hlen.
  - destruct l; [reflexivity | simpl in Hlen; lia].
  - destruct l as [|x rest]; [reflexivity|].
    cbn [chunks map].
    assert (Hfuel : length (skipn n (x :: rest)) <= fuel).
    { rewrite length_skipn. simpl in *. lia. }
    specialize (IH (skipn n (x :: rest)) Hn Hfuel).
    pose proof (firstn_skipn n (x :: rest)) as Hfs.
    destruct (skipn n (x :: rest)) as [|y more] eqn:Hskip.
    + rewrite chunks_nil. cbn [map join].
      rewrite app_nil_r in Hfs. rewrite Hfs. reflexivity.
    + destruct fuel as [|fuel']; [simpl in Hfuel; lia|].
      cbn [chunks map] in IH |- *. rewrite join_cons, IH.
      rewrite <- Hfs at 2.
      rewrite join_app; [reflexivity | | discriminate].
      intros Hnil. rewrite Hnil in Hfs. simpl in Hfs.
      assert (Hl : length (skipn n (x :: rest)) = length (x :: rest))
        by (rewrite Hskip, Hfs; reflexivity).
      rewrite length_skipn in Hl. simpl in Hl. lia.
Qed.

Lemma chunks_length fuel n : forall l,
  0 < n -> length l <= fuel ->
  length (chunks fuel n l) = (length l + n - 1) / n.
Proof.
  induction fuel as [|fuel IH]; intros l Hn Hlen.
  - destruct l; [|simpl in Hlen; lia]. simpl.
    symmetry. apply Nat.div_small. lia.
  - destruct l as [|x rest].
    + simpl. symmetry. apply Nat.div_small. lia.
    + cbn [chunks length]. rewrite IH; [|exact Hn|rewrite length_skipn; simpl in *; lia].
      rewrite length_skipn. cbn [length].
      destruct (Nat.le_gt_cases (S (length rest)) n) as [Hle|Hgt].
      * replace (S (length rest) - n) with 0 by lia.
        rewrite (Nat.div_small (0 + n - 1) n) by lia.
        apply (Nat.div_unique _ n 1 (S (length rest) - 1)); lia.
      * replace (S (length rest) + n - 1)
          with ((S (length rest) - n + n - 1) + 1 * n) by lia.
        rewrite Nat.div_add by lia. lia.
Qed.

Lemma chunks_bounds fuel n : forall l,
  0 < n ->
  Forall (fun c => 0 < length c /\ length c <= n) (chunks fuel n l).
Proof.
  induction fuel as [|fuel IH]; intros l Hn; [constructor|].
  destruct l as [|x rest]; [constructor|].
  cbn [chunks]. constructor; [|apply IH, Hn].
  rewrite length_firstn. destruct n; [lia|]. simpl. lia.
Qed.

(** X10. The strategy [by_lines] cuts a source without loss: when
    [linesPerFile] is an integer that is not negative,
    [splitFileContent] returns parts whose contents, joined again by
    line feeds, are the content of the source.  Every part records a
    line count of at least one and at most [linesPerFile] (100 when the
    field is absent or zero), there are ceil(lines / linesPerFile)
    parts, and the records of the organizer are not touched by the
    computation of the parts.  A [linesPerFile] with a fractional part
    is outside the embedding, in which the field is an integer. *)
Theorem split_by_lines_is_lossless E sourceFile splitConfig s :
  strategy splitConfig = Some "by_lines" ->
  (0 < effectiveLinesPerFile splitConfig)%Z ->
  let n := Z.to_nat (effectiveLinesPerFile splitConfig) in
  exists parts s',
    splitFileContent E sourceFile splitConfig s = (Ok parts, s')
    /\ join nl (map content parts) = content sourceFile
    /\ Forall (partOf sourceFile n) parts
    /\ length parts
       = (length (splitChar LF (content sourceFile)) + n - 1) / n
    /\ files s' = files s.
Proof.
  intros Hst Hpos n. unfold splitFileContent. rewrite Hst.
  change (String.eqb "by_lines" "by_class") with false.
  change (String.eqb "by_lines" "by_lines") with true. cbv iota zeta.
  fold (effectiveLinesPerFile splitConfig).
  destruct (Z.ltb_spec (effectiveLinesPerFile splitConfig) 0); [lia|].
  fold n. set (ls := splitChar LF (content sourceFile)).
  assert (Hn : 0 < n) by (subst n; lia).
  destruct (splitByLines_chunks E sourceFile n (length ls) ls 0 s)
    as (parts & s' & Hrun & Hc & Hl & Hall & Hf & _).
  exists parts, s'. split; [exact Hrun|]. split; [|split; [|split]].
  - rewrite Hc, chunks_join by (auto; lia). apply join_splitChar.
  - pose proof (chunks_bounds (length ls) n ls Hn) as Hb.
    clear Hrun. revert Hc Hl Hall Hb.
    generalize (chunks (length ls) n ls). intros cs.
    revert cs. induction parts as [|p parts IH]; intros cs Hc Hl Hall Hb;
      [constructor|].
    destruct cs as [|c cs]; [discriminate|].
    inversion Hc; inversion Hl; inversion Hall; inversion Hb; subst.
    constructor; [|eapply IH; eassumption].
    unfold partOf.
    match goal with [ H : lines p = length c |- _ ] => rewrite H end.
    repeat split; try tauto; try lia.
  - rewrite <- (chunks_length (length ls) n ls) by (auto; lia).
    rewrite <- (length_map content), Hc, length_map. reflexivity.
  - exact Hf.
Qed.

(** *** The theorems at concrete inputs *)

Lemma joinPath_trailing_slash_witness :
  joinPath (Some ("src" +:+ "/")) "a.kt" = joinPath (Some "src") "a.kt"
  /\ joinPath (Some "src") "a.kt" = "src" +:+ "/" +:+ "a.kt".
Proof.
  apply (joinPath_trailing_slash "a.kt"); [discriminate | reflexivity].
Defined.

Lemma split_by_lines_is_lossless_witness :
  exists parts s',
    splitFileContent Platform.sampleEnv Samples.fiveLines MoreSamples.twoLines
                     MoreSamples.withFiveLines
    = (Ok parts, s')
    /\ join nl (map content parts) = content Samples.fiveLines
    /\ Forall (partOf Samples.fiveLines 2) parts
    /\ length parts = 3
    /\ files s' = files MoreSamples.withFiveLines.
Proof.
  apply (split_by_lines_is_lossless Platform.sampleEnv Samples.fiveLines
           MoreSamples.twoLines MoreSamples.withFiveLines);
    vm_compute; reflexivity.
Defined.

End SplitLaws.

Module RuleLaws.
Import Str RegExp Method FileOrganizer Spec Logic Invariants ConfigNotions
       SplitNotions MergeNotions OrganizerProofs.
Local Open Scope nat_scope.
Local Open Scope method_scope.

(** *** Running a method step by step *)

Lemma bind_bind {St A B C} (m : M St A) (f : A -> M St B) (g : B -> M St C) s :
  (y <- (x <- m ;; f x) ;; g y) s = (x <- m ;; y <- f x ;; g y) s.
Proof. unfold bind. destruct (m s) as [[a|e] s']; reflexivity. Qed.

Lemma bind_ret {St A B} (a : A) (f : A -> M St B) s :
  (x <- ret a ;; f x) s = f a s.
Proof. reflexivity. Qed.

Lemma bind_get {St B} (f : St -> M St B) s : (x <- get ;; f x) s = f s s.
Proof. reflexivity. Qed.

Lemma bind_gets {St A B} (g : St -> A) (f : A -> M St B) s :
  (x <- gets g ;; f x) s = f (g s) s.
Proof. reflexivity. Qed.

Lemma bind_modify {St B} (g : St -> St) (f : unit -> M St B) s :
  (x <- modify g ;; f x) s = f tt (g s).
Proof. reflexivity. Qed.

Lemma bind_lift {St A B} (a : A) (f : A -> M St B) s :
  (x <- lift (Ok a) ;; f x) s = f a s.
Proof. reflexivity. Qed.

Lemma bind_now {B} E (f : string -> M Organizer B) s :
  (x <- newDateISO E ;; f x) s
  = f (isoNow E (readings s)) (setReadings (readings s + 1) s).
Proof. reflexivity. Qed.

Lemma bind_id {B} E (f : string -> M Organizer B) s :
  (x <- generateId E ;; f x) s
  = f ("file_" +:+ dateNow E (readings s) +:+ "_" +:+ random36 E (readings s))
      (setReadings (readings s + 1) s).
Proof. reflexivity. Qed.

Lemma bind_pushFile {B} r (f : unit -> M Organizer B) s :
  (x <- pushFile r ;; f x) s = f tt (setFiles (files s ++ [r]) s).
Proof. reflexivity. Qed.

Lemma bind_mutate {B} i g (f : unit -> M Organizer B) s :
  (x <- mutate i g ;; f x) s = f tt (setFiles (alter g i (files s)) s).
Proof. reflexivity. Qed.

Lemma bind_find {B} n (f : option (nat * FileRecord) -> M Organizer B) s :
  (x <- findFileByName n ;; f x) s = f (findIn (files s) n) s.
Proof. reflexivity. Qed.

Lemma run_log E o d s :
  logOperation E o d s
  = (Ok tt,
     setLog (organizationLog s ++
             [{| op := o; dryRun := d;
                 logId := "file_" +:+ dateNow E (readings s) +:+ "_"
                          +:+ random36 E (readings s) |}])
            (setReadings (readings s + 1) s)).
Proof. reflexivity. Qed.

Lemma bind_log {B} E o d (f : unit -> M Organizer B) s :
  (x <- logOperation E o d ;; f x) s
  = f tt (setLog (organizationLog s ++
                  [{| op := o; dryRun := d;
                      logId := "file_" +:+ dateNow E (readings s) +:+ "_"
                               +:+ random36 E (readings s) |}])
                 (setReadings (readings s + 1) s)).
Proof. reflexivity. Qed.

Ltac run_step :=
  first
    [ rewrite bind_bind | rewrite bind_ret | rewrite bind_get
    | rewrite bind_gets | rewrite bind_find | rewrite bind_now
    | rewrite bind_id | rewrite bind_pushFile | rewrite bind_mutate
    | rewrite bind_log | rewrite bind_lift | rewrite bind_modify ].

Ltac run := repeat run_step.

(** *** A split that makes no part *)

(** X11. The strategies that make parts are [by_class] and [by_lines].
    With any other strategy, [by_function] among them, or with none, a
    split rule whose file is found makes no part; in a real run the
    source is nevertheless marked [split_source], with a [split_into]
    operation that names no file.  The number of records is the same
    and the source no longer counts as a live record. *)
Theorem split_without_parts E key splitConfig s i sourceFile :
  findIn (files s) key = Some (i, sourceFile) ->
  strategy splitConfig <> Some "by_class" ->
  strategy splitConfig <> Some "by_lines" ->
  exists s' g t,
    applySplitFiles E [(key, splitConfig)] false s = (Ok tt, s')
    /\ files s' = alter g i (files s)
    /\ length (files s') = length (files s)
    /\ (forall x, status (g x) = Some split_source
                  /\ isLive (g x) = false
                  /\ operations (g x) = operations x ++ [OpSplitInto [] t]
                  /\ fileName (g x) = fileName x
                  /\ content (g x) = content x).
Proof.
  intros Hfind H1 H2.
  assert (Hsplit : forall t, splitFileContent E sourceFile splitConfig t
                             = (Ok [], t)).
  { intros t. unfold splitFileContent.
    destruct (strategy splitConfig) as [st|]; [|reflexivity].
    destruct (String.eqb_spec st "by_class") as [->|_]; [congruence|].
    destruct (String.eqb_spec st "by_lines") as [->|_]; [congruence|].
    reflexivity. }
  unfold applySplitFiles. cbn [forEach].
  unfold bind at 1. unfold bind at 1. unfold findFileByName, gets at 1.
  cbn [fst snd]. rewrite Hfind.
  unfold bind at 1. rewrite Hsplit.
  unfold bind, newDateISO, tick, when, negb, logOperation, generateId,
    tick, ret, modify, mutate, modify. cbn [fst snd forEach map].
  unfold ret. cbn [fst snd].
  eexists. eexists. eexists. split; [reflexivity|]. split; [reflexivity|].
  split; [cbn [files setFiles setReadings setLog]; apply length_alter|].
  intros x. repeat split.
Qed.

(** *** Merging *)

Lemma mark_sources E mergedFileName (sources : list (nat * FileRecord)) :
  forall s, exists s',
    forEach sources (fun '(i, _) =>
      now' <- newDateISO E ;;
      mutate i (mapFile keep keep keep keep keep keep
                  (pushOp (OpMergedInto mergedFileName now'))
                  (set (Some merged_source)))) s = (Ok tt, s')
    /\ organizationLog s' = organizationLog s
    /\ length (files s') = length (files s)
    /\ forall j f, files s !! j = Some f ->
         exists g, files s' !! j = Some g
                   /\ (In j (map fst sources) -> mergedSource f g)
                   /\ (~ In j (map fst sources) -> g = f).
Proof.
  induction sources as [|[i x] rest IH]; intros s.
  - exists s. split; [reflexivity|]. repeat split.
    intros j f Hj. exists f. split; [exact Hj|]. split; [intros []|reflexivity].
  - cbn [forEach]. run.
    match goal with
    | [ |- context [forEach rest _ ?t] ] =>
        destruct (IH t) as (s' & Hrun & Hlog & Hlen & Hall)
    end.
    exists s'. split; [exact Hrun|]. split; [exact Hlog|].
    split; [rewrite Hlen; cbn [files setFiles setReadings]; apply length_alter|].
    intros j f Hj. cbn [files setFiles setReadings] in Hall.
    destruct (Nat.eq_dec j i) as [->|Hne].
    + match type of Hall with
      | context [alter ?g i _] =>
          destruct (Hall i (g f)) as (h & Hh & Hin & Hout);
            [rewrite list_lookup_alter, decide_True by reflexivity;
             rewrite Hj; reflexivity|]
      end.
      exists h. split; [exact Hh|].
      split; [|intros Hn; exfalso; apply Hn; left; reflexivity].
      intros _. destruct (in_dec Nat.eq_dec i (map fst rest)) as [Hi|Hi].
      * destruct (Hin Hi) as (a1 & a2 & a3 & a4 & a5).
        repeat split;
          [exact a1 | rewrite a2 | rewrite a3 | rewrite a4 | rewrite a5];
          reflexivity.
      * rewrite (Hout Hi). repeat split.
    + destruct (Hall j f) as (h & Hh & Hin & Hout);
        [rewrite list_lookup_alter_ne by congruence; exact Hj|].
      exists h. split; [exact Hh|]. split.
      * intros [Heq|Hi]; [simpl in Heq; congruence | apply Hin, Hi].
      * intros Hn. apply Hout. intros Hi. apply Hn. right. exact Hi.
Qed.

(** X12. A merge rule in a section without a [mergeStrategy] key
    concatenates: in a real run, when at least one of its source names
    is found and the rule is not itself keyed [mergeStrategy], one
    record is added at the end of the working set, named as the rule
    says, whose content is the contents of the sources found, in the
    order of the rule, joined by an empty line.  The sources stay in
    the working set, marked [merged_source] with their content and
    their names as before; the other records are as they were; the log
    gets one entry. *)
Theorem merge_concatenates_sources E mergedFileName names s :
  let sources := omap (findIn (files s)) names in
  sources <> [] ->
  mergedFileName <> "mergeStrategy" ->
  exists s' m,
    applyMergeFiles E [(mergedFileName, MSources names)] false s = (Ok tt, s')
    /\ files s' !! length (files s) = Some m
    /\ length (files s') = S (length (files s))
    /\ mergedFrom mergedFileName (map snd sources) m
    /\ (forall j f, files s !! j = Some f ->
          exists g, files s' !! j = Some g
                    /\ (In j (map fst sources) -> mergedSource f g)
                    /\ (~ In j (map fst sources) -> g = f))
    /\ length (organizationLog s') = S (length (organizationLog s)).
Proof.
  intros sources Hne Hname. unfold applyMergeFiles. cbn [forEach]. run.
  fold sources.
  replace (0 <? length sources) with true
    by (destruct sources; [congruence | reflexivity]).
  cbn [lookupMerge].
  destruct (String.eqb_spec "mergeStrategy" mergedFileName) as [Heq|_];
    [congruence|].
  cbn [strategyOrDefault when negb]. run.
  match goal with
  | [ |- context [bind (forEach sources _) _ ?t] ] =>
      destruct (mark_sources E mergedFileName sources t)
        as (s1 & Hrun & Hlog & Hlen & Hall)
  end.
  rewrite (bind_ok _ _ _ _ _ Hrun). run.
  cbn [files setFiles setReadings organizationLog] in Hlog, Hlen, Hall.
  rewrite length_app in Hlen. cbn [length] in Hlen.
  match type of Hall with
  | context [files s ++ [?m]] =>
      destruct (Hall (length (files s)) m) as (m' & Hm' & _ & Hsame);
        [rewrite lookup_app_r, Nat.sub_diag by lia; reflexivity|]
  end.
  assert (Hfresh : ~ In (length (files s)) (map fst sources)).
  { intros Hin. apply in_map_iff in Hin as ([j f] & Hj & Hin). simpl in Hj.
    subst j. subst sources. apply list_elem_of_In, list_elem_of_omap in Hin.
    destruct Hin as (n & _ & Hn). apply findIn_lookup in Hn.
    apply lookup_lt_Some in Hn. lia. }
  rewrite (Hsame Hfresh) in Hm'.
  eexists. eexists. split; [reflexivity|].
  cbn [files setFiles setReadings setLog organizationLog].
  split; [exact Hm'|]. split; [lia|]. split.
  { unfold mergedFrom. cbn [fileName currentPath originalPath extension
      content size status isMerged sourceFileIds].
    repeat split; rewrite ?map_map; reflexivity. }
  split.
  - intros j f Hj. apply Hall. rewrite lookup_app_l; [exact Hj|].
    apply lookup_lt_Some in Hj. exact Hj.
  - rewrite length_app, Hlog. simpl. lia.
Qed.

(** *** Copies *)

Lemma copy_loop E key originalFile (locations : list Location) :
  Forall (fun l => modifications l = None) locations ->
  forall index s, exists s' copies,
    forEachIndexed index locations (fun index location =>
      let copyId := id originalFile +:+ "_copy_" +:+ ofNat index in
      let copyName := orName (name location) key in
      let copyPath := joinPath (folder location) copyName in
      now <- newDateISO E ;;
      let operation := OpCopy key copyPath copyId now in
      when (negb false)
        (let fileCopy :=
           {| id := copyId; originalTitle := originalTitle originalFile;
              fileName := copyName; extension := extension originalFile;
              language := language originalFile;
              content := content originalFile;
              size := size originalFile; lines := lines originalFile;
              created := created originalFile;
              metadata := metadata originalFile;
              originalPath := originalPath originalFile;
              currentPath := copyPath;
              folderPath := folder location;
              operations := [operation]; status := Some copied;
              isCopy := true; originalFileId := Some (id originalFile);
              isMerged := isMerged originalFile;
              sourceFileIds := sourceFileIds originalFile;
              isSplit := isSplit originalFile;
              sourceFileId := sourceFileId originalFile |} in
         fileCopy <- lift (match modifications location with
                           | Some m => applyModificationsToCopy E fileCopy m
                           | None => Ok fileCopy
                           end) ;;
         pushFile fileCopy) ;;
      logOperation E operation false) s = (Ok tt, s')
    /\ files s' = files s ++ copies
    /\ Forall2 (fun k c => exists location,
                  locations !! (k - index) = Some location /\ index <= k
                  /\ copyOf key originalFile k location c)
               (seq index (length locations)) copies
    /\ length (organizationLog s')
       = length (organizationLog s) + length locations.
Proof.
  intros Hmods. induction Hmods as [|location rest Hmod _ IH]; intros index s.
  - exists s, []. split; [reflexivity|]. rewrite app_nil_r.
    repeat split; [constructor | simpl; lia].
  - cbn [forEachIndexed when negb]. run. rewrite Hmod. run.
    match goal with
    | [ |- context [forEachIndexed (S index) rest _ ?t] ] =>
        destruct (IH (S index) t) as (s' & copies & Hrun & Hfiles & Hall & Hlog)
    end.
    cbn [files setFiles setReadings setLog organizationLog] in Hfiles, Hlog.
    eexists s', (_ :: copies). split; [exact Hrun|].
    split; [rewrite Hfiles, <- app_assoc; reflexivity|]. split.
    + cbn [length seq]. constructor.
      * exists location. rewrite Nat.sub_diag. split; [reflexivity|].
        split; [lia|]. repeat split.
      * eapply Forall2_impl; [exact Hall|]. intros k c (l & Hl & Hle & Hc).
        exists l. split; [|split; [lia | exact Hc]].
        replace (k - index) with (S (k - S index)) by lia. exact Hl.
    + rewrite Hlog, length_app. simpl. lia.
Qed.

(** X13. A copy rule whose file is found adds, in a real run, one record
    for each destination, in order, after the records of before, which
    are not changed.  The copy number [k] (from 0) has the id of the
    original followed by [_copy_k], the content of the original, the
    status [copied]; its name is the name of the destination or, when
    the destination has none, the key of the rule, whatever the file
    is called by then, and its path is this name under the folder of
    the destination.  Stated for destinations without modifications. *)
Theorem copies_are_appended E key locations s i originalFile :
  findIn (files s) key = Some (i, originalFile) ->
  Forall (fun l => modifications l = None) locations ->
  exists s' copies,
    applyCopyToMultipleLocations E [(key, locations)] false s = (Ok tt, s')
    /\ files s' = files s ++ copies
    /\ length copies = length locations
    /\ (forall k location, locations !! k = Some location ->
          exists c, copies !! k = Some c
                    /\ copyOf key originalFile k location c)
    /\ length (organizationLog s')
       = length (organizationLog s) + length locations.
Proof.
  intros Hfind Hmods. unfold applyCopyToMultipleLocations. cbn [forEach].
  run. rewrite Hfind.
  destruct (copy_loop E key originalFile locations Hmods 0 s)
    as (s' & copies & Hrun & Hfiles & Hall & Hlog).
  rewrite (bind_ok _ _ _ _ _ Hrun). exists s', copies. split; [reflexivity|].
  split; [exact Hfiles|].
  assert (Hlen : length copies = length locations).
  { apply Forall2_length in Hall. rewrite length_seq in Hall. lia. }
  split; [exact Hlen|]. split; [|exact Hlog].
  intros k location Hk.
  assert (Hlt : k < length copies).
  { rewrite Hlen. apply lookup_lt_Some in Hk. exact Hk. }
  destruct (lookup_lt_is_Some_2 copies k Hlt) as [c Hc].
  exists c. split; [exact Hc|].
  assert (Hs : seq 0 (length locations) !! k = Some k).
  { apply lookup_seq_lt. lia. }
  destruct (Forall2_lookup_lr _ _ _ _ _ _ Hall Hs Hc) as (l & Hl & _ & Hcopy).
  rewrite Nat.sub_0_r in Hl. congruence.
Qed.

(** *** The theorems at concrete inputs *)

Lemma split_without_parts_witness :
  exists s' g t,
    applySplitFiles Platform.sampleEnv [("big.kt", MoreSamples.byFunction)]
                    false MoreSamples.withFiveLines
    = (Ok tt, s')
    /\ files s' = alter g 0 (files MoreSamples.withFiveLines)
    /\ length (files s') = length (files MoreSamples.withFiveLines)
    /\ (forall x, status (g x) = Some split_source
                  /\ isLive (g x) = false
                  /\ operations (g x) = operations x ++ [OpSplitInto [] t]
                  /\ fileName (g x) = fileName x
                  /\ content (g x) = content x).
Proof.
  apply (split_without_parts Platform.sampleEnv "big.kt" MoreSamples.byFunction
           MoreSamples.withFiveLines 0
           (Samples.nthFile 0 MoreSamples.withFiveLines));
    [vm_compute; reflexivity | discriminate | discriminate].
Defined.

Lemma merge_concatenates_sources_witness :
  exists s' m,
    applyMergeFiles Platform.sampleEnv [("M.kt", MSources ["a.kt"; "b.kt"])]
                    false MoreSamples.withTwoSources
    = (Ok tt, s')
    /\ files s' !! 2 = Some m
    /\ length (files s') = 3
    /\ content m
       = content Samples.kotlinA +:+ nl +:+ nl +:+ content Samples.kotlinB
    /\ length (organizationLog s') = 1.
Proof.
  destruct (merge_concatenates_sources Platform.sampleEnv "M.kt"
              ["a.kt"; "b.kt"] MoreSamples.withTwoSources)
    as (s' & m & H1 & H2 & H3 & H4 & _ & H6);
    [vm_compute; discriminate | discriminate |].
  exists s', m. destruct H4 as (_ & _ & _ & _ & Hc & _).
  repeat split; [exact H1 | exact H2 | exact H3 | | exact H6].
  rewrite Hc. vm_compute. reflexivity.
Defined.

Lemma copies_are_appended_witness :
  exists s' copies,
    applyCopyToMultipleLocations Platform.sampleEnv
      [("big.kt", MoreSamples.twoPlaces)] false MoreSamples.withFiveLines
    = (Ok tt, s')
    /\ files s' = files MoreSamples.withFiveLines ++ copies
    /\ length copies = 2
    /\ (forall k location, MoreSamples.twoPlaces !! k = Some location ->
          exists c, copies !! k = Some c
                    /\ copyOf "big.kt"
                         (Samples.nthFile 0 MoreSamples.withFiveLines)
                         k location c)
    /\ length (organizationLog s') = 2.
Proof.
  apply (copies_are_appended Platform.sampleEnv "big.kt" MoreSamples.twoPlaces
           MoreSamples.withFiveLines 0
           (Samples.nthFile 0 MoreSamples.withFiveLines));
    [vm_compute; reflexivity | repeat constructor].
Defined.

End RuleLaws.

Module ReportLaws.
Import Str RegExp Method FileOrganizer Spec Logic Invariants ReportNotions.
Import OrganizerProofs.
Local Open Scope nat_scope.
Local Open Scope method_scope.

(** *** The operations assign neither the validation nor the report *)

Lemma sameResults_trans s1 s2 s3 :
  sameResults s1 s2 -> sameResults s2 s3 -> sameResults s1 s3.
Proof. intros (a & b & c) (d & e & f). repeat split; congruence. Qed.

Lemma Untouched_quiet {A} (m : M Organizer A) :
  (forall s, sameResults s (snd (m s))) -> Untouched m.
Proof. intros H. exact H. Qed.

Lemma Untouched_bind {A B} (m : M Organizer A) (f : A -> M Organizer B) :
  Untouched m -> (forall a, Untouched (f a)) -> Untouched (x <- m ;; f x).
Proof.
  intros Hm Hf s. unfold bind. specialize (Hm s).
  destruct (m s) as [[a|e] s']; simpl in *; [|exact Hm].
  eapply sameResults_trans; [exact Hm | apply Hf].
Qed.

Lemma Untouched_forEach {A} (xs : list A) (body : A -> M Organizer unit) :
  (forall x, Untouched (body x)) -> Untouched (forEach xs body).
Proof.
  intros Hb. induction xs as [|x xs IH]; simpl.
  - intros s. repeat split.
  - apply Untouched_bind; [apply Hb | intros _; exact IH].
Qed.

Lemma Untouched_forEachIndexed {A} (xs : list A)
    (body : nat -> A -> M Organizer unit) :
  (forall i x, Untouched (body i x)) ->
  forall i, Untouched (forEachIndexed i xs body).
Proof.
  intros Hb. induction xs as [|x xs IH]; intros i; simpl.
  - intros s. repeat split.
  - apply Untouched_bind; [apply Hb | intros _; apply IH].
Qed.

Lemma Untouched_when b (m : M Organizer unit) :
  Untouched m -> Untouched (when b m).
Proof. intros H. destruct b; simpl; [exact H | intros s; repeat split]. Qed.

Ltac untouched_step :=
  first
    [ apply Untouched_quiet; intros ?; repeat split; reflexivity
    | apply Untouched_when
    | apply Untouched_bind; [| intros ?]
    | apply Untouched_forEach; intros ?
    | apply Untouched_forEachIndexed; intros ? ? ].

Ltac untouched := repeat untouched_step.

Lemma Untouched_applyFileRenames E config d :
  Untouched (applyFileRenames E config d).
Proof.
  unfold applyFileRenames. apply Untouched_forEach. intros [oldName newName].
  apply Untouched_bind; [untouched|]. intros [[i file]|]; untouched.
Qed.

Lemma Untouched_applyExtensionChanges E config d :
  Untouched (applyExtensionChanges E config d).
Proof.
  unfold applyExtensionChanges. apply Untouched_forEach. intros [k v].
  apply Untouched_bind; [untouched|]. intros [[i file]|]; untouched.
Qed.

Lemma Untouched_applyFolderMappings E config d :
  Untouched (applyFolderMappings E config d).
Proof.
  unfold applyFolderMappings. apply Untouched_forEach. intros [k v].
  apply Untouched_bind; [untouched|]. intros [[i file]|]; untouched.
Qed.

Lemma Untouched_applyContentUpdates E config d :
  Untouched (applyContentUpdates E config d).
Proof.
  unfold applyContentUpdates. apply Untouched_forEach. intros [k v].
  apply Untouched_bind; [untouched|]. intros [[i file]|]; untouched.
Qed.

Lemma Untouched_applyCopyToMultipleLocations E config d :
  Untouched (applyCopyToMultipleLocations E config d).
Proof.
  unfold applyCopyToMultipleLocations. apply Untouched_forEach. intros [k v].
  apply Untouched_bind; [untouched|]. intros [[i file]|]; untouched.
Qed.

Lemma Untouched_applyMergeFiles E config d :
  Untouched (applyMergeFiles E config d).
Proof.
  unfold applyMergeFiles. apply Untouched_forEach.
  intros [k [names|v]]; [|untouched].
  apply Untouched_bind; [untouched|]. intros this.
  destruct (0 <? _); [|untouched].
  apply Untouched_bind; [untouched|]. intros now.
  apply Untouched_bind; [|intros _; untouched].
  apply Untouched_when. apply Untouched_bind; [untouched|]. intros newId.
  apply Untouched_bind; [untouched|]. intros created'.
  apply Untouched_bind; [untouched|]. intros _.
  apply Untouched_forEach. intros [i f]. untouched.
Qed.

Lemma Untouched_splitByClass E sourceFile pkg imps ms :
  Untouched (splitByClass E sourceFile pkg imps ms).
Proof. induction ms as [|m ms IH]; simpl; untouched. exact IH. Qed.

Lemma Untouched_splitByLines E sourceFile n fuel : forall remaining i,
  Untouched (splitByLines E fuel sourceFile n remaining i).
Proof.
  induction fuel as [|fuel IH]; intros remaining i; simpl; [untouched|].
  destruct remaining; untouched. apply IH.
Qed.

Lemma Untouched_splitFileContent E sourceFile splitConfig :
  Untouched (splitFileContent E sourceFile splitConfig).
Proof.
  unfold splitFileContent. destruct (strategy splitConfig); [|untouched].
  destruct (String.eqb _ _); [apply Untouched_splitByClass|].
  destruct (String.eqb _ _); [|untouched].
  cbv zeta. destruct (_ <? 0)%Z; [untouched | apply Untouched_splitByLines].
Qed.

Lemma Untouched_applySplitFiles E config d :
  Untouched (applySplitFiles E config d).
Proof.
  unfold applySplitFiles. apply Untouched_forEach. intros [k v].
  apply Untouched_bind; [untouched|]. intros [[i file]|]; [|untouched].
  apply Untouched_bind; [apply Untouched_splitFileContent|]. intros parts.
  untouched.
Qed.

Lemma Untouched_section {A} (o : option A) (apply : A -> M Organizer unit) :
  (forall c, Untouched (apply c)) -> Untouched (section o apply).
Proof. intros H. destruct o; simpl; [apply H | untouched]. Qed.

Lemma Untouched_applyOperations E d dry : Untouched (applyOperations E d dry).
Proof.
  unfold applyOperations.
  repeat (apply Untouched_bind; [apply Untouched_section; intros c|intros _]);
    try apply Untouched_section; try intros c;
    auto using Untouched_applyFileRenames, Untouched_applyExtensionChanges,
      Untouched_applyFolderMappings, Untouched_applyContentUpdates,
      Untouched_applyCopyToMultipleLocations, Untouched_applyMergeFiles,
      Untouched_applySplitFiles.
Qed.

(** X14. When [organizeFiles] returns, it returns the records of the
    final state, and the configuration is the one it started with.
    With [generateReport] the stored report describes this final state:
    its counts, its files, its operations and its validation are those
    of the state.  With [validateResults] the validation is that of the
    final records; without it the validation is not cleared: the state,
    and so the report, keeps the results of an earlier run. *)
Theorem report_describes_final_state E options s rs s' :
  organizeFiles E options s = (Ok rs, s') ->
  rs = files s'
  /\ config s' = config s
  /\ validationResults s'
     = (if validateResults options then Some (validate (files s'))
        else validationResults s)
  /\ (if generateReport options
      then exists r, organizationReport s' = Some r /\ describes r s'
      else organizationReport s' = organizationReport s).
Proof.
  intros Hrun.
  destruct (configIsValid s) eqn:Hvalid.
  2:{ unfold organizeFiles, bind at 1, get in Hrun. simpl in Hrun.
      rewrite Hvalid in Hrun. discriminate. }
  rewrite (organizeFiles_run E options s Hvalid) in Hrun.
  destruct (config s ≫= data) as [d|]; [|discriminate].
  pose proof (Untouched_applyOperations E d (dryRunOpt options) (setLog [] s))
    as (Hc & Hv & Hr).
  destruct (applyOperations E d (dryRunOpt options) (setLog [] s))
    as [[[]|e] s1] eqn:Hops.
  2:{ unfold afterCheck in Hrun. rewrite (bind_throw _ _ _ _ _ Hops) in Hrun.
      discriminate. }
  rewrite (afterCheck_ops E options d _ _ Hops) in Hrun.
  cbn [snd config validationResults organizationReport setLog] in Hc, Hv, Hr.
  unfold finish in Hrun.
  destruct (validateResults options), (generateReport options);
    inversion Hrun; subst; clear Hrun;
    cbn [files config validationResults organizationReport organizationLog
         setReport setValidation setReadings];
    (split; [reflexivity|]); (split; [exact Hc|]);
    (split; [first [reflexivity | exact Hv]|]);
    first [exact Hr | eexists; split; [reflexivity|]; repeat split;
                      cbn [rp_files rp_operations]; rewrite map_map;
                      reflexivity].
Qed.

(** *** The theorem at a concrete input *)

Lemma report_describes_final_state_witness :
  files Samples.firstRun = files Samples.firstRun
  /\ config Samples.firstRun
     = config (Samples.loaded [Samples.sampleFile "a.kt" "x"]
                              Samples.renameAndMove)
  /\ validationResults Samples.firstRun
     = (if validateResults Samples.dry
        then Some (validate (files Samples.firstRun))
        else validationResults
               (Samples.loaded [Samples.sampleFile "a.kt" "x"]
                               Samples.renameAndMove))
  /\ (if generateReport Samples.dry
      then exists r, organizationReport Samples.firstRun = Some r
                     /\ describes r Samples.firstRun
      else organizationReport Samples.firstRun
           = organizationReport
               (Samples.loaded [Samples.sampleFile "a.kt" "x"]
                               Samples.renameAndMove)).
Proof.
  apply (report_describes_final_state Platform.sampleEnv Samples.dry
           (Samples.loaded [Samples.sampleFile "a.kt" "x"]
                           Samples.renameAndMove)).
  vm_compute. reflexivity.
Defined.

End ReportLaws.

Module TemplateLaws.
Import Str Method FileOrganizer Templates.
Local Open Scope nat_scope.

(** X15. Every template that [exportConfigTemplate] returns is accepted
    by [loadConfig], whatever the project type asked for: it has no
    error.  It is not silent, though: the keys [projectType] and
    [timestamp] of the template are reported as unknown sections, in
    one warning. *)
Theorem exported_templates_load E projectType s :
  exists t s1,
    exportConfigTemplate E projectType s = (Ok t, s1)
    /\ t_projectType t = projectType
    /\ (forall s2, fst (loadConfig (Some (t_rules t)) s2) = Ok tt)
    /\ errors (validateAndNormalizeConfig (Some (t_rules t))) = []
    /\ warnings (validateAndNormalizeConfig (Some (t_rules t)))
       = ["Sezioni sconosciute: projectType, timestamp"].
Proof.
  unfold exportConfigTemplate, newDateISO, tick, bind, ret.
  destruct (String.eqb projectType "android");
    [|destruct (String.eqb projectType "web")];
    do 2 eexists; (split; [reflexivity|]); cbn [t_projectType t_rules];
    (split; [reflexivity|]); (split; [intros s2; reflexivity|]);
    split; reflexivity.
Qed.

End TemplateLaws.

Module DryRunLaws.
Import Str RegExp Method FileOrganizer Spec Logic Invariants DryRunNotions.
Import OrganizerProofs LoadLaws.
Local Open Scope nat_scope.
Local Open Scope method_scope.

(** *** The rules that apply *)





(** *** Dry runs that return *)











(** *** The theorem at a concrete input *)


End DryRunLaws.

(** ** Further properties of the extractor *)

Module ExtractorLaws.
Import Str RegExp Method CodeExtractor Spec ExtractorNotions ExtractorProofs.
Local Open Scope nat_scope.
Local Open Scope method_scope.

(** *** The loop of extractFiles *)

Lemma sumOf_app {A} (n : A -> nat) xs ys :
  sumOf n (xs ++ ys) = sumOf n xs + sumOf n ys.
Proof. induction xs as [|x xs IH]; simpl; [reflexivity | rewrite IH; lia]. Qed.

Lemma countOf_app p xs ys : countOf p (xs ++ ys) = countOf p xs + countOf p ys.
Proof. unfold countOf. rewrite List.filter_app, length_app. reflexivity. Qed.

Lemma countOf_one p x : countOf p [x] = if p x then 1 else 0.
Proof. unfold countOf. simpl. destruct (p x); reflexivity. Qed.

Lemma statsOf_empty :
  statsOf [] {| totalFiles := 0; totalSize := 0;
                byLanguage := ∅; byExtension := ∅;
                byComplexity := {| n_low := 0; n_medium := 0;
                                   n_high := 0; n_very_high := 0 |} |}.
Proof. repeat split; intros; rewrite lookup_empty; reflexivity. Qed.

Lemma bump_lookup k m j :
  default 0 (bump k m !! j)
  = default 0 (m !! j) + (if String.eqb k j then 1 else 0).
Proof.
  unfold bump. destruct (String.eqb_spec k j) as [->|Hne].
  - rewrite lookup_insert. rewrite decide_True by reflexivity. reflexivity.
  - rewrite lookup_insert_ne by exact Hne. lia.
Qed.

Lemma statsOf_update rs f s :
  statsOf rs (stats s) ->
  statsOf (rs ++ [f]) (stats (snd (updateStats f s))).
Proof.
  intros (H1 & H2 & H3 & H4 & H5 & H6 & H7 & H8).
  unfold updateStats, modify. cbn [snd stats].
  unfold statsOf. cbn [totalFiles totalSize byComplexity byExtension byLanguage].
  rewrite length_app, sumOf_app, !countOf_app, !countOf_one.
  cbn [length sumOf fold_right]. unfold hasComplexity in *.
  split; [lia|]. split; [lia|].
  split; [destruct (fileComplexity f);
            cbn [bumpComplexity n_low n_medium n_high n_very_high]; lia|].
  split; [destruct (fileComplexity f);
            cbn [bumpComplexity n_low n_medium n_high n_very_high]; lia|].
  split; [destruct (fileComplexity f);
            cbn [bumpComplexity n_low n_medium n_high n_very_high]; lia|].
  split; [destruct (fileComplexity f);
            cbn [bumpComplexity n_low n_medium n_high n_very_high]; lia|].
  split.
  - intros e. rewrite bump_lookup, H7, countOf_app, countOf_one.
    reflexivity.
  - intros l Hl. rewrite countOf_app, countOf_one, <- (H8 l Hl).
    unfold hasLanguage. destruct (language f) as [l'|]; [|lia].
    destruct (truthy l') eqn:Ht.
    + rewrite bump_lookup. reflexivity.
    + destruct l'; [|discriminate].
      destruct (String.eqb_spec "" l); [congruence | lia].
Qed.

Lemma extractFileSection_cases E input h next options s :
  (sectionContent input h next = ""
   /\ extractFileSection E input h next options s = (Ok None, s))
  \/ (sectionContent input h next <> ""
      /\ exists r s',
           extractFileSection E input h next options s = (Ok (Some r), s')
           /\ extractedFrom options (h, sectionContent input h next) r
           /\ extractedFiles s' = extractedFiles s
           /\ stats s' = stats s).
Proof.
  unfold extractFileSection.
  destruct (sectionContent input h next) as [|c r] eqn:Hsec.
  - left. split; reflexivity.
  - right. split; [discriminate|]. cbn [isEmpty].
    unfold bind, generateFileId, newDateISO, tick, ret. cbn [fst snd].
    eexists. eexists. split; [reflexivity|].
    split; [|split; reflexivity].
    unfold extractedFrom, stored. cbn.
    repeat split; try reflexivity; discriminate.
Qed.

Lemma extractSections_general E input options hs : forall s,
  statsOf (extractedFiles s) (stats s) ->
  exists rs s',
    extractSections E input options hs s = (Ok tt, s')
    /\ extractedFiles s' = extractedFiles s ++ rs
    /\ Forall2 (extractedFrom options) (filled input hs) rs
    /\ statsOf (extractedFiles s') (stats s').
Proof.
  induction hs as [|h rest IH]; intros s Hst.
  - exists [], s. simpl. rewrite app_nil_r.
    split; [reflexivity|]. split; [reflexivity|].
    split; [apply Forall2_nil_2 | exact Hst].
  - cbn [extractSections]. unfold bind at 1. unfold filled. cbn [sectionsOf List.filter snd].
    destruct (extractFileSection_cases E input h (head rest) options s)
      as [[Hsec Hrun]|(Hsec & r & s1 & Hrun & Hrec & Hfiles & Hstats)];
      rewrite Hrun.
    + rewrite Hsec. cbn [isEmpty negb].
      unfold bind at 1. cbn [ret fst snd].
      destruct (IH s Hst) as (rs & s' & Hloop & Hfs & Hrs & Hst').
      exists rs, s'. split; [exact Hloop|]. split; [exact Hfs|].
      split; [exact Hrs | exact Hst'].
    + rewrite (isEmpty_false _ Hsec). cbn [negb].
      unfold bind at 1. unfold bind at 1. unfold push at 1, modify at 1.
      cbn [fst snd].
      match goal with
      | [ |- context [updateStats r ?t] ] =>
          assert (Hup : statsOf (extractedFiles s ++ [r])
                                (stats (snd (updateStats r t))))
            by (apply statsOf_update; cbn [stats push]; rewrite Hstats;
                exact Hst);
          destruct (updateStats r t) as [u s2] eqn:Hu
      end.
      assert (Hu' : u = Ok tt /\ extractedFiles s2 = extractedFiles s ++ [r]).
      { unfold updateStats, modify in Hu. inversion Hu; subst.
        cbn [extractedFiles]. rewrite Hfiles. split; reflexivity. }
      destruct Hu' as [-> Hfs2]. cbn [snd] in Hup.
      assert (Hst2 : statsOf (extractedFiles s2) (stats s2)).
      { rewrite Hfs2. exact Hup. }
      destruct (IH s2 Hst2) as (rs & s' & Hloop & Hfs & Hrs & Hst').
      exists (r :: rs), s'. split; [exact Hloop|]. split.
      * rewrite Hfs, Hfs2, <- app_assoc. reflexivity.
      * split; [constructor; [exact Hrec | exact Hrs] | exact Hst'].
Qed.

Lemma extractFiles_run E input options this :
  findHeaders input <> [] ->
  exists rs tail s',
    extractFiles E input options this = (Ok (rs ++ tail), s')
    /\ extractedFiles s' = rs ++ tail
    /\ Forall2 (extractedFrom options) (filled input (findHeaders input)) rs
    /\ (generateConfig options = true -> rs <> [] ->
        exists m, tail = [m] /\ isManifest m)
    /\ (generateConfig options = false \/ rs = [] -> tail = [])
    /\ statsOf rs (stats s').
Proof.
  intros Hh.
  assert (Hink : hasInk input = true) by (apply headers_ink, Hh).
  pose proof (trim_ink input Hink) as Htrim.
  assert (Hin : input <> "") by (intros ->; apply Htrim; reflexivity).
  unfold extractFiles.
  rewrite (isEmpty_false _ Hin), (isEmpty_false _ Htrim). cbn [orb].
  unfold bind at 1. unfold clearFiles, modify. cbn [fst snd].
  unfold bind at 1. unfold resetStats, modify. cbn [fst snd].
  destruct (Nat.eqb_spec (length (findHeaders input)) 0) as [H0|_];
    [destruct (findHeaders input); [congruence | discriminate]|].
  cbv beta. unfold bind at 1.
  match goal with
  | |- context [extractSections E input options (findHeaders input) ?st] =>
      destruct (extractSections_general E input options (findHeaders input) st
                  statsOf_empty)
        as (rs & s1 & Hloop & Hfs & Hrs & Hst)
  end.
  cbn [extractedFiles app] in Hfs. rewrite Hfs in Hst.
  rewrite Hloop. unfold bind at 1. unfold get at 1. cbn [fst snd].
  rewrite Hfs.
  destruct (generateConfig options) eqn:Hg; cbn [andb].
  - destruct rs as [|r rs'].
    + exists [], [], s1. cbn [length Nat.ltb Nat.leb when].
      unfold bind, ret, gets. cbn [fst snd]. rewrite Hfs.
      split; [reflexivity|]. split; [reflexivity|]. split; [exact Hrs|].
      split; [congruence|]. split; [reflexivity | exact Hst].
    + cbn [length Nat.ltb Nat.leb when].
      unfold generateConfigFile, newDateISO, generateFileId, tick,
        get, ret, push, modify, gets, bind. cbn [fst snd].
      cbn [extractedFiles stats]. rewrite !Hfs.
      exists (r :: rs'). eexists [_]. eexists. split; [reflexivity|].
      cbn [extractedFiles stats].
      split; [reflexivity|]. split; [exact Hrs|].
      split; [intros _ _; eexists; split;
               [reflexivity | repeat split; discriminate]|].
      split; [intros [H|H]; discriminate | exact Hst].
  - unfold when, bind, ret, gets. cbn [fst snd].
    exists rs, [], s1. rewrite Hfs, app_nil_r.
    split; [reflexivity|]. split; [reflexivity|]. split; [exact Hrs|].
    split; [discriminate|]. split; [reflexivity | exact Hst].
Qed.

(** X16. [extractFiles] makes a record for each header whose section is
    not blank, in the order of the headers, and skips the others
    without an error.  The manifest is added after them only when
    [generateConfig] is set and at least one record was made: a text
    whose sections are all blank gives an empty list, not an error.
    Each record has the title of its header, the stored text of its
    section, the language detected in that text (none when detection is
    off), the name built from the title and the language, the extension
    of that name, and the size and the line count of its content. *)
Theorem blank_sections_are_skipped E input options this :
  findHeaders input <> [] ->
  exists rs tail s',
    extractFiles E input options this = (Ok (rs ++ tail), s')
    /\ extractedFiles s' = rs ++ tail
    /\ Forall2 (extractedFrom options) (filled input (findHeaders input)) rs
    /\ (generateConfig options = true -> rs <> [] ->
        exists m, tail = [m] /\ isManifest m)
    /\ (generateConfig options = false \/ rs = [] -> tail = []).
Proof.
  intros Hh.
  destruct (extractFiles_run E input options this Hh)
    as (rs & tail & s' & H1 & H2 & H3 & H4 & H5 & _).
  exists rs, tail, s'. auto.
Qed.

Lemma statsOf_counts rs st : statsOf rs st -> countsOf rs st.
Proof.
  intros (H1 & H2 & H3 & H4 & H5 & H6 & H7 & H8).
  repeat split; try assumption.
  - intros e _. apply H7.
  - intros l Hl _. apply H8, Hl.
Qed.

(** X17. After [extractFiles] the statistics agree with the records
    made from the sections, the manifest not counted: [totalFiles] is
    their number, [totalSize] the sum of their sizes, each counter of
    [complexity] the number of records of that level, and the counters
    of [byExtension] and [byLanguage] the number of records with that
    extension and that language.  This is stated of the extensions and
    languages that are not names inherited from [Object.prototype]:
    under a name such as [constructor] the code does not keep a count.
    What an earlier call had counted is forgotten. *)
Theorem stats_count_the_records E input options this :
  findHeaders input <> [] ->
  exists rs tail s',
    extractFiles E input options this = (Ok (rs ++ tail), s')
    /\ length tail <= 1
    /\ Forall isManifest tail
    /\ countsOf rs (stats s').
Proof.
  intros Hh.
  destruct (extractFiles_run E input options this Hh)
    as (rs & tail & s' & H1 & H2 & H3 & H4 & H5 & H6).
  apply statsOf_counts in H6.
  exists rs, tail, s'. split; [exact H1|].
  destruct (generateConfig options) eqn:Hg.
  - destruct rs as [|r rs'].
    + rewrite (H5 (or_intror eq_refl)).
      split; [simpl; lia|]. split; [constructor | exact H6].
    + destruct (H4 eq_refl) as (m & -> & Hm); [discriminate|].
      split; [simpl; lia|]. split; [repeat constructor; apply Hm | exact H6].
  - rewrite (H5 (or_introl eq_refl)).
    split; [simpl; lia|]. split; [constructor | exact H6].
Qed.

Lemma counted_anyIn rs st l :
  statsOf rs st -> l <> "" -> counted st l = anyIn rs l.
Proof.
  intros (_ & _ & _ & _ & _ & _ & _ & H8) Hl. unfold counted, anyIn.
  rewrite (H8 l Hl). unfold countOf. clear.
  induction rs as [|r rs IH]; [reflexivity|].
  simpl. destruct (hasLanguage l r); simpl; [reflexivity | exact IH].
Qed.

(** X18. The project type that [guessProjectType] reads off the
    statistics after [extractFiles] is decided by the languages
    detected in the records: [android] when some record is kotlin or
    java; otherwise [web] when some record is javascript and some
    record is html; otherwise [python] when some record is python;
    otherwise [generic].  The manifest does not count. *)
Theorem project_type_follows_languages E input options this :
  findHeaders input <> [] ->
  exists rs tail s',
    extractFiles E input options this = (Ok (rs ++ tail), s')
    /\ Forall isManifest tail
    /\ guessProjectType (stats s')
       = if anyIn rs "kotlin" || anyIn rs "java" then "android"
         else if anyIn rs "javascript" && anyIn rs "html" then "web"
         else if anyIn rs "python" then "python"
         else "generic".
Proof.
  intros Hh.
  destruct (extractFiles_run E input options this Hh)
    as (rs & tail & s' & H1 & H2 & H3 & H4 & H5 & H6).
  exists rs, tail, s'. split; [exact H1|]. split.
  - destruct (generateConfig options) eqn:Hg.
    + destruct rs as [|r rs'].
      * rewrite (H5 (or_intror eq_refl)). constructor.
      * destruct (H4 eq_refl) as (m & -> & Hm); [discriminate|].
        repeat constructor; apply Hm.
    + rewrite (H5 (or_introl eq_refl)). constructor.
  - unfold guessProjectType.
    rewrite !(counted_anyIn rs (stats s')) by (exact H6 || discriminate).
    reflexivity.
Qed.

(** *** The theorems at concrete inputs *)

Lemma blank_sections_are_skipped_witness :
  exists rs tail s',
    extractFiles Platform.sampleEnv Samples.sampleText defaultOptions
                 newExtractor
    = (Ok (rs ++ tail), s')
    /\ extractedFiles s' = rs ++ tail
    /\ Forall2 (extractedFrom defaultOptions)
               (filled Samples.sampleText (findHeaders Samples.sampleText)) rs
    /\ (generateConfig defaultOptions = true -> rs <> [] ->
        exists m, tail = [m] /\ isManifest m)
    /\ (generateConfig defaultOptions = false \/ rs = [] -> tail = []).
Proof.
  apply (blank_sections_are_skipped Platform.sampleEnv Samples.sampleText
           defaultOptions newExtractor).
  vm_compute. discriminate.
Defined.

Lemma stats_count_the_records_witness :
  exists rs tail s',
    extractFiles Platform.sampleEnv Samples.sampleText defaultOptions
                 newExtractor
    = (Ok (rs ++ tail), s')
    /\ length tail <= 1
    /\ Forall isManifest tail
    /\ countsOf rs (stats s').
Proof.
  apply (stats_count_the_records Platform.sampleEnv Samples.sampleText
           defaultOptions newExtractor).
  vm_compute. discriminate.
Defined.

Lemma project_type_follows_languages_witness :
  exists rs tail s',
    extractFiles Platform.sampleEnv Samples.sampleText defaultOptions
                 newExtractor
    = (Ok (rs ++ tail), s')
    /\ Forall isManifest tail
    /\ guessProjectType (stats s')
       = if anyIn rs "kotlin" || anyIn rs "java" then "android"
         else if anyIn rs "javascript" && anyIn rs "html" then "web"
         else if anyIn rs "python" then "python"
         else "generic".
Proof.
  apply (project_type_follows_languages Platform.sampleEnv Samples.sampleText
           defaultOptions newExtractor).
  vm_compute. discriminate.
Defined.

End ExtractorLaws.

Module MatcherLaws.
Import Str RegExp Method CodeExtractor Spec MatcherNotions.
Import SplitLaws.
Local Open Scope nat_scope.

Lemma every_app P a b : every P (a +:+ b) = every P a && every P b.
Proof.
  induction a as [|x a IH]; [reflexivity|].
  rewrite app_cons. simpl. rewrite IH, andb_assoc. reflexivity.
Qed.

Lemma every_impl (P Q : ascii -> bool) s :
  (forall x, P x = true -> Q x = true) -> every P s = true -> every Q s = true.
Proof.
  intros H. induction s as [|x s IH]; simpl; [reflexivity|].
  intros Hs. apply andb_true_iff in Hs as [Hx Hs].
  rewrite (H x Hx), (IH Hs). reflexivity.
Qed.

Lemma app_nil_r_str (s : string) : s +:+ "" = s.
Proof. induction s as [|x s IH]; [reflexivity|]. rewrite app_cons, IH. reflexivity. Qed.

Lemma consumed_empty P rest n (k : Cont) prev g o :
  k prev rest n g = Some o -> Consumed P 0 rest n k o.
Proof.
  intros H. exists "", prev, rest, g. simpl. rewrite Nat.add_0_r.
  repeat split; [lia | exact H].
Qed.

Lemma consumed_one P x rest' n (k : Cont) g o :
  P x = true -> k (Some x) rest' (S n) g = Some o ->
  Consumed P 1 (String x rest') n k o.
Proof.
  intros Hx H. exists (String x ""), (Some x), rest', g.
  simpl. rewrite Hx. replace (n + 1) with (S n) by lia.
  repeat split; [lia | exact H].
Qed.

Lemma consumed_more P x m rest' n (k : Cont) o :
  P x = true -> Consumed P (Nat.pred m) rest' (S n) k o ->
  Consumed P m (String x rest') n k o.
Proof.
  intros Hx (w & prev' & rest'' & g' & -> & Hw & Hm & Hk).
  exists (String x w), prev', rest'', g'. rewrite app_cons. simpl.
  rewrite Hx, Hw. replace (n + S (len w)) with (S n + len w) by lia.
  repeat split; [unfold len in *; lia | exact Hk].
Qed.

Lemma consumed_weaken P m m' rest n k o :
  m' <= m -> Consumed P m rest n k o -> Consumed P m' rest n k o.
Proof.
  intros Hle (w & prev' & rest' & g' & H1 & H2 & H3 & H4).
  exists w, prev', rest', g'. repeat split; try assumption. lia.
Qed.

Lemma repGreedy_consumed P p : (forall x, p x = true -> P x = true) ->
  forall rest min prev n g k o,
    repGreedy p min prev rest n g k = Some o -> Consumed P min rest n k o.
Proof.
  intros Hp. induction rest as [|x rest' IH]; intros min prev n g k o H.
  - simpl in H. destruct min; [|discriminate].
    eapply consumed_empty, H.
  - simpl in H. destruct (p x) eqn:Hx.
    + destruct (repGreedy p (Nat.pred min) (Some x) rest' (S n) g k) eqn:Hr.
      * simpl in H. inversion H; subst.
        apply consumed_more; [apply Hp, Hx | eapply IH, Hr].
      * simpl in H. destruct min; [|discriminate].
        eapply consumed_empty, H.
    + destruct min; [|discriminate]. eapply consumed_empty, H.
Qed.

Lemma repLazy_consumed P p : (forall x, p x = true -> P x = true) ->
  forall rest min prev n g k o,
    repLazy p min prev rest n g k = Some o -> Consumed P min rest n k o.
Proof.
  intros Hp. induction rest as [|x rest' IH]; intros min prev n g k o H.
  - simpl in H. destruct min; [|discriminate].
    destruct (k prev "" n g) eqn:Hk; simpl in H; [|discriminate].
    inversion H; subst. eapply consumed_empty, Hk.
  - simpl in H. destruct min as [|min'].
    + destruct (k prev (String x rest') n g) eqn:Hk; simpl in H.
      * inversion H; subst. eapply consumed_empty, Hk.
      * destruct (p x) eqn:Hx; [|discriminate].
        apply consumed_more; [apply Hp, Hx | eapply IH, H].
    + destruct (p x) eqn:Hx; [|discriminate].
      apply consumed_more; [apply Hp, Hx | eapply IH, H].
Qed.

Lemma run_consumed fl P r : accepts fl P r ->
  forall prev rest n g k o,
    run fl r prev rest n g k = Some o -> Consumed P (minLen r) rest n k o.
Proof.
  induction r as [|c|p|a IHa b IHb|a IHa b IHb|p min greedy|a IHa|a IHa| |];
    intros Hacc prev rest n g k o H; cbn [run minLen] in *.
  - eapply consumed_empty, H.
  - destruct rest as [|x rest']; [discriminate|].
    destruct (charMatches fl c x) eqn:Hx; [|discriminate].
    eapply consumed_one; [apply Hacc, Hx | exact H].
  - destruct rest as [|x rest']; [discriminate|].
    destruct (p x) eqn:Hx; [|discriminate].
    eapply consumed_one; [apply Hacc, Hx | exact H].
  - destruct Hacc as [Ha Hb].
    destruct (IHa Ha _ _ _ _ _ _ H)
      as (w1 & p1 & r1 & g1 & -> & Hw1 & Hm1 & Hk1).
    destruct (IHb Hb _ _ _ _ _ _ Hk1)
      as (w2 & p2 & r2 & g2 & -> & Hw2 & Hm2 & Hk2).
    exists (w1 +:+ w2), p2, r2, g2.
    rewrite string_app_assoc, every_app, Hw1, Hw2, len_app.
    replace (n + (len w1 + len w2)) with (n + len w1 + len w2) by lia.
    repeat split; [lia | exact Hk2].
  - destruct Hacc as [Ha Hb].
    destruct (run fl a prev rest n g k) eqn:Hra; simpl in H.
    + inversion H; subst.
      eapply consumed_weaken; [|eapply IHa; [exact Ha | exact Hra]]. lia.
    + eapply consumed_weaken; [|eapply IHb; [exact Hb | exact H]]. lia.
  - destruct greedy.
    + eapply repGreedy_consumed; [exact Hacc | exact H].
    + eapply repLazy_consumed; [exact Hacc | exact H].
  - destruct (run fl a prev rest n g k) eqn:Hra; simpl in H.
    + inversion H; subst.
      eapply consumed_weaken; [|eapply IHa; [exact Hacc | exact Hra]]. lia.
    + eapply consumed_empty, H.
  - destruct (IHa Hacc _ _ _ _ _ _ H)
      as (w & p1 & r1 & g1 & -> & Hw & Hm & Hk).
    exists w, p1, r1, (Some (n, n + len w - n)).
    repeat split; assumption.
  - destruct (atLineStart fl prev); [|discriminate]. eapply consumed_empty, H.
  - destruct (atLineEnd fl rest); [|discriminate]. eapply consumed_empty, H.
Qed.

Lemma take_app_len w : forall rest, take (len w) (w +:+ rest) = w.
Proof.
  induction w as [|x w IH]; intros rest; [destruct rest; reflexivity|].
  rewrite app_cons. simpl. f_equal. apply IH.
Qed.

(** The first capture of a pattern that is one group. *)
Lemma group_consumed fl P a prev rest o :
  accepts fl P a ->
  execAt fl (Grp a) prev rest = Some o ->
  exists w, group1 (mkMatch 0 rest o) = Some w
            /\ every P w = true /\ minLen a <= len w.
Proof.
  intros Hacc H. unfold execAt in H. cbn [run] in H.
  apply (run_consumed fl P a Hacc) in H.
  destruct H as (w & p1 & r1 & g1 & -> & Hw & Hm & Hk).
  inversion Hk; subst. exists w. unfold mkMatch. cbn [snd group1 drop].
  rewrite ?Nat.add_0_l, Nat.sub_0_r, take_app_len. repeat split; assumption.
Qed.

Lemma firstGroup_consumed fl P a s w :
  accepts fl P a ->
  firstGroup fl (Grp a) s = Some w ->
  every P w = true /\ minLen a <= len w.
Proof.
  intros Hacc. unfold firstGroup, search.
  generalize (@None ascii) as prev. generalize 0 as i.
  induction s as [|x s IH]; intros i prev H; cbn [searchFrom] in H.
  - destruct (execAt fl (Grp a) prev "") as [o|] eqn:He; [|discriminate].
    destruct (group_consumed fl P a prev "" o Hacc He) as (w' & Hg & Hw & Hm).
    unfold mkMatch in *. cbn [group1] in *. rewrite Hg in H.
    inversion H; subst. split; assumption.
  - destruct (execAt fl (Grp a) prev (String x s)) as [o|] eqn:He.
    + destruct (group_consumed fl P a prev _ o Hacc He) as (w' & Hg & Hw & Hm).
      unfold mkMatch in *. cbn [group1] in *. rewrite Hg in H.
      inversion H; subst. split; assumption.
    + eapply IH, H.
Qed.

End MatcherLaws.

Module NameLaws.
Import Str RegExp Method CodeExtractor Spec ExtractorNotions MatcherNotions
       CharNotions.
Import ExtractorProofs SplitLaws ExtractorLaws MatcherLaws.
Local Open Scope nat_scope.

(** *** Characters *)

Lemma forallb_bool (g : bool -> bool) :
  forallb g [true; false] = true -> forall b, g b = true.
Proof.
  simpl. intros H b. apply andb_true_iff in H as [Ht H].
  apply andb_true_iff in H as [Hf _]. destruct b; assumption.
Qed.

Lemma forallAscii_spec f : forallAscii f = true -> forall c, f c = true.
Proof.
  intros H [b0 b1 b2 b3 b4 b5 b6 b7]. unfold forallAscii in H.
  pose proof (forallb_bool _ H b0) as H0. cbv beta in H0.
  pose proof (forallb_bool _ H0 b1) as H1. cbv beta in H1.
  pose proof (forallb_bool _ H1 b2) as H2. cbv beta in H2.
  pose proof (forallb_bool _ H2 b3) as H3. cbv beta in H3.
  pose proof (forallb_bool _ H3 b4) as H4. cbv beta in H4.
  pose proof (forallb_bool _ H4 b5) as H5. cbv beta in H5.
  pose proof (forallb_bool _ H5 b6) as H6. cbv beta in H6.
  exact (forallb_bool _ H6 b7).
Qed.

Lemma implb_elim (a b : bool) : implb a b = true -> a = true -> b = true.
Proof. destruct a, b; simpl; congruence. Qed.

Lemma name_upper c : isNameChar c = true -> isNameChar (upperChar c) = true.
Proof.
  intros Hc.
  assert (H : forallAscii (fun c => implb (isNameChar c)
                                          (isNameChar (upperChar c))) = true)
    by (vm_compute; reflexivity).
  apply (implb_elim _ _ (forallAscii_spec _ H c) Hc).
Qed.

Lemma name_of_upper x : isNameChar (upperChar x) = true -> isNameChar x = true.
Proof.
  intros Hx.
  assert (H : forallAscii (fun x => implb (isNameChar (upperChar x))
                                          (isNameChar x)) = true)
    by (vm_compute; reflexivity).
  apply (implb_elim _ _ (forallAscii_spec _ H x) Hx).
Qed.

Lemma name_ignoring_case c x :
  isNameChar c = true -> charMatches flagI c x = true -> isNameChar x = true.
Proof.
  intros Hc Hx. unfold charMatches in Hx. cbn [ignoreCase flagI] in Hx.
  apply Ascii.eqb_eq in Hx. apply name_of_upper. rewrite <- Hx.
  apply name_upper, Hc.
Qed.

Lemma name_exact c x :
  isNameChar c = true -> charMatches noFlags c x = true -> isNameChar x = true.
Proof.
  intros Hc Hx. unfold charMatches in Hx. cbn [ignoreCase noFlags] in Hx.
  apply Ascii.eqb_eq in Hx. subst x. exact Hc.
Qed.

Lemma name_lower c : isNameChar c = true -> isNameChar (lowerChar c) = true.
Proof.
  intros Hc.
  assert (H : forallAscii (fun c => implb (isNameChar c)
                                          (isNameChar (lowerChar c))) = true)
    by (vm_compute; reflexivity).
  apply (implb_elim _ _ (forallAscii_spec _ H c) Hc).
Qed.

Lemma name_not_space c : isNameChar c = true -> isWhiteSpace c = false.
Proof.
  intros Hc.
  assert (H : forallAscii (fun c => implb (isNameChar c)
                                          (negb (isWhiteSpace c))) = true)
    by (vm_compute; reflexivity).
  apply negb_true_iff. apply (implb_elim _ _ (forallAscii_spec _ H c) Hc).
Qed.

Lemma alnum_name c : isAlnum c = true -> isNameChar c = true.
Proof. unfold isNameChar. intros ->. reflexivity. Qed.

Lemma stem_name c : isStemChar c = true -> isNameChar c = true.
Proof.
  intros Hc.
  assert (H : forallAscii (fun c => implb (isStemChar c) (isNameChar c)) = true)
    by (vm_compute; reflexivity).
  apply (implb_elim _ _ (forallAscii_spec _ H c) Hc).
Qed.

(** *** Replacements *)

Lemma splice_skip subject repl x r i ms :
  Forall (fun m => S i <= index m) ms ->
  splice subject repl (String x r) i ms
  = String x (splice subject repl r (S i) ms).
Proof.
  intros H. destruct ms as [|m ms']; [reflexivity|].
  inversion H as [|? ? Hm _]; subst. cbn [splice].
  replace (index m - i) with (S (index m - S i)) by lia.
  cbn [take Nat.add drop]. rewrite app_cons. reflexivity.
Qed.

Lemma splice_class_away q subject : forall rest prev i,
  splice subject "" rest i (scan noFlags (Cls q) prev rest i 0)
  = keepChars (fun c => negb (q c)) rest.
Proof.
  induction rest as [|x r IH]; intros prev i; [reflexivity|].
  cbn [scan keepChars]. unfold execAt. cbn [run].
  destruct (q x) eqn:Hq; cbn [negb].
  - cbn [fst Nat.pred splice mkMatch index text take len String.length].
    rewrite Nat.sub_diag. cbn [take Nat.add drop].
    unfold substitute. cbn [expand].
    replace (i + 1) with (S i) by lia. apply IH.
  - rewrite splice_skip by (apply scan_indices). f_equal. apply IH.
Qed.

(** [s.replace(/[..]/g, '')] keeps the characters outside the class. *)
Lemma replaceAll_class_away q s :
  replaceAll noFlags (Cls q) s "" = keepChars (fun c => negb (q c)) s.
Proof. unfold replaceAll, matchAll. apply splice_class_away. Qed.

(** A pattern that needs a white-space character finds nothing in a
    string that has none. *)
Lemma scan_no_space fl s : every (fun c => negb (isWhiteSpace c)) s = true ->
  forall prev i, scan fl ws1 prev s i 0 = [].
Proof.
  induction s as [|x r IH]; intros H prev i; [reflexivity|].
  simpl in H. apply andb_true_iff in H as [Hx Hr].
  apply negb_true_iff in Hx.
  cbn [scan]. unfold execAt, ws1. cbn [run repGreedy]. rewrite Hx.
  apply IH, Hr.
Qed.

Lemma every_keepChars P s : every P (keepChars P s) = true.
Proof.
  induction s as [|x r IH]; [reflexivity|].
  simpl. destruct (P x) eqn:Hx; [simpl; rewrite Hx|]; exact IH.
Qed.

Lemma every_lower s :
  every isNameChar s = true -> every isNameChar (toLowerCase s) = true.
Proof.
  induction s as [|x r IH]; [reflexivity|]. simpl. intros H.
  apply andb_true_iff in H as [Hx Hr].
  rewrite (name_lower _ Hx), (IH Hr). reflexivity.
Qed.

(** *** The names of the records *)

Lemma safe_of_match P w n : every P w = true -> n <= len w -> 0 < n -> w <> "".
Proof. intros _ Hn Hpos ->. simpl in Hn. lia. Qed.

Lemma filename_accepts :
  accepts noFlags isNameChar
          (seqs [Rep isNameChar 1 true; Chr "."; Rep isAlnum 1 true]).
Proof.
  cbn [accepts seqs]. repeat split; intros x Hx;
    [exact Hx | apply (name_exact "."); [reflexivity | exact Hx]
    | apply alnum_name, Hx].
Qed.

Ltac accept_chars :=
  cbn [accepts seqs lit]; repeat split; intros ? ?;
    first [ apply stem_name; assumption
          | eapply name_ignoring_case; [|eassumption]; reflexivity ].

Lemma specific_accepts :
  Forall (fun p => exists a, p = Grp a /\ accepts flagI isNameChar a
                             /\ 1 <= minLen a) specificPatterns.
Proof.
  unfold specificPatterns. cbn [map].
  repeat (constructor;
            [eexists; split; [reflexivity|]; split;
             [accept_chars | cbn [minLen seqs lit]; lia]|]).
  constructor.
Qed.

Lemma firstSpecific_safe title n :
  firstSpecific specificPatterns title = Some n -> safeName n.
Proof.
  pose proof specific_accepts as H. revert H.
  generalize specificPatterns as ps.
  induction ps as [|p ps IH]; intros Hall Hf; [discriminate|].
  inversion Hall as [|? ? (a & -> & Hacc & Hmin) Hrest]; subst.
  cbn [firstSpecific] in Hf.
  destruct (firstGroup flagI (Grp a) title) as [w|] eqn:Hg.
  - inversion Hf; subst.
    destruct (firstGroup_consumed flagI isNameChar a title n Hacc Hg) as [Hw Hm].
    split; [|exact Hw]. intros ->. simpl in Hm. lia.
  - apply IH; assumption.
Qed.

Lemma extractFileName_safe title : safeName (extractFileName title).
Proof.
  unfold extractFileName.
  destruct (firstGroup noFlags filename title) as [n|] eqn:Hg.
  - unfold filename in Hg.
    destruct (firstGroup_consumed noFlags isNameChar _ title n
                filename_accepts Hg) as [Hw Hm].
    split; [|exact Hw]. intros ->. cbn in Hm. lia.
  - destruct (firstSpecific specificPatterns title) as [n|] eqn:Hs.
    + eapply firstSpecific_safe, Hs.
    + rewrite replaceAll_class_away.
      set (kept := keepChars (fun c => negb (negb (isNameChar c))) title).
      assert (Hk : every isNameChar kept = true).
      { subst kept. eapply every_impl; [|apply every_keepChars].
        intros x Hx. cbv beta in Hx. rewrite negb_involutive in Hx. exact Hx. }
      assert (Hr : replaceAll noFlags ws1 kept "_" = kept).
      { unfold replaceAll, matchAll. rewrite scan_no_space; [reflexivity|].
        eapply every_impl; [|exact Hk].
        intros x Hx. rewrite (name_not_space _ Hx). reflexivity. }
      rewrite Hr. unfold orDefault.
      destruct (truthy (toLowerCase kept)) eqn:Ht.
      * split; [|apply every_lower, Hk].
        intros He. rewrite He in Ht. discriminate.
      * split; [discriminate | reflexivity].
Qed.

Lemma lookup_values l kvs e :
  lookup l kvs = Some e -> In e (map snd kvs).
Proof.
  induction kvs as [|[k v] kvs IH]; [discriminate|].
  simpl. destruct (String.eqb l k); [|intros H; right; apply IH, H].
  intros H. inversion H. left. reflexivity.
Qed.

Lemma extension_values :
  Forall (fun e => every isNameChar e = true /\ includes e "." = false
                   /\ toLowerCase e = e /\ e <> "")
         ("txt" :: map snd languageExtensions).
Proof. repeat constructor; discriminate. Qed.

(** The extension that [buildFileName] appends for a language. *)
Lemma appended_extension l :
  exists e,
    (match l with
     | Some l => if truthy l
                 then orDefault (default "" (lookup l languageExtensions)) "txt"
                 else "txt"
     | None => "txt"
     end) = e
    /\ In e ("txt" :: map snd languageExtensions).
Proof.
  destruct l as [l|]; [|exists "txt"; split; [reflexivity | left; reflexivity]].
  destruct (truthy l); [|exists "txt"; split; [reflexivity | left; reflexivity]].
  destruct (lookup l languageExtensions) as [e|] eqn:Hl;
    [|exists "txt"; split; [reflexivity | left; reflexivity]].
  replace (default "" (Some e)) with e by reflexivity.
  unfold orDefault. destruct (truthy e).
  - exists e. split; [reflexivity|]. right. eapply lookup_values, Hl.
  - exists "txt". split; [reflexivity | left; reflexivity].
Qed.

Lemma buildFileName_safe n l : safeName n -> safeName (buildFileName n l).
Proof.
  intros [Hne Hn]. unfold buildFileName.
  destruct (includes n "."); [split; assumption|].
  destruct (appended_extension l) as (e & -> & He).
  pose proof extension_values as Hall. rewrite Forall_forall in Hall.
  destruct (Hall e) as (Hev & _); [apply list_elem_of_In, He|].
  split.
  - destruct n; [congruence | discriminate].
  - rewrite !every_app, Hn, Hev. reflexivity.
Qed.

(** X19. The file names of the records that [extractFiles] returns are
    never empty and hold only letters, digits, the underscore, the dot
    and the hyphen, whatever the titles of the headers and whatever the
    sections hold: no slash, no backslash and no white space.  This
    holds of every record returned, the manifest included. *)
Theorem extracted_names_are_safe E input options this :
  findHeaders input <> [] ->
  exists rs s',
    extractFiles E input options this = (Ok rs, s')
    /\ Forall (fun r => safeName (fileName r)) rs.
Proof.
  intros Hh.
  destruct (extractFiles_run E input options this Hh)
    as (rs & tail & s' & H1 & H2 & H3 & H4 & H5 & _).
  exists (rs ++ tail), s'. split; [exact H1|].
  apply Forall_app. split.
  - clear H1 H2 H4 H5. revert H3.
    generalize (filled input (findHeaders input)) as secs.
    induction rs as [|r rs IH]; intros secs H3; [constructor|].
    inversion H3 as [|sec ? ? ? Hrec Hrest]; subst. constructor.
    + destruct Hrec as (_ & _ & _ & Hname & _). rewrite Hname.
      apply buildFileName_safe, extractFileName_safe.
    + eapply IH, Hrest.
  - destruct (generateConfig options) eqn:Hg.
    + destruct rs as [|r rs'].
      * rewrite (H5 (or_intror eq_refl)). constructor.
      * destruct (H4 eq_refl) as (m & -> & Hm & _); [discriminate|].
        repeat constructor; rewrite Hm; [discriminate | reflexivity].
    + rewrite (H5 (or_introl eq_refl)). constructor.
Qed.

(** *** The theorem at a concrete input *)

Lemma extracted_names_are_safe_witness :
  exists rs s',
    extractFiles Platform.sampleEnv Samples.sampleText defaultOptions
                 newExtractor
    = (Ok rs, s')
    /\ Forall (fun r => safeName (fileName r)) rs.
Proof.
  apply (extracted_names_are_safe Platform.sampleEnv Samples.sampleText
           defaultOptions newExtractor).
  vm_compute. discriminate.
Defined.

End NameLaws.

Module LanguageLaws.
Import Str RegExp Method CodeExtractor Spec ExtractorNotions MatcherNotions
       CharNotions LanguageNotions.
Import ExtractorProofs LoadLaws SplitLaws ExtractorLaws MatcherLaws NameLaws.
Local Open Scope nat_scope.

(** *** Names and extensions *)

Lemma includes_dot x r :
  includes (String x r) "." = ascii_eqb x "." || includes r ".".
Proof.
  cbn [includes startsWith]. rewrite startsWith_empty, andb_true_r.
  unfold ascii_eqb. rewrite Ascii.eqb_sym. reflexivity.
Qed.

Lemma splitChar_no_dot s : includes s "." = false -> splitChar "." s = [s].
Proof.
  induction s as [|x r IH]; [reflexivity|].
  rewrite includes_dot. intros H. apply orb_false_iff in H as [Hx Hr].
  cbn [splitChar]. rewrite Hx, (IH Hr). reflexivity.
Qed.

Lemma splitChar_app a : forall b,
  includes a "." = false ->
  splitChar "." (a +:+ String "." b) = a :: splitChar "." b.
Proof.
  induction a as [|x r IH]; intros b H.
  - reflexivity.
  - rewrite includes_dot in H. apply orb_false_iff in H as [Hx Hr].
    rewrite app_cons. cbn [splitChar]. rewrite Hx, (IH b Hr). reflexivity.
Qed.

Lemma includes_app_dot a b : includes (a +:+ String "." b) "." = true.
Proof.
  induction a as [|x r IH].
  - change (includes (String "." b) "." = true). rewrite includes_dot.
    reflexivity.
  - rewrite app_cons, includes_dot, IH. apply orb_true_r.
Qed.

Lemma built_extension l :
  (match l with
   | Some l => if truthy l
               then orDefault (default "" (lookup l languageExtensions)) "txt"
               else "txt"
   | None => "txt"
   end) = extensionOf l.
Proof.
  unfold extensionOf. destruct l as [l|]; [|reflexivity]. cbn [mbind option_bind].
  destruct l as [|c l']; [reflexivity|]. cbn [truthy isEmpty negb].
  destruct (lookup (String c l') languageExtensions) as [e|] eqn:Hl;
    [|reflexivity].
  replace (default "" (Some e)) with e by reflexivity.
  replace (default "txt" (Some e)) with e by reflexivity.
  pose proof extension_values as Hall. rewrite Forall_forall in Hall.
  destruct (Hall e) as (_ & _ & _ & Hne).
  { apply list_elem_of_In. right. eapply lookup_values, Hl. }
  unfold orDefault. destruct e; [congruence | reflexivity].
Qed.

Lemma extensionOf_values l :
  In (extensionOf l) ("txt" :: map snd languageExtensions).
Proof.
  unfold extensionOf. destruct l as [l|]; [|left; reflexivity].
  cbn [mbind option_bind].
  destruct (lookup l languageExtensions) as [e|] eqn:Hl; [|left; reflexivity].
  right. eapply lookup_values, Hl.
Qed.

Lemma built_name n l :
  includes n "." = false -> buildFileName n l = n +:+ "." +:+ extensionOf l.
Proof.
  intros H. unfold buildFileName. rewrite H, built_extension. reflexivity.
Qed.

(** X20. A name that holds a dot is kept as it is, whatever language
    was detected.  A name without a dot gets a dot and the extension of
    the detected language, [txt] when there is none or one that the
    table does not hold, and [getFileExtension] reads this extension
    back from the name built.  This is stated of the languages that
    are not names inherited from [Object.prototype]: for a name such as
    [constructor] the code finds an inherited member in its table and
    does not fall back to [txt]. *)
Theorem extension_follows_language n l :
  (forall k, l = Some k -> inherited k = false) ->
  (includes n "." = true -> buildFileName n l = n)
  /\ (includes n "." = false ->
      buildFileName n l = n +:+ "." +:+ extensionOf l
      /\ getFileExtension (buildFileName n l) = extensionOf l).
Proof.
  intros _.
  split; intros H; [unfold buildFileName; rewrite H; reflexivity|].
  rewrite (built_name n l H). split; [reflexivity|].
  pose proof extension_values as Hall. rewrite Forall_forall in Hall.
  destruct (Hall (extensionOf l)) as (_ & Hdot & Hlow & _);
    [apply list_elem_of_In, extensionOf_values|].
  unfold getFileExtension.
  change (n +:+ "." +:+ extensionOf l)
    with (n +:+ String "." (extensionOf l)).
  rewrite includes_app_dot, (splitChar_app n _ H), (splitChar_no_dot _ Hdot).
  cbn [last default]. exact Hlow.
Qed.

(** *** The languages that are detected *)

Lemma languages_have_extensions :
  Forall (fun e => lookup (fst e) languageExtensions <> None) languages.
Proof. repeat constructor; discriminate. Qed.

(** X21. Every language that [detectLanguage] answers has its extension
    in the table of [buildFileName]: for a detected language the
    fallback [txt] is never used, and a title without extension gets the
    extension of the table. *)
Theorem detected_language_has_extension content l :
  detectLanguage content = Some l ->
  exists e, lookup l languageExtensions = Some e
            /\ extensionOf (Some l) = e
            /\ forall n, includes n "." = false ->
                 buildFileName n (Some l) = n +:+ "." +:+ e.
Proof.
  intros Hd.
  assert (Hl : lookup l languageExtensions <> None).
  { unfold detectLanguage in Hd.
    destruct (list_find _ languages) as [[i [l' p]]|] eqn:Hf.
    - inversion Hd; subst. apply list_find_Some in Hf as (Hi & _ & _).
      pose proof languages_have_extensions as Hall.
      rewrite Forall_forall in Hall.
      apply (Hall (l, p)). eapply list_elem_of_lookup_2, Hi.
    - destruct (includes content "<?xml"); [inversion Hd; discriminate|].
      destruct (includes content "<!DOCTYPE" || includes content "<html");
        [inversion Hd; discriminate|].
      destruct (startsWith (trim content) "{" || startsWith (trim content) "[");
        [inversion Hd; discriminate|].
      destruct (includes content "function " || includes content "=>");
        [inversion Hd; discriminate | discriminate]. }
  destruct (lookup l languageExtensions) as [e|] eqn:He; [|congruence].
  exists e. split; [reflexivity|].
  assert (Hx : extensionOf (Some l) = e).
  { unfold extensionOf. cbn [mbind option_bind]. rewrite He. reflexivity. }
  split; [exact Hx|]. intros n Hn.
  rewrite <- Hx. apply built_name, Hn.
Qed.

(** *** The theorems at concrete inputs *)

Lemma extension_follows_language_witness :
  buildFileName "Main" (Some "kotlin") = "Main" +:+ "." +:+ "kt"
  /\ getFileExtension (buildFileName "Main" (Some "kotlin")) = "kt".
Proof.
  apply (extension_follows_language "Main" (Some "kotlin")).
  - intros k Hk. inversion Hk. reflexivity.
  - reflexivity.
Defined.

Lemma detected_language_has_extension_witness :
  exists e, lookup "kotlin" languageExtensions = Some e
            /\ extensionOf (Some "kotlin") = e
            /\ forall n, includes n "." = false ->
                 buildFileName n (Some "kotlin") = n +:+ "." +:+ e.
Proof.
  apply (detected_language_has_extension "package a" "kotlin").
  vm_compute. reflexivity.
Defined.

End LanguageLaws.

Module DetectLaws.
Import Str RegExp Method CodeExtractor Spec ExtractorNotions MatcherNotions
       CharNotions LanguageNotions.
Import ExtractorProofs LoadLaws SplitLaws ExtractorLaws MatcherLaws
       NameLaws LanguageLaws.
Local Open Scope nat_scope.

(** *** Searching *)

Lemma searchFrom_eq fl r prev rest i :
  searchFrom fl r prev rest i
  = match execAt fl r prev rest with
    | Some o => Some (mkMatch i rest o)
    | None =>
        match rest with
        | String x rest' => searchFrom fl r (Some x) rest' (S i)
        | EmptyString => None
        end
    end.
Proof. destruct rest; reflexivity. Qed.

(** A pattern that matches at the start of [rest], whatever comes
    before, is found in every text that ends with [rest]. *)
Lemma searchFrom_finds fl r rest a :
  (forall prev, exists o, execAt fl r prev rest = Some o) ->
  forall prev i, exists m, searchFrom fl r prev (a +:+ rest) i = Some m.
Proof.
  intros Hm. induction a as [|x a IH]; intros prev i.
  - change ("" +:+ rest) with rest. rewrite searchFrom_eq.
    destruct (Hm prev) as [o ->]. eexists. reflexivity.
  - rewrite app_cons. cbn [searchFrom].
    destruct (execAt fl r prev (String x (a +:+ rest))); [eexists; reflexivity|].
    apply IH.
Qed.

Lemma test_finds fl r rest a :
  (forall prev, exists o, execAt fl r prev rest = Some o) ->
  test fl r (a +:+ rest) = true.
Proof.
  intros Hm. unfold test, search.
  destruct (searchFrom_finds fl r rest a Hm None 0) as [m ->]. reflexivity.
Qed.

Lemma repGreedy_final p : forall rest prev n g,
  exists o, repGreedy p 0 prev rest n g (fun _ _ n' g' => Some (n', g')) = Some o.
Proof.
  induction rest as [|x rest IH]; intros prev n g; cbn [repGreedy].
  - eexists. reflexivity.
  - destruct (p x); [|eexists; reflexivity].
    destruct (IH (Some x) (S n) g) as [o Ho]. cbn [Nat.pred]. rewrite Ho.
    eexists. reflexivity.
Qed.

Lemma word_not_space c : isWord c = true -> isWhiteSpace c = false.
Proof.
  intros Hc.
  assert (H : forallAscii (fun c => implb (isWord c) (negb (isWhiteSpace c)))
              = true) by (vm_compute; reflexivity).
  apply negb_true_iff. apply (implb_elim _ _ (forallAscii_spec _ H c) Hc).
Qed.

Lemma kotlin_first content :
  test noFlags kotlinPattern content = true ->
  detectLanguage content = Some "kotlin".
Proof.
  intros H. unfold detectLanguage, languages. cbn [list_find].
  cbn [fst snd]. fold kotlinPattern.
  rewrite decide_True by exact H. reflexivity.
Qed.

Lemma package_matches ws b prev :
  isWhiteSpace ws = true ->
  exists o, execAt noFlags kotlinPattern prev ("package" +:+ String ws b) = Some o.
Proof.
  intros Hws. unfold execAt, kotlinPattern. cbv [append].
  cbn [alts seqs lit run charMatches ignoreCase noFlags ws1 repGreedy Nat.pred].
  cbn [ascii_eqb Ascii.eqb Bool.eqb]. rewrite Hws.
  destruct (repGreedy_final isWhiteSpace b (Some ws) 8 None) as [o ->].
  eexists. reflexivity.
Qed.

Lemma fun_matches ws b prev :
  isWhiteSpace ws = true ->
  exists o, execAt noFlags kotlinPattern prev ("fun" +:+ String ws b) = Some o.
Proof.
  intros Hws. unfold execAt, kotlinPattern. cbv [append].
  cbn [alts seqs lit run charMatches ignoreCase noFlags ws1 repGreedy Nat.pred
       orElse].
  cbn [ascii_eqb Ascii.eqb Bool.eqb orElse]. rewrite Hws.
  destruct (repGreedy_final isWhiteSpace b (Some ws) 4 None) as [o ->].
  eexists. reflexivity.
Qed.

Lemma class_matches ws w b prev :
  isWhiteSpace ws = true -> isWord w = true ->
  exists o, execAt noFlags kotlinPattern prev
              ("class" +:+ String ws (String w b)) = Some o.
Proof.
  intros Hws Hw. unfold execAt, kotlinPattern. cbv [append].
  cbn [alts seqs lit run charMatches ignoreCase noFlags ws1 word1 repGreedy
       Nat.pred orElse].
  cbn [ascii_eqb Ascii.eqb Bool.eqb orElse].
  rewrite Hws, (word_not_space _ Hw), Hw.
  destruct (repGreedy_final isWord b (Some w) 7 None) as [o ->].
  eexists. reflexivity.
Qed.

(** X22. The pattern of kotlin is tried first and asks little: a text
    in which [package] or [fun] is followed by white space, or [class]
    by white space and a word character, is detected as kotlin whatever
    else it holds.  So a Java source with a package declaration is
    kotlin for the extractor; the later patterns and the checks after
    the loop are reached only by texts without these words. *)
Theorem kotlin_comes_first a b ws :
  isWhiteSpace ws = true ->
  detectLanguage (a +:+ "package" +:+ String ws b) = Some "kotlin"
  /\ detectLanguage (a +:+ "fun" +:+ String ws b) = Some "kotlin"
  /\ (forall w, isWord w = true ->
        detectLanguage (a +:+ "class" +:+ String ws (String w b))
        = Some "kotlin").
Proof.
  intros Hws. split; [|split; [|intros w Hw]];
    apply kotlin_first, test_finds; intros prev.
  - apply package_matches, Hws.
  - apply fun_matches, Hws.
  - apply class_matches; assumption.
Qed.

(** *** The theorem at a concrete input *)

Lemma kotlin_comes_first_witness :
  detectLanguage ("// Main.java" +:+ "package" +:+ String " " "com.example;")
  = Some "kotlin"
  /\ detectLanguage ("// Main.java" +:+ "fun" +:+ String " " "com.example;")
     = Some "kotlin"
  /\ (forall w, isWord w = true ->
        detectLanguage
          ("// Main.java" +:+ "class" +:+ String " " (String w "com.example;"))
        = Some "kotlin").
Proof.
  apply (kotlin_comes_first "// Main.java" "com.example;" " "). reflexivity.
Defined.

End DetectLaws.

Module CleanLaws.
Import Str RegExp Method CodeExtractor Spec ExtractorNotions MatcherNotions
       CharNotions LanguageNotions CleanNotions.
Import ExtractorProofs LoadLaws SplitLaws ExtractorLaws MatcherLaws
       NameLaws LanguageLaws DetectLaws.
Local Open Scope nat_scope.

(** *** cleanCode on a fenced block *)

(** Without the flag [m], a pattern that begins with [^] matches at
    the start of the text or nowhere. *)
Lemma search_anchored fl r rest : forall c i,
  multiline fl = false ->
  searchFrom fl (Seq Bol r) (Some c) rest i = None.
Proof.
  induction rest as [|x rest IH]; intros c i Hm; cbn [searchFrom];
    unfold execAt; cbn [run atLineStart]; rewrite Hm; cbn [andb];
    [reflexivity | apply IH, Hm].
Qed.

Lemma search_anchored_start fl r s :
  multiline fl = false ->
  search fl (Seq Bol r) s
  = match execAt fl (Seq Bol r) None s with
    | Some o => Some (mkMatch 0 s o)
    | None => None
    end.
Proof.
  intros Hm. unfold search. rewrite searchFrom_eq.
  destruct (execAt fl (Seq Bol r) None s); [reflexivity|].
  destruct s as [|x s']; [reflexivity | apply search_anchored, Hm].
Qed.

Lemma greedy_then_lf w : every isWord w = true ->
  forall prev rest n g,
    repGreedy isWord 0 prev (w +:+ String LF rest) n g
      (fun p r n' g' =>
         run noFlags (Chr LF) p r n' g' (fun _ _ n'' g'' => Some (n'', g'')))
    = Some (n + len w + 1, g).
Proof.
  induction w as [|x w IH]; intros Hw prev rest n g.
  - change ("" +:+ String LF rest) with (String LF rest).
    cbn [repGreedy run]. replace (isWord LF) with false by reflexivity.
    replace (charMatches noFlags LF LF) with true by reflexivity.
    f_equal. f_equal. simpl. lia.
  - simpl in Hw. apply andb_true_iff in Hw as [Hx Hw].
    rewrite app_cons. cbn [repGreedy Nat.pred]. rewrite Hx.
    rewrite (IH Hw). cbn [orElse]. f_equal. f_equal. simpl. lia.
Qed.

Lemma marker_absent tag rest :
  replaceFirst flagI languageMarkers ("```" +:+ tag +:+ rest) ""
  = "```" +:+ tag +:+ rest.
Proof.
  unfold replaceFirst, languageMarkers.
  cbn [seqs]. rewrite search_anchored_start by reflexivity.
  cbv [append]. reflexivity.
Qed.

Lemma fenceOpen_removed tag rest :
  every isWord tag = true ->
  replaceFirst noFlags fenceOpen ("```" +:+ tag +:+ nl +:+ rest) "" = rest.
Proof.
  intros Htag. unfold replaceFirst, fenceOpen. cbn [seqs].
  rewrite search_anchored_start by reflexivity.
  assert (He : execAt noFlags
                 (Seq Bol (Seq (lit "```") (Seq (Rep isWord 0 true) (Chr LF))))
                 None ("```" +:+ tag +:+ nl +:+ rest)
               = Some (3 + len tag + 1, None)).
  { unfold execAt.
    change ("```" +:+ tag +:+ nl +:+ rest)
      with (String "`" (String "`" (String "`" (tag +:+ String LF rest)))).
    cbn [run lit atLineStart charMatches ignoreCase noFlags].
    replace (ascii_eqb "`" "`") with true by reflexivity. cbv iota.
    rewrite (greedy_then_lf tag Htag). reflexivity. }
  rewrite He. unfold mkMatch. cbn [fst snd splice index text].
  set (p := "```" +:+ tag +:+ nl).
  assert (Hp : "```" +:+ tag +:+ nl +:+ rest = p +:+ rest).
  { subst p. rewrite !string_app_assoc. reflexivity. }
  assert (Hl : 3 + len tag + 1 = len p).
  { subst p. rewrite !len_app. simpl. lia. }
  rewrite Hp, Hl, take_app_len. cbn [Nat.sub take Nat.add].
  unfold substitute. cbn [expand]. rewrite drop_app_len. reflexivity.
Qed.

Lemma fenceClose_exact prev s o :
  execAt noFlags fenceClose prev s = Some o ->
  s = nl +:+ "```" /\ o = (4, None).
Proof.
  unfold execAt, fenceClose. cbn [seqs lit run]. unfold charMatches.
  cbn [ignoreCase noFlags].
  destruct s as [|c1 s]; [discriminate|].
  destruct (ascii_eqb LF c1) eqn:H1; [|discriminate].
  destruct s as [|c2 s]; [discriminate|].
  destruct (ascii_eqb "`" c2) eqn:H2; [|discriminate].
  destruct s as [|c3 s]; [discriminate|].
  destruct (ascii_eqb "`" c3) eqn:H3; [|discriminate].
  destruct s as [|c4 s]; [discriminate|].
  destruct (ascii_eqb "`" c4) eqn:H4; [|discriminate].
  destruct s as [|c5 s]; cbn [atLineEnd multiline noFlags andb];
    [|discriminate].
  apply Ascii.eqb_eq in H1, H2, H3, H4. subst. intros H.
  inversion H. split; reflexivity.
Qed.

Lemma fenceClose_found body : forall prev i,
  searchFrom noFlags fenceClose prev (body +:+ nl +:+ "```") i
  = Some {| index := i + len body; text := nl +:+ "```"; group1 := None |}.
Proof.
  induction body as [|x body IH]; intros prev i.
  - change ("" +:+ nl +:+ "```") with (nl +:+ "```").
    rewrite searchFrom_eq.
    replace (execAt noFlags fenceClose prev (nl +:+ "```"))
      with (Some (4, @None (nat * nat))) by reflexivity.
    unfold mkMatch. cbn [fst snd]. simpl len. rewrite Nat.add_0_r.
    reflexivity.
  - rewrite app_cons. cbn [searchFrom].
    destruct (execAt noFlags fenceClose prev
                (String x (body +:+ nl +:+ "```"))) as [o|] eqn:He.
    + apply fenceClose_exact in He as [Hs _]. exfalso.
      apply (f_equal len) in Hs. rewrite <- app_cons, !len_app in Hs.
      simpl in Hs. lia.
    + rewrite IH. simpl len. f_equal. f_equal. lia.
Qed.

Lemma fenceClose_removed body :
  replaceFirst noFlags fenceClose (body +:+ nl +:+ "```") "" = body.
Proof.
  unfold replaceFirst, search. rewrite fenceClose_found.
  cbn [splice index text Nat.add Nat.sub]. rewrite Nat.sub_0_r.
  rewrite take_app_len. unfold substitute. cbn [expand].
  replace (len body + len (nl +:+ "```")) with (len (body +:+ nl +:+ "```"))
    by (rewrite !len_app; reflexivity).
  assert (Hd : forall s, drop (len s) s = "")
    by (intros s; induction s; [reflexivity | assumption]).
  rewrite Hd, app_nil_r_str. reflexivity.
Qed.

(** X23. [cleanCode] unwraps a fenced block: for a text made of an
    opening fence with a tag of word characters (or no tag), a body and
    a closing fence, it returns the body, trimmed, whatever the body
    holds, fences included. *)
Theorem cleanCode_unwraps_fence tag body :
  every isWord tag = true ->
  cleanCode (fenced tag body) = trim body.
Proof.
  intros Htag. unfold cleanCode, fenced.
  rewrite marker_absent, (fenceOpen_removed tag _ Htag), fenceClose_removed.
  reflexivity.
Qed.

(** *** The suggested structure *)

Lemma placeFile_counts st f :
  let st' := placeFile st f in
  length (s_root st') + length (s_src st') + length (s_assets st')
  + length (s_config st')
  = S (length (s_root st) + length (s_src st) + length (s_assets st)
       + length (s_config st))
  /\ s_src st' = s_src st ++ (if isSourceCode f then [fileName f] else []).
Proof.
  unfold placeFile, isSourceCode. cbv zeta.
  destruct (inList (extension f) ["kt"; "java"]) eqn:H1.
  - cbn [s_root s_src s_assets s_config]. rewrite length_app. simpl. split; [lia | reflexivity].
  - destruct (inList (extension f) ["xml"]).
    + destruct (includes (fileName f) "layout");
        cbn [s_root s_src s_assets s_config]; rewrite length_app, app_nil_r;
        simpl; split; (lia || reflexivity).
    + destruct (inList (extension f) ["gradle"; "json"; "properties"]);
        [|destruct (inList (extension f) ["html"; "css"; "js"])];
        cbn [s_root s_src s_assets s_config]; rewrite length_app, app_nil_r;
        simpl; split; (lia || reflexivity).
Qed.

(** X24. [generateProjectStructure] places every file once: the four
    lists [root], [src], [assets] and [config] hold together as many
    entries as there are files, and [src] holds the names of the kt and
    java files, in their order. *)
Theorem structure_places_every_file files :
  let st := generateProjectStructure files in
  length (s_root st) + length (s_src st) + length (s_assets st)
  + length (s_config st) = length files
  /\ s_src st = map fileName (List.filter isSourceCode files).
Proof.
  unfold generateProjectStructure. cbv zeta.
  assert (H : forall fs st,
    let st' := fold_left placeFile fs st in
    length (s_root st') + length (s_src st') + length (s_assets st')
    + length (s_config st')
    = length fs + (length (s_root st) + length (s_src st)
                   + length (s_assets st) + length (s_config st))
    /\ s_src st' = s_src st ++ map fileName (List.filter isSourceCode fs)).
  { induction fs as [|f fs IH]; intros st; cbn [fold_left].
    - cbv zeta. simpl. rewrite app_nil_r. split; reflexivity.
    - cbv zeta. destruct (IH (placeFile st f)) as [Hc Hs].
      destruct (placeFile_counts st f) as [Hc1 Hs1].
      cbv zeta in Hc, Hs. split.
      + rewrite Hc, Hc1. simpl. lia.
      + rewrite Hs, Hs1. cbn [List.filter].
        destruct (isSourceCode f); cbn [map];
          rewrite <- app_assoc; reflexivity. }
  destruct (H files {| s_root := []; s_src := []; s_assets := [];
                       s_config := [] |}) as [Hc Hs].
  cbv zeta in Hc, Hs. cbn [s_root s_src s_assets s_config length] in Hc, Hs.
  split; [rewrite Hc; lia | exact Hs].
Qed.

(** *** The theorem at a concrete input *)

Lemma cleanCode_unwraps_fence_witness :
  cleanCode (fenced "kotlin" ("class A" +:+ nl +:+ "```" +:+ nl +:+ "x"))
  = trim ("class A" +:+ nl +:+ "```" +:+ nl +:+ "x").
Proof.
  apply (cleanCode_unwraps_fence "kotlin"). reflexivity.
Defined.

End CleanLaws.

Module ExportLaws.
Import Str RegExp Method CodeExtractor Spec ExtractorNotions MatcherNotions
       CharNotions LanguageNotions Exports.
Import ExtractorProofs LoadLaws SplitLaws ExtractorLaws MatcherLaws
       NameLaws LanguageLaws.
Local Open Scope nat_scope.
Local Open Scope method_scope.

(** *** Splitting what was joined *)

Lemma splitChar_without c s : without c s = true -> splitChar c s = [s].
Proof.
  unfold without. induction s as [|x r IH]; [reflexivity|].
  simpl. intros H. apply andb_true_iff in H as [Hx Hr].
  apply negb_true_iff in Hx. rewrite Hx, (IH Hr). reflexivity.
Qed.

Lemma splitChar_sep c a : forall b,
  without c a = true ->
  splitChar c (a +:+ String c b) = a :: splitChar c b.
Proof.
  unfold without. induction a as [|x r IH]; intros b H.
  - change ("" +:+ String c b) with (String c b). cbn [splitChar].
    unfold ascii_eqb. rewrite Ascii.eqb_refl. reflexivity.
  - simpl in H. apply andb_true_iff in H as [Hx Hr].
    apply negb_true_iff in Hx.
    rewrite app_cons. cbn [splitChar]. rewrite Hx, (IH b Hr). reflexivity.
Qed.

Lemma join_two sep x y rest :
  join sep (x :: y :: rest) = x +:+ sep +:+ join sep (y :: rest).
Proof. reflexivity. Qed.

Lemma splitChar_join c xs :
  xs <> [] -> Forall (fun x => without c x = true) xs ->
  splitChar c (join (String c "") xs) = xs.
Proof.
  induction xs as [|x xs IH]; [congruence|]. intros _ H.
  inversion H as [|? ? Hx Hxs]; subst.
  destruct xs as [|y rest].
  - apply splitChar_without, Hx.
  - rewrite join_two.
    change (x +:+ String c "" +:+ join (String c "") (y :: rest))
      with (x +:+ String c (join (String c "") (y :: rest))).
    rewrite (splitChar_sep c x _ Hx), IH; [reflexivity | discriminate | exact Hxs].
Qed.

Lemma every_join P sep xs :
  every P sep = true -> Forall (fun x => every P x = true) xs ->
  every P (join sep xs) = true.
Proof.
  intros Hsep. induction xs as [|x xs IH]; [reflexivity|]. intros H.
  inversion H as [|? ? Hx Hxs]; subst.
  destruct xs as [|y rest]; [exact Hx|].
  rewrite join_two, !every_app, Hx, Hsep, (IH Hxs). reflexivity.
Qed.

(** *** The fields are plain *)

Lemma plain_of P s :
  (forall x, P x = true -> negb (ascii_eqb x ",") && negb (ascii_eqb x LF) = true) ->
  every P s = true -> plainField s = true.
Proof.
  intros HP Hs. unfold plainField, without. apply andb_true_iff. split;
    (eapply every_impl; [|exact Hs]); intros x Hx;
    specialize (HP x Hx); apply andb_true_iff in HP as [H1 H2]; assumption.
Qed.

Lemma name_plain x :
  isNameChar x = true -> negb (ascii_eqb x ",") && negb (ascii_eqb x LF) = true.
Proof.
  intros Hx.
  assert (H : forallAscii (fun c =>
                implb (isNameChar c)
                      (negb (ascii_eqb c ",") && negb (ascii_eqb c LF))) = true)
    by (vm_compute; reflexivity).
  apply (implb_elim _ _ (forallAscii_spec _ H x) Hx).
Qed.

Lemma digit_plain x :
  isDigit x = true -> negb (ascii_eqb x ",") && negb (ascii_eqb x LF) = true.
Proof.
  intros Hx.
  assert (H : forallAscii (fun c =>
                implb (isDigit c)
                      (negb (ascii_eqb c ",") && negb (ascii_eqb c LF))) = true)
    by (vm_compute; reflexivity).
  apply (implb_elim _ _ (forallAscii_spec _ H x) Hx).
Qed.

Lemma digits_uint d : every isDigit (NilEmpty.string_of_uint d) = true.
Proof. induction d; simpl; try rewrite IHd; reflexivity. Qed.

Lemma ofNat_digits n : every isDigit (ofNat n) = true.
Proof.
  unfold ofNat, NilZero.string_of_uint.
  destruct (Nat.to_uint n) eqn:H; [reflexivity|..]; rewrite <- H;
    apply digits_uint.
Qed.

Lemma ofNat_plain n : plainField (ofNat n) = true.
Proof. eapply plain_of; [apply digit_plain | apply ofNat_digits]. Qed.

Lemma complexityName_plain c : plainField (complexityName c) = true.
Proof. destruct c; reflexivity. Qed.

Lemma every_pieces P c s :
  every P s = true -> Forall (fun w => every P w = true) (splitChar c s).
Proof.
  induction s as [|x r IH]; [repeat constructor|].
  simpl. intros H. apply andb_true_iff in H as [Hx Hr]. specialize (IH Hr).
  destruct (ascii_eqb x c); [constructor; [reflexivity | exact IH]|].
  destruct (splitChar c r) as [|w ws]; [repeat constructor; simpl; rewrite Hx; reflexivity|].
  inversion IH; subst. constructor; [simpl; rewrite Hx; assumption | assumption].
Qed.

Lemma last_pieces P (ws : list string) :
  Forall (fun w => every P w = true) ws ->
  every P (default "" (last ws)) = true.
Proof.
  induction ws as [|w ws IH]; [reflexivity|]. intros H.
  inversion H; subst. destruct ws as [|w' ws']; [assumption|].
  apply IH. assumption.
Qed.

Lemma extension_name n :
  every isNameChar n = true -> every isNameChar (getFileExtension n) = true.
Proof.
  intros Hn. unfold getFileExtension.
  destruct (includes n "."); [|reflexivity].
  apply every_lower, last_pieces, every_pieces, Hn.
Qed.

Lemma detected_values content l :
  detectLanguage content = Some l ->
  In l (map fst languages ++ ["xml"; "html"; "json"; "javascript"]).
Proof.
  unfold detectLanguage.
  destruct (list_find _ languages) as [[i [l' p]]|] eqn:Hf.
  - intros H. inversion H; subst. apply list_find_Some in Hf as (Hi & _ & _).
    apply in_or_app. left. apply list_elem_of_In.
    apply list_elem_of_lookup_2 in Hi.
    apply (list_elem_of_fmap_2 fst) in Hi. exact Hi.
  - intros H. apply in_or_app. right.
    destruct (includes content "<?xml"); [inversion H; simpl; tauto|].
    destruct (includes content "<!DOCTYPE" || includes content "<html");
      [inversion H; simpl; tauto|].
    destruct (startsWith (trim content) "{" || startsWith (trim content) "[");
      [inversion H; simpl; tauto|].
    destruct (includes content "function " || includes content "=>");
      [inversion H; simpl; tauto | discriminate].
Qed.

Lemma languages_plain :
  Forall (fun l => plainField l = true)
         (map fst languages ++ ["xml"; "html"; "json"; "javascript"]).
Proof. repeat constructor. Qed.

Lemma detected_plain content :
  plainField (languageOr (detectLanguage content) "unknown") = true.
Proof.
  destruct (detectLanguage content) as [l|] eqn:Hd; [|reflexivity].
  pose proof languages_plain as Hall. rewrite Forall_forall in Hall.
  specialize (Hall l (proj2 (list_elem_of_In _ _) (detected_values _ _ Hd))).
  unfold languageOr. destruct (truthy l); [exact Hall | reflexivity].
Qed.

(** *** The rows of the records of an extraction *)

Lemma exportable_extracted options section r :
  extractedFrom options section r -> exportable r.
Proof.
  intros (_ & _ & Hlang & Hname & Hext & _ & _ & Hmeta).
  split; [exact Hmeta|].
  assert (Hsafe : every isNameChar (fileName r) = true).
  { rewrite Hname. apply buildFileName_safe, extractFileName_safe. }
  unfold fieldsOf. repeat constructor.
  - eapply plain_of; [apply name_plain | exact Hsafe].
  - rewrite Hext. eapply plain_of; [apply name_plain|].
    apply extension_name, Hsafe.
  - rewrite Hlang. destruct (autoDetectLanguage options);
      [apply detected_plain | reflexivity].
  - apply ofNat_plain.
  - apply ofNat_plain.
  - apply complexityName_plain.
Qed.

Lemma exportable_manifest m : isManifest m -> exportable m.
Proof.
  intros (Hn & He & Hl & _ & _ & Hm). split; [exact Hm|].
  unfold fieldsOf. rewrite Hn, He, Hl.
  repeat constructor; try apply ofNat_plain; apply complexityName_plain.
Qed.

Lemma csvRows_exportable rs :
  Forall exportable rs -> csvRows rs = Ok (map fieldsOf rs).
Proof.
  induction rs as [|r rs IH]; [reflexivity|]. intros H.
  inversion H as [|? ? [Hm _] Hrs]; subst.
  cbn [csvRows map]. rewrite (IH Hrs). unfold csvRow, fieldsOf, fileComplexity.
  destruct (metadata r); [reflexivity | congruence].
Qed.

Lemma line_plain r :
  exportable r -> without LF (join "," (fieldsOf r)) = true.
Proof.
  intros [_ H]. unfold without. apply every_join; [reflexivity|].
  eapply Forall_impl; [exact H|]. intros f Hf. cbv beta in Hf.
  unfold plainField in Hf. apply andb_true_iff in Hf as [_ Hf]. exact Hf.
Qed.

Lemma line_fields r :
  exportable r -> splitChar "," (join "," (fieldsOf r)) = fieldsOf r.
Proof.
  intros [_ H]. apply (splitChar_join "," (fieldsOf r)); [discriminate|].
  eapply Forall_impl; [exact H|]. intros f Hf. cbv beta in Hf.
  unfold plainField in Hf. apply andb_true_iff in Hf as [Hf _]. exact Hf.
Qed.

Lemma exportToCsv_exportable s :
  Forall exportable (extractedFiles s) ->
  exists x,
    exportToCsv s = (Ok x, s)
    /\ x_filename x = "extracted-files.csv"
    /\ splitChar LF (x_content x)
       = join "," csvHeaders :: map (join ",") (map fieldsOf (extractedFiles s))
    /\ Forall2 (fun r line => splitChar "," line = fieldsOf r)
               (extractedFiles s)
               (map (join ",") (map fieldsOf (extractedFiles s))).
Proof.
  intros H. unfold exportToCsv, bind, get, lift, ret.
  rewrite (csvRows_exportable _ H). eexists. split; [reflexivity|].
  cbn [x_filename x_content]. split; [reflexivity|]. split.
  - apply (splitChar_join LF); [discriminate|]. constructor; [reflexivity|].
    induction H as [|r rs Hr Hrs IH]; [constructor|].
    cbn [map]. constructor; [apply line_plain, Hr | exact IH].
  - induction H as [|r rs Hr Hrs IH]; [constructor|].
    cbn [map]. constructor; [apply line_fields, Hr | exact IH].
Qed.

(** X25. The CSV export of an extraction can be read back without any
    quoting: after [extractFiles], [exportToCsv] does not throw, and its
    content, split at the line feeds, is the line of the column names
    followed by one line for each record, the manifest included; each
    line, split at the commas, gives back the six fields of its record.
    No field holds a comma or a line feed, since the names are made of
    safe characters and the languages come from a fixed list. *)
Theorem csv_export_reads_back E input options this :
  findHeaders input <> [] ->
  exists rs s' x lines,
    extractFiles E input options this = (Ok rs, s')
    /\ exportToCsv s' = (Ok x, s')
    /\ splitChar LF (x_content x) = join "," csvHeaders :: lines
    /\ splitChar "," (join "," csvHeaders) = csvHeaders
    /\ Forall2 (fun r line => splitChar "," line = fieldsOf r) rs lines.
Proof.
  intros Hh.
  destruct (extractFiles_run E input options this Hh)
    as (rs & tail & s' & H1 & H2 & H3 & H4 & H5 & _).
  assert (Hall : Forall exportable (extractedFiles s')).
  { rewrite H2. apply Forall_app. split.
    - clear H1 H2 H4 H5. revert H3.
      generalize (filled input (findHeaders input)) as secs.
      induction rs as [|r rs IH]; intros secs H3; [constructor|].
      inversion H3 as [|sec ? ? ? Hrec Hrest]; subst. constructor.
      + eapply exportable_extracted, Hrec.
      + eapply IH, Hrest.
    - destruct (generateConfig options) eqn:Hg.
      + destruct rs as [|r rs'].
        * rewrite (H5 (or_intror eq_refl)). constructor.
        * destruct (H4 eq_refl) as (m & -> & Hm); [discriminate|].
          constructor; [apply exportable_manifest, Hm | constructor].
      + rewrite (H5 (or_introl eq_refl)). constructor. }
  destruct (exportToCsv_exportable s' Hall) as (x & Hx & _ & Hlines & Hrows).
  exists (rs ++ tail), s', x,
    (map (join ",") (map fieldsOf (extractedFiles s'))).
  split; [exact H1|]. split; [exact Hx|]. split; [exact Hlines|].
  split; [reflexivity|]. rewrite <- H2. exact Hrows.
Qed.

(** *** The theorem at a concrete input *)

Lemma csv_export_reads_back_witness :
  exists rs s' x lines,
    extractFiles Platform.sampleEnv Samples.sampleText defaultOptions
                 newExtractor
    = (Ok rs, s')
    /\ exportToCsv s' = (Ok x, s')
    /\ splitChar LF (x_content x) = join "," csvHeaders :: lines
    /\ splitChar "," (join "," csvHeaders) = csvHeaders
    /\ Forall2 (fun r line => splitChar "," line = fieldsOf r) rs lines.
Proof.
  apply (csv_export_reads_back Platform.sampleEnv Samples.sampleText
           defaultOptions newExtractor).
  vm_compute. discriminate.
Defined.

End ExportLaws.

Module NumberedTextLaws.
Import Str RegExp Method CodeExtractor Spec MatcherNotions NumberedText.
Import ExtractorProofs SplitLaws MatcherLaws.
Local Open Scope nat_scope.

(** *** One attempt of the header pattern *)

(** A continuation that fails unless the text goes on with a period. *)
Lemma period_needed (k : Cont) s :
  (forall p c r n g, ascii_eqb c "." = false -> k p (String c r) n g = None) ->
  (forall p n g, k p "" n g = None) ->
  forall prev n g,
    periodAfterDigits s = false -> repGreedy isDigit 0 prev s n g k = None.
Proof.
  intros Hk Hk0. induction s as [|c r IH]; intros prev n g H; cbn [repGreedy].
  - apply Hk0.
  - cbn [periodAfterDigits] in H. apply orb_false_iff in H as [Hdot Hrest].
    destruct (isDigit c) eqn:Hd.
    + cbn [andb] in Hrest. rewrite (IH _ _ _ Hrest). cbn [orElse Nat.pred].
      apply Hk, Hdot.
    + apply Hk, Hdot.
Qed.

Lemma exec_none prev s :
  atLineStart flagM prev = false \/ startsNumbered s = false ->
  execAt flagM numbered prev s = None.
Proof.
  intros H. unfold execAt, numbered. cbn [seqs run].
  destruct (atLineStart flagM prev) eqn:Hp; [|reflexivity].
  destruct H as [H|H]; [discriminate|].
  destruct s as [|c r]; [reflexivity|]. cbn [repGreedy].
  cbn [startsNumbered] in H.
  destruct (isDigit c) eqn:Hd; [|reflexivity].
  cbn [andb] in H. cbn [Nat.pred].
  rewrite period_needed; [reflexivity | | | exact H].
  - intros p c' r' n g Hc. unfold charMatches. cbn [ignoreCase flagM].
    unfold ascii_eqb in *. rewrite Ascii.eqb_sym, Hc. reflexivity.
  - reflexivity.
Qed.

(** A greedy repetition takes every character of [w] when the text
    goes on with a character outside the class and the rest of the
    pattern matches there. *)
Lemma greedy_all p (k : Cont) rest o w : forall min prev n g,
  every p w = true -> min <= len w ->
  startsWithChar p rest = false ->
  k (lastOr prev w) rest (n + len w) g = Some o ->
  repGreedy p min prev (w +:+ rest) n g k = Some o.
Proof.
  induction w as [|c w IH]; intros min prev n g Hw Hmin Hrest Hk.
  - change ("" +:+ rest) with rest. simpl in Hmin, Hk.
    rewrite Nat.add_0_r in Hk.
    destruct min; [|lia]. destruct rest as [|x r]; cbn [repGreedy].
    + exact Hk.
    + simpl in Hrest. rewrite Hrest. exact Hk.
  - rewrite app_cons. cbn [repGreedy]. simpl in Hw.
    apply andb_true_iff in Hw as [Hc Hw]. rewrite Hc.
    rewrite (IH (Nat.pred min) (Some c) (S n) g Hw); [reflexivity | | exact Hrest |].
    + simpl in Hmin. lia.
    + simpl in Hk. replace (S n + len w) with (n + S (len w)) by lia. exact Hk.
Qed.

(** A lazy repetition of [.] before [$] runs to the end of the line. *)
Lemma lazy_line (k : Cont) rest w : forall min prev n g,
  (forall p c r n' g', isLineTerminator c = false ->
     k p (String c r) n' g' = None) ->
  every isDot w = true -> min <= len w ->
  repLazy isDot min prev (w +:+ String LF rest) n g k
  = k (lastOr prev w) (String LF rest) (n + len w) g.
Proof.
  intros min prev n g Hk. revert min prev n g.
  induction w as [|c w IH]; intros min prev n g Hw Hmin.
  - change ("" +:+ String LF rest) with (String LF rest). simpl in Hmin.
    destruct min; [|lia]. cbn [repLazy lastOr len String.length].
    rewrite Nat.add_0_r. replace (isDot LF) with false by reflexivity.
    destruct (k prev (String LF rest) n g); reflexivity.
  - rewrite app_cons. simpl in Hw. apply andb_true_iff in Hw as [Hc Hw].
    assert (Hmore : repLazy isDot (Nat.pred min) (Some c)
                      (w +:+ String LF rest) (S n) g k
                    = k (lastOr prev (String c w)) (String LF rest)
                        (n + len (String c w)) g).
    { rewrite IH; [|exact Hw | simpl in Hmin; lia]. cbn [lastOr]. simpl len.
      replace (S n + len w) with (n + S (len w)) by (unfold len; lia).
      reflexivity. }
    cbn [repLazy]. rewrite Hc.
    destruct min as [|m]; [|exact Hmore].
    rewrite Hk; [exact Hmore|].
    unfold isDot in Hc. apply negb_true_iff in Hc. exact Hc.
Qed.

Lemma blank_is_space c : isBlank c = true -> isWhiteSpace c = true.
Proof. unfold isBlank. intros H. apply andb_true_iff in H as [H _]. exact H. Qed.

(** The header pattern matches a header line that starts a line, up
    to the end of the line; capture 1 is the title. *)
Lemma exec_header number gap title rest prev :
  atLineStart flagM prev = true ->
  negb (isEmpty number) = true -> every isDigit number = true ->
  every isBlank gap = true ->
  startsWithChar (fun c => negb (isWhiteSpace c)) title = true ->
  every isDot title = true ->
  execAt flagM numbered prev
    (number +:+ "." +:+ gap +:+ title +:+ String LF rest)
  = Some (len number + 1 + len gap + len title,
          Some (len number + 1 + len gap, len title)).
Proof.
  intros Hp Hne Hnum Hgap Hstart Htitle.
  assert (Hlen : 1 <= len number) by (destruct number; [discriminate | simpl; lia]).
  assert (Htl : 1 <= len title) by (destruct title; [discriminate | simpl; lia]).
  unfold execAt, numbered. cbn [seqs run]. rewrite Hp.
  apply greedy_all; [exact Hnum | exact Hlen | reflexivity |].
  change ("." +:+ gap +:+ title +:+ String LF rest)
    with (String "." (gap +:+ title +:+ String LF rest)).
  unfold charMatches. cbn [ignoreCase flagM].
  replace (ascii_eqb "." ".") with true by reflexivity.
  apply greedy_all.
  - eapply every_impl; [|exact Hgap]. apply blank_is_space.
  - lia.
  - destruct title as [|c t]; [discriminate|]. rewrite app_cons.
    simpl in Hstart. apply negb_true_iff in Hstart. exact Hstart.
  - rewrite lazy_line; [| |exact Htitle | exact Htl].
    + cbn [atLineEnd multiline flagM andb].
      replace (isLineTerminator LF) with true by reflexivity.
      repeat f_equal; lia.
    + intros p c r n' g' Hc. cbn [atLineEnd multiline flagM andb].
      rewrite Hc. reflexivity.
Qed.

(** *** The scan of the text *)

Lemma period_before_lf s rest :
  periodAfterDigits (s +:+ String LF rest) = periodAfterDigits s.
Proof.
  induction s as [|c r IH]; [reflexivity|].
  rewrite app_cons. cbn [periodAfterDigits]. rewrite IH. reflexivity.
Qed.

Lemma numbered_before_lf s rest :
  startsNumbered (s +:+ String LF rest) = startsNumbered s.
Proof.
  destruct s as [|c r]; [reflexivity|].
  rewrite app_cons. cbn [startsNumbered]. rewrite period_before_lf.
  reflexivity.
Qed.

(** Over lines that do not start with an integer and a period the scan
    finds nothing. *)
Lemma scan_quiet rest q : forall b prev i,
  (atLineStart flagM prev = true -> b = true) ->
  numberedLine b q = false ->
  scan flagM numbered prev (q +:+ String LF rest) i 0
  = scan flagM numbered (Some LF) rest (i + len q + 1) 0.
Proof.
  induction q as [|c q IH]; intros b prev i Hb Hq.
  - change ("" +:+ String LF rest) with (String LF rest). cbn [scan].
    rewrite exec_none by (right; reflexivity).
    simpl len. replace (i + 0 + 1) with (S i) by lia. reflexivity.
  - rewrite app_cons. cbn [scan]. cbn [numberedLine] in Hq.
    apply orb_false_iff in Hq as [Hhere Hq].
    rewrite exec_none.
    + rewrite (IH (isLineTerminator c) (Some c) (S i)); [| |exact Hq].
      * simpl len. f_equal. lia.
      * cbn [atLineStart multiline flagM andb]. intros H. exact H.
    + destruct (atLineStart flagM prev) eqn:Hp; [|left; reflexivity].
      right. rewrite (Hb eq_refl) in Hhere. cbn [andb] in Hhere.
      rewrite <- app_cons, numbered_before_lf. exact Hhere.
Qed.

(** The scan steps over the characters that a match covers. *)
Lemma scan_skip fl r rest w : forall prev i,
  scan fl r prev (w +:+ rest) i (len w)
  = scan fl r (lastOr prev w) rest (i + len w) 0.
Proof.
  induction w as [|c w IH]; intros prev i.
  - change ("" +:+ rest) with rest. simpl. rewrite Nat.add_0_r. reflexivity.
  - rewrite app_cons. simpl len. cbn [scan lastOr]. rewrite IH.
    f_equal. lia.
Qed.

Lemma lastOr_app prev a b : lastOr prev (a +:+ b) = lastOr (lastOr prev a) b.
Proof.
  revert prev. induction a as [|c a IH]; intros prev; [reflexivity|].
  rewrite app_cons. cbn [lastOr]. apply IH.
Qed.

Lemma lastOr_line prev w :
  w <> "" -> every isDot w = true ->
  atLineStart flagM (lastOr prev w) = false.
Proof.
  revert prev. induction w as [|c w IH]; intros prev Hne Hw; [congruence|].
  simpl in Hw. apply andb_true_iff in Hw as [Hc Hw]. cbn [lastOr].
  destruct w as [|c' w'].
  - cbn [lastOr atLineStart multiline flagM andb].
    unfold isDot in Hc. apply negb_true_iff in Hc. exact Hc.
  - apply IH; [discriminate | exact Hw].
Qed.

Lemma wellFormed_parts s :
  wellFormed s = true ->
  sec_indent s = ""
  /\ negb (isEmpty (sec_number s)) = true
  /\ every isDigit (sec_number s) = true
  /\ every isBlank (sec_gap s) = true
  /\ startsWithChar (fun c => negb (isWhiteSpace c)) (sec_title s) = true
  /\ every isDot (sec_title s) = true
  /\ hasInk (sec_body s) = true
  /\ numberedLine true (sec_body s) = false.
Proof.
  unfold wellFormed. intros H.
  repeat (apply andb_true_iff in H as [H ?]).
  repeat split; try assumption.
  - destruct (sec_indent s); [reflexivity | discriminate].
  - apply negb_true_iff. assumption.
Qed.

(** The scan at a header line: one match, and the scan goes on after
    the line. *)
Lemma scan_header number gap title tail prev i :
  atLineStart flagM prev = true ->
  negb (isEmpty number) = true -> every isDigit number = true ->
  every isBlank gap = true ->
  startsWithChar (fun c => negb (isWhiteSpace c)) title = true ->
  every isDot title = true ->
  let line := number +:+ "." +:+ gap +:+ title in
  scan flagM numbered prev (line +:+ String LF tail) i 0
  = {| index := i; text := line; group1 := Some title |}
    :: scan flagM numbered (lastOr prev line) (String LF tail) (i + len line) 0.
Proof.
  intros Hp Hne Hnum Hgap Hstart Htitle line.
  pose proof (exec_header number gap title tail prev
                Hp Hne Hnum Hgap Hstart Htitle) as Hexec.
  assert (Htext : number +:+ "." +:+ gap +:+ title +:+ String LF tail
                  = line +:+ String LF tail).
  { subst line. rewrite !string_app_assoc. reflexivity. }
  assert (Hll : len number + 1 + len gap + len title = len line).
  { subst line. rewrite !len_app. simpl. lia. }
  assert (Hdrop : drop (len number + 1 + len gap) (line +:+ String LF tail)
                  = title +:+ String LF tail).
  { rewrite <- Htext.
    replace (len number + 1 + len gap)
      with (len ((number +:+ ".") +:+ gap)) by (rewrite !len_app; simpl; lia).
    rewrite <- (string_app_assoc number "." _).
    rewrite <- (string_app_assoc (number +:+ ".") gap _).
    apply drop_app_len. }
  rewrite Htext, Hll in Hexec. clearbody line.
  destruct line as [|c l].
  { unfold len in Hll. simpl in Hll. lia. }
  rewrite app_cons in *. cbn [scan]. rewrite Hexec. cbn [fst]. f_equal.
  - unfold mkMatch. cbn [fst snd]. f_equal.
    + rewrite <- app_cons. apply take_app_len.
    + rewrite Hdrop. f_equal. apply take_app_len.
  - change (len (String c l)) with (S (len l)).
    cbn [Nat.pred lastOr]. rewrite scan_skip.
    replace (i + S (len l)) with (S i + len l) by lia. reflexivity.
Qed.

(** Over lines that do not start with an integer and a period, up to
    the end of the text, the scan finds nothing. *)
Lemma scan_quiet_end q : forall b prev i,
  (atLineStart flagM prev = true -> b = true) ->
  numberedLine b q = false ->
  scan flagM numbered prev q i 0 = [].
Proof.
  induction q as [|c q IH]; intros b prev i Hb Hq.
  - cbn [scan]. rewrite exec_none by (right; reflexivity). reflexivity.
  - cbn [scan]. cbn [numberedLine] in Hq.
    apply orb_false_iff in Hq as [Hhere Hq].
    rewrite exec_none.
    + apply (IH (isLineTerminator c)); [|exact Hq].
      cbn [atLineStart multiline flagM andb]. intros H. exact H.
    + destruct (atLineStart flagM prev) eqn:Hp; [|left; reflexivity].
      right. rewrite (Hb eq_refl) in Hhere. exact Hhere.
Qed.

Lemma header_end prev s :
  wellFormed s = true ->
  atLineStart flagM
    (lastOr prev (sec_number s +:+ "." +:+ sec_gap s +:+ sec_title s))
  = false.
Proof.
  intros Hs.
  destruct (wellFormed_parts s Hs) as (_ & _ & _ & _ & Hstart & Htitle & _).
  rewrite <- (string_app_assoc (sec_number s) "." _).
  rewrite <- (string_app_assoc (sec_number s +:+ ".") (sec_gap s) _).
  rewrite lastOr_app. apply lastOr_line; [|exact Htitle].
  destruct (sec_title s); discriminate.
Qed.

Lemma block_line s :
  sec_indent s = "" ->
  block s = (sec_number s +:+ "." +:+ sec_gap s +:+ sec_title s)
            +:+ String LF (sec_body s)
  /\ headerLine s = sec_number s +:+ "." +:+ sec_gap s +:+ sec_title s.
Proof.
  intros Hi. unfold block, headerLine. rewrite Hi.
  change ("" +:+ sec_number s +:+ "." +:+ sec_gap s +:+ sec_title s)
    with (sec_number s +:+ "." +:+ sec_gap s +:+ sec_title s).
  split; reflexivity.
Qed.

Lemma textOf_cons s s' rest :
  textOf (s :: s' :: rest) = block s +:+ nl +:+ textOf (s' :: rest).
Proof. reflexivity. Qed.

(** The matches of the header pattern in the text of well-formed
    sections are their header lines. *)
Lemma scan_sections secs : forall prev i,
  Forall (fun s => wellFormed s = true) secs ->
  atLineStart flagM prev = true ->
  scan flagM numbered prev (textOf secs) i 0 = matchesOf i secs.
Proof.
  induction secs as [|s secs IH]; intros prev i Hall Hp.
  - unfold textOf. cbn [map join scan].
    rewrite exec_none by (right; reflexivity). reflexivity.
  - inversion Hall as [|? ? Hs Hrest]; subst.
    destruct (wellFormed_parts s Hs)
      as (Hi & Hne & Hnum & Hgap & Hstart & Htitle & Hink & Hquiet).
    destruct (block_line s Hi) as [Hblock Hline].
    pose proof (header_end prev s Hs) as Hend.
    assert (Hbody : numberedLine false (String LF (sec_body s)) = false).
    { cbn [numberedLine andb orb].
      replace (isLineTerminator LF) with true by reflexivity. exact Hquiet. }
    cbn [matchesOf]. rewrite Hline.
    destruct secs as [|s' rest].
    + unfold textOf. cbn [map join]. rewrite Hblock.
      rewrite (scan_header (sec_number s) (sec_gap s) (sec_title s) _ prev i
                 Hp Hne Hnum Hgap Hstart Htitle).
      f_equal. apply (scan_quiet_end _ false); [|exact Hbody].
      intros H. congruence.
    + rewrite textOf_cons, Hblock, string_app_assoc.
      change (String LF (sec_body s) +:+ nl +:+ textOf (s' :: rest))
        with (String LF (sec_body s +:+ nl +:+ textOf (s' :: rest))).
      rewrite (scan_header (sec_number s) (sec_gap s) (sec_title s) _ prev i
                 Hp Hne Hnum Hgap Hstart Htitle).
      f_equal.
      change (String LF (sec_body s +:+ nl +:+ textOf (s' :: rest)))
        with (String LF (sec_body s) +:+ String LF (textOf (s' :: rest))).
      rewrite (scan_quiet _ (String LF (sec_body s)) false);
        [| intros H; congruence | exact Hbody].
      rewrite IH; [|exact Hrest | reflexivity]. f_equal.
      rewrite <- Hblock. rewrite len_app. simpl len.
      unfold block. rewrite Hline, !len_app. simpl. lia.
Qed.

(** *** Headers and sections *)

Lemma take_drop n : forall s, take n s +:+ drop n s = s.
Proof.
  induction n as [|n IH]; intros s; [reflexivity|].
  destruct s as [|c r]; [reflexivity|]. cbn [take drop].
  rewrite app_cons, IH. reflexivity.
Qed.

Lemma numberedLine_newline q : forall b,
  numberedLine b (q +:+ nl) = numberedLine b q.
Proof.
  induction q as [|c q IH]; intros b.
  - cbn. destruct b; reflexivity.
  - rewrite app_cons. cbn [numberedLine]. rewrite IH.
    rewrite <- app_cons. unfold nl. rewrite numbered_before_lf. reflexivity.
Qed.

(** The scan of a text with a preamble starts at the first header. *)
Lemma scan_preamble p secs :
  okPreamble p = true ->
  Forall (fun s => wellFormed s = true) secs ->
  scan flagM numbered None (p +:+ textOf secs) 0 0 = matchesOf (len p) secs.
Proof.
  intros Hp Hall. unfold okPreamble in Hp.
  destruct p as [|c p'].
  - apply scan_sections; [exact Hall | reflexivity].
  - cbn [isEmpty orb] in Hp. apply andb_true_iff in Hp as [Hend Hq].
    apply negb_true_iff in Hq. unfold endsWith in Hend.
    apply andb_true_iff in Hend as [_ Hend]. apply String.eqb_eq in Hend.
    set (p := String c p') in *.
    pose proof (take_drop (len p - len nl) p) as Hsplit.
    rewrite Hend in Hsplit. set (q := take (len p - len nl) p) in *.
    rewrite <- Hsplit in Hq. rewrite numberedLine_newline in Hq.
    rewrite <- Hsplit, string_app_assoc.
    change (nl +:+ textOf secs) with (String LF (textOf secs)).
    rewrite (scan_quiet _ q true); [|reflexivity | exact Hq].
    rewrite scan_sections; [|exact Hall | reflexivity].
    f_equal. rewrite len_app. simpl. lia.
Qed.

Lemma findHeaders_sections p secs :
  okPreamble p = true ->
  Forall (fun s => wellFormed s = true) secs ->
  findHeaders (p +:+ textOf secs) = map headerOf (matchesOf (len p) secs).
Proof.
  intros Hp Hall. rewrite (proj1 (findHeaders_in_text_order _)).
  unfold matchAll. rewrite scan_preamble; [reflexivity | exact Hp | exact Hall].
Qed.

Lemma clamp_within s k : k <= len s -> clamp s (Z.of_nat k) = k.
Proof. intros H. unfold clamp. lia. Qed.

Lemma substring_middle x m y :
  substring (x +:+ m +:+ y) (Z.of_nat (len x)) (Z.of_nat (len x + len m)) = m.
Proof.
  unfold substring.
  rewrite !clamp_within by (rewrite !len_app; lia).
  replace (Nat.min (len x) (len x + len m)) with (len x) by lia.
  replace (Nat.max (len x) (len x + len m) - len x) with (len m) by lia.
  rewrite drop_app_len. apply take_app_len.
Qed.

Lemma trimEnd_newline s : trimEnd (s +:+ nl) = trimEnd s.
Proof.
  induction s as [|c r IH]; [reflexivity|].
  rewrite app_cons. cbn [trimEnd]. rewrite IH. reflexivity.
Qed.

Lemma trimStart_app s t :
  hasInk s = true -> trimStart (s +:+ t) = trimStart s +:+ t.
Proof.
  induction s as [|c r IH]; [discriminate|].
  rewrite app_cons. cbn [trimStart hasInk].
  destruct (isWhiteSpace c); cbn [negb orb]; intros H.
  - apply IH, H.
  - rewrite app_cons. reflexivity.
Qed.

(** The text between two headers, trimmed, is the body, trimmed. *)
Lemma trim_between body :
  hasInk body = true -> trim (String LF body +:+ nl) = trim body.
Proof.
  intros H. rewrite app_cons. unfold trim. cbn [trimStart].
  replace (isWhiteSpace LF) with true by reflexivity.
  rewrite (trimStart_app _ _ H). apply trimEnd_newline.
Qed.

Lemma trim_after body : trim (String LF body) = trim body.
Proof. reflexivity. Qed.

(** The sections that the loop of [extractFiles] pairs with the
    headers are the bodies, trimmed. *)
Lemma sectionsOf_sections secs : forall pre,
  Forall (fun s => wellFormed s = true) secs ->
  Forall2 (fun s p => title (fst p) = trim (sec_title s)
                      /\ snd p = trim (sec_body s))
          secs
          (sectionsOf (pre +:+ textOf secs)
                      (map headerOf (matchesOf (len pre) secs))).
Proof.
  induction secs as [|s secs IH]; intros pre Hall; [constructor|].
  inversion Hall as [|? ? Hs Hrest]; subst.
  destruct (wellFormed_parts s Hs)
    as (Hi & Hne & Hnum & Hgap & Hstart & Htitle & Hink & Hquiet).
  assert (Hstart' : len pre + len (headerLine s) = len (pre +:+ headerLine s))
    by (rewrite len_app; reflexivity).
  destruct secs as [|s' rest].
  - unfold textOf. cbn [matchesOf map join sectionsOf head]. constructor;
      [|constructor].
    cbn [fst snd]. split; [reflexivity|].
    unfold sectionContent. cbn [hIndex fullMatch headerOf index text].
    assert (Htext : pre +:+ block s
                    = (pre +:+ headerLine s) +:+ String LF (sec_body s) +:+ "").
    { unfold block. rewrite !string_app_assoc, app_nil_r_str. reflexivity. }
    rewrite Hstart'. rewrite Htext at 1.
    replace (len (pre +:+ block s))
      with (len (pre +:+ headerLine s) + len (String LF (sec_body s)))
      by (unfold block; rewrite !len_app; simpl; lia).
    rewrite substring_middle. apply trim_after.
  - rewrite textOf_cons. cbn [matchesOf map sectionsOf head]. constructor.
    + cbn [fst snd]. split; [reflexivity|].
      unfold sectionContent. cbn [hIndex fullMatch headerOf index text].
      assert (Htext : pre +:+ block s +:+ nl +:+ textOf (s' :: rest)
                      = (pre +:+ headerLine s)
                        +:+ (String LF (sec_body s) +:+ nl)
                        +:+ textOf (s' :: rest)).
      { unfold block. rewrite !string_app_assoc. reflexivity. }
      rewrite Hstart', Htext.
      replace (len pre + len (block s) + 1)
        with (len (pre +:+ headerLine s) + len (String LF (sec_body s) +:+ nl))
        by (unfold block; rewrite !len_app; simpl; lia).
      rewrite substring_middle. apply trim_between, Hink.
    + specialize (IH (pre +:+ block s +:+ nl) Hrest).
      rewrite !len_app, !string_app_assoc in IH.
      change (len nl) with 1 in IH. rewrite Nat.add_assoc in IH. exact IH.
Qed.

Lemma matchesOf_length i secs : length (matchesOf i secs) = length secs.
Proof. revert i. induction secs; intros i; simpl; congruence. Qed.

Lemma Forall2_compose {A B C} (P : A -> B -> Prop) (Q : B -> C -> Prop)
    (R : A -> C -> Prop) xs : forall ys zs,
  (forall x y z, P x y -> Q y z -> R x z) ->
  Forall2 P xs ys -> Forall2 Q ys zs -> Forall2 R xs zs.
Proof.
  induction xs as [|x xs IH]; intros ys zs H HP HQ.
  - inversion HP; subst. inversion HQ; subst. constructor.
  - inversion HP; subst. inversion HQ; subst. constructor.
    + eapply H; eassumption.
    + eapply IH; eassumption.
Qed.

(** C1.  For every text made of a preamble (none, or whole lines none
    of which starts with an integer and a period) and N >= 1 sections,
    each a numbered header line that is not indented (an integer, a
    period, optional white space other than line breaks, a title that
    starts with a character that is not white space and runs to the
    end of the line) followed by a body that is not empty once trimmed
    and in which no line starts with an integer and a period,
    [extractFiles] returns N records, or N + 1 when [generateConfig] is
    set, the last one then being the manifest [project-config.json].
    The records follow the sections in the order of the text: record i
    carries the title of header i, and its content is body i, trimmed,
    and passed through [cleanCode] when that option is set. *)
Theorem extractFiles_numbered_sections
    (E : Env) (preamble : string) (secs : list NumberedSection) (options : Options)
    (this : Extractor) :
  secs <> [] ->
  okPreamble preamble = true ->
  Forall (fun s => wellFormed s = true) secs ->
  exists (records rs : list FileRecord) (this' : Extractor),
    extractFiles E (preamble +:+ textOf secs) options this
    = (Ok records, this')
    /\ extractedFiles this' = records
    /\ length rs = length secs
    /\ length records
       = length secs + (if generateConfig options then 1 else 0)
    /\ Forall2 (recordOfSection options) secs rs
    /\ (if generateConfig options
        then exists m, records = rs ++ [m]
                       /\ fileName m = "project-config.json"
        else records = rs).
Proof.
  intros Hne Hpre Hall. set (input := preamble +:+ textOf secs).
  pose proof (findHeaders_sections preamble secs Hpre Hall) as Hh.
  pose proof (sectionsOf_sections secs preamble Hall) as Hsecs.
  fold input in Hh, Hsecs. rewrite <- Hh in Hsecs.
  assert (Hlen : length (findHeaders input) = length secs).
  { rewrite Hh, length_map. apply matchesOf_length. }
  destruct (extractFiles_one_record_per_header E input options this)
    as (records & rs & this' & Hrun & Hfiles & Hcount & _ & Hrs & Hlast).
  { rewrite Hlen. destruct secs; [congruence | simpl; lia]. }
  { clear Hh Hlen. revert Hsecs Hall. clear Hne.
    generalize (sectionsOf input (findHeaders input)) as ps.
    induction secs as [|s secs' IH]; intros ps Hsecs Hall'.
    - inversion Hsecs; subst. constructor.
    - inversion Hsecs as [|? p ? ps' [_ Hp] Hrest]; subst.
      inversion Hall' as [|? ? Hs Hrest']; subst.
      destruct (wellFormed_parts s Hs) as (_ & _ & _ & _ & _ & _ & Hink & _).
      constructor.
      + rewrite Hp. apply trim_ink, Hink.
      + apply IH; [exact Hrest | exact Hrest']. }
  exists records, rs, this'.
  split; [exact Hrun|]. split; [exact Hfiles|].
  assert (Hrecs : Forall2 (recordOfSection options) secs rs).
  { eapply Forall2_compose; [|exact Hsecs | exact Hrs].
    intros s p r [Ht Hb] [Hr1 Hr2]. split.
    - rewrite Hr1, Ht. reflexivity.
    - rewrite Hr2, Hb. reflexivity. }
  split; [symmetry; eapply Forall2_length, Hrecs|].
  split; [rewrite Hcount, Hlen; reflexivity|].
  split; [exact Hrecs | exact Hlast].
Qed.

(** C1, as stated, fails.  A header that is indented is well formed in
    the words of the specification, and [extractFiles] does not see
    it: the text of one such section is refused for having no header.
    A body line such as [3.14 is pi] is no header in those words, and
    [extractFiles] takes it for one: the text of one section with this
    body gives two headers with blank sections, and so no record.
    And the content of a record is not always the trimmed text of its
    section: with the options left to their defaults, a body that is a
    fenced block is stored without its fences. *)
Lemma headers_of_the_specification_are_missed :
  wellFormedBySpec indented = true
  /\ fst (extractFiles Platform.sampleEnv (textOf [indented])
                       defaultOptions newExtractor)
     = Throw NoHeadersFound
  /\ wellFormedBySpec withDecimal = true
  /\ fst (extractFiles Platform.sampleEnv (textOf [withDecimal])
                       defaultOptions newExtractor)
     = Ok []
  /\ wellFormedBySpec fencedBody = true
  /\ exists r m,
       fst (extractFiles Platform.sampleEnv (textOf [fencedBody])
                         defaultOptions newExtractor)
       = Ok [r; m]
       /\ content r = "class A"
       /\ content r <> trim (sec_body fencedBody).
Proof.
  split; [reflexivity|]. split; [vm_compute; reflexivity|].
  split; [reflexivity|]. split; [vm_compute; reflexivity|].
  split; [reflexivity|]. eexists. eexists.
  split; [vm_compute; reflexivity|]. split; [reflexivity|].
  vm_compute. discriminate.
Qed.

Lemma extractFiles_numbered_sections_witness :
  exists (records rs : list FileRecord) (this' : Extractor),
    extractFiles Platform.sampleEnv (foreword +:+ textOf twoSections)
                 defaultOptions newExtractor
    = (Ok records, this')
    /\ extractedFiles this' = records
    /\ length rs = 2
    /\ length records = 3
    /\ Forall2 (recordOfSection defaultOptions) twoSections rs
    /\ exists m, records = rs ++ [m] /\ fileName m = "project-config.json".
Proof.
  apply (extractFiles_numbered_sections Platform.sampleEnv foreword
           twoSections defaultOptions newExtractor).
  - discriminate.
  - reflexivity.
  - repeat constructor.
Defined.

End NumberedTextLaws.
